(** * Brunnhilde: characterization aggregation and reporting

    A shallow embedding of [brunnhilde.py] (Brunnhilde 1.6.0), the
    Siegfried-based reporting tool, and the properties of its importer,
    statistics aggregator, report generator and PRONOM link rewriter.

    Python [str] values are Rocq [string]s (a character is an [ascii]: the
    texts are those of 8-bit characters), the rows of the [csv] module and
    of the sqlite table are lists of strings, files are their text, and a
    Python exception is the [Raise] branch of [result].  The first part of
    the file holds the embedding, the second part the theorems.

    The program runs under Python 2 and Python 3 and branches on the
    version where it opens files; the embedding follows the Python 3
    branches.  Of the two collaborators that are not part of the program,
    the [csv] module is embedded with the program, and the sqlite queries
    are written as list functions over the rows of the one table. *)

From Stdlib Require Import String Ascii List Bool Arith ZArith Lia.
From Stdlib Require Import Permutation Sorting.Sorted.
From Stdlib Require DecimalString.
Import ListNotations.

Local Open Scope list_scope.
Local Open Scope string_scope.

(* ================================================================== *)
(** * Part I: the embedding                                            *)
(* ================================================================== *)

(** ** Python strings *)

Module Str.

Definition LF : ascii := "010"%char.
Definition CR : ascii := "013"%char.
Definition DQ : ascii := "034"%char.
Definition NUL : ascii := "000"%char.

(** One-character strings for the characters that cannot be written
    inside a literal. *)
Definition chr (c : ascii) : string := String c EmptyString.
Definition nl : string := chr LF.
Definition crlf : string := String CR (chr LF).
Definition dq : string := chr DQ.

Definition is_empty (s : string) : bool :=
  match s with EmptyString => true | String _ _ => false end.

(** [s.startswith(p)], returning what follows the prefix. *)
Fixpoint strip_prefix (p s : string) : option string :=
  match p, s with
  | EmptyString, _ => Some s
  | String a p', String b s' =>
      if Ascii.eqb a b then strip_prefix p' s' else None
  | String _ _, EmptyString => None
  end.

Definition startswith (p s : string) : bool :=
  match strip_prefix p s with Some _ => true | None => false end.

(** [old in s] *)
Fixpoint contains (old s : string) : bool :=
  startswith old s ||
  match s with
  | EmptyString => false
  | String _ s' => contains old s'
  end.

(** [s.replace(old, new)] for a non-empty [old]: the occurrences of [old]
    are found left to right and do not overlap.  [skip] counts the
    characters of an occurrence that are still to be dropped. *)
Fixpoint replace_from (old new : string) (skip : nat) (s : string) : string :=
  match s with
  | EmptyString => EmptyString
  | String c s' =>
      match skip with
      | S k => replace_from old new k s'
      | O =>
          if startswith old s
          then new ++ replace_from old new (String.length old - 1) s'
          else String c (replace_from old new 0 s')
      end
  end.

(** [s.replace('', new)] puts [new] before every character and at the end. *)
Fixpoint intersperse (new s : string) : string :=
  match s with
  | EmptyString => new
  | String c s' => new ++ String c (intersperse new s')
  end.

Definition replace (old new s : string) : string :=
  if is_empty old then intersperse new s else replace_from old new 0 s.

(** [sep.join(l)] *)
Fixpoint join (sep : string) (l : list string) : string :=
  match l with
  | [] => EmptyString
  | [x] => x
  | x :: l' => x ++ sep ++ join sep l'
  end.

(** Concatenation of everything written to a file, in order. *)
Definition cat (l : list string) : string :=
  fold_right String.append EmptyString l.

(** Python compares [str] values code point by code point. *)
Fixpoint ltb (s t : string) : bool :=
  match s, t with
  | EmptyString, EmptyString => false
  | EmptyString, String _ _ => true
  | String _ _, EmptyString => false
  | String a s', String b t' =>
      if Ascii.eqb a b then ltb s' t'
      else Nat.ltb (nat_of_ascii a) (nat_of_ascii b)
  end.

Definition leb (s t : string) : bool := negb (ltb t s).

Definition is_digit (c : ascii) : bool :=
  Nat.leb 48 (nat_of_ascii c) && Nat.leb (nat_of_ascii c) 57.

End Str.

(** ** Exceptions *)

Inductive exn : Type :=
| OperationalError   (* sqlite3: the statement cannot be executed *)
| ValueError         (* float() of a string that is no number *)
| StopIteration      (* next() on an exhausted reader *)
| IndexError         (* row[4] on a shorter row *)
| CsvError.          (* _csv.Error *)

Inductive result (A : Type) : Type :=
| Ok (a : A)
| Raise (e : exn).

Arguments Ok {A} a.
Arguments Raise {A} e.

Definition bind {A B : Type} (m : result A) (k : A -> result B) : result B :=
  match m with
  | Ok a => k a
  | Raise e => Raise e
  end.

Notation "x <- m ;; k" := (bind m (fun x => k))
  (at level 61, m at next level, right associativity).

(** ** The PRONOM link rewriter ([write_pronom_links]) *)

Module Pronom.
Import Str.

(** The longest run of [[0-9]] at the head of [s], and the rest. *)
Fixpoint span_digits (s : string) : string * string :=
  match s with
  | EmptyString => (EmptyString, EmptyString)
  | String c s' =>
      if is_digit c
      then let (d, r) := span_digits s' in (String c d, r)
      else (EmptyString, s)
  end.

(** One alternative of the pattern, a literal followed by [[0-9]+],
    matched at the head of [s]; the result is the matched text. *)
Definition match_alt (lit s : string) : option string :=
  match strip_prefix lit s with
  | None => None
  | Some r =>
      match span_digits r with
      | (EmptyString, _) => None
      | (d, _) => Some (lit ++ d)
      end
  end.

(** [fmt\/[0-9]+|x\-fmt\/[0-9]+] at the head of [s]: the first
    alternative that matches wins. *)
Definition match_puid (s : string) : option string :=
  match match_alt "fmt/" s with
  | Some m => Some m
  | None => match_alt "x-fmt/" s
  end.

(** [re.findall(regex, line)]: the scan resumes after each match. *)
Fixpoint findall_from (skip : nat) (s : string) : list string :=
  match s with
  | EmptyString => []
  | String _ s' =>
      match skip with
      | S k => findall_from k s'
      | O =>
          match match_puid s with
          | Some m => m :: findall_from (String.length m - 1) s'
          | None => findall_from 0 s'
          end
      end
  end.

Definition findall (line : string) : list string := findall_from 0 line.

(** The replacement text built for one match. *)
Definition pronom_link (m : string) : string :=
  "<a href=" ++ dq ++ "http://nationalarchives.gov.uk/PRONOM/" ++ m ++ dq
    ++ " target=" ++ dq ++ "_blank" ++ dq ++ ">" ++ m ++ "</a>".

(** The body of the loop over the lines: every match, in the order
    [findall] gave them, is replaced in the line as rewritten so far. *)
Definition rewrite_line (line : string) : string :=
  fold_left (fun line m => replace m (pronom_link m) line) (findall line) line.

(** [in_file] is the list of the lines the file iterator yields, each with
    its line end; the result is what is written to [out_file]. *)
Definition write_pronom_links (in_file : list string) : list string :=
  map rewrite_line in_file.

End Pronom.

(** ** The sqlite table [siegfried] and the queries run on it *)

Module Sql.

(** A row of the table, and of the csv module: its columns, all text. *)
Definition Row : Type := list string.
Definition Table : Type := list Row.

(** Width of the table [CREATE TABLE siegfried] declares. *)
Definition ncols (use_hash : bool) : nat := if use_hash then 12 else 11.

(** Columns by position.  The first four are at the same place in both
    schemas; [hash] exists with hashing only and moves the others by one. *)
Definition col (i : nat) (r : Row) : string := nth i r EmptyString.

Definition filename : Row -> string := col 0.
Definition filesize : Row -> string := col 1.
Definition modified : Row -> string := col 2.
Definition errors : Row -> string := col 3.
Definition hash : Row -> string := col 4.

Definition shift (use_hash : bool) : nat := if use_hash then 1 else 0.

Definition namespace (use_hash : bool) : Row -> string := col (4 + shift use_hash).
Definition id (use_hash : bool) : Row -> string := col (5 + shift use_hash).
Definition format (use_hash : bool) : Row -> string := col (6 + shift use_hash).
Definition version (use_hash : bool) : Row -> string := col (7 + shift use_hash).
Definition mime (use_hash : bool) : Row -> string := col (8 + shift use_hash).
Definition basis (use_hash : bool) : Row -> string := col (9 + shift use_hash).
Definition warning (use_hash : bool) : Row -> string := col (10 + shift use_hash).

(** Every row of a table has the declared width: sqlite refuses any other
    [INSERT]. *)
Definition well_formed (use_hash : bool) (t : Table) : Prop :=
  Forall (fun r => List.length r = ncols use_hash) t.

(** [SELECT DISTINCT]: one copy of every value, here in the order of the
    first occurrences (sqlite promises no order). *)
Fixpoint distinct_by {A : Type} (eqb : A -> A -> bool) (l : list A) : list A :=
  match l with
  | [] => []
  | x :: l' => x :: filter (fun y => negb (eqb y x)) (distinct_by eqb l')
  end.

Definition distinct : list string -> list string := distinct_by String.eqb.

(** [SUBSTR(modified, 1, 4)] *)
Definition year (r : Row) : string := substring 0 4 (modified r).

(** *** The scalar queries of [get_stats] *)

(** [SELECT COUNT( * ) from siegfried] *)
Definition num_files (t : Table) : nat := List.length t.

(** [SELECT COUNT( * ) from siegfried where filesize='0'] *)
Definition empty_files (t : Table) : nat :=
  List.length (filter (fun r => filesize r =? "0") t).

(** [SELECT COUNT(DISTINCT hash) from siegfried WHERE filesize<>'0'] *)
Definition distinct_files (t : Table) : nat :=
  List.length (distinct (map hash (filter (fun r => negb (filesize r =? "0")) t))).

(** The [WHERE] clause of the three duplicate queries:
    [EXISTS (SELECT 1 from siegfried t2 WHERE t2.hash = t1.hash AND
    t1.filename != t2.filename) AND filesize<>'0'], for the row [t1]. *)
Definition is_duplicate (t : Table) (t1 : Row) : bool :=
  existsb (fun t2 => (hash t2 =? hash t1) && negb (filename t1 =? filename t2)) t
  && negb (filesize t1 =? "0").

Definition duplicates (t : Table) : Table := filter (is_duplicate t) t.

(** [SELECT COUNT(hash) FROM siegfried t1 WHERE ...] *)
Definition all_dupes (t : Table) : nat := List.length (duplicates t).

(** [SELECT COUNT(DISTINCT hash) FROM siegfried t1 WHERE ...] *)
Definition distinct_dupes (t : Table) : nat :=
  List.length (distinct (map hash (duplicates t))).

(** [int(all_dupes) - int(distinct_dupes)] *)
Definition duplicate_copies (t : Table) : Z :=
  (Z.of_nat (all_dupes t) - Z.of_nat (distinct_dupes t))%Z.

(** [SELECT COUNT( * ) FROM siegfried WHERE id='UNKNOWN'] *)
Definition unidentified_files (use_hash : bool) (t : Table) : nat :=
  List.length (filter (fun r => id use_hash r =? "UNKNOWN") t).

(** [SELECT DISTINCT SUBSTR(modified, 1, 4) as 'year' FROM siegfried] *)
Definition year_sql (t : Table) : list Row :=
  map (fun y => [y]) (distinct (map year t)).

(** [SELECT DISTINCT modified FROM siegfried] *)
Definition datemodified_sql (t : Table) : list Row :=
  map (fun d => [d]) (distinct (map modified t)).

(** [SELECT COUNT(DISTINCT format) as formats from siegfried WHERE format <> ''] *)
Definition num_formats (use_hash : bool) (t : Table) : nat :=
  List.length
    (distinct (map (format use_hash)
                   (filter (fun r => negb (format use_hash r =? EmptyString)) t))).

(** [SELECT COUNT( * ) FROM siegfried WHERE errors <> ''] *)
Definition num_errors (t : Table) : nat :=
  List.length (filter (fun r => negb (errors r =? EmptyString)) t).

(** [SELECT COUNT( * ) FROM siegfried WHERE warning <> ''] *)
Definition num_warnings (use_hash : bool) (t : Table) : nat :=
  List.length (filter (fun r => negb (warning use_hash r =? EmptyString)) t).

(** *** The queries of [generate_reports] *)

(** [ORDER BY]: a stable insertion sort; [before x y] says that [x] has to
    come first, and rows that tie stay as they were.  The order sqlite
    gives to ties is not specified, and sqlite may give another: nothing
    below says in which order rows that tie come. *)
Fixpoint insert_by {A : Type} (before : A -> A -> bool) (x : A) (l : list A) : list A :=
  match l with
  | [] => [x]
  | y :: l' => if before y x then y :: insert_by before x l' else x :: l
  end.

Definition order_by {A : Type} (before : A -> A -> bool) (l : list A) : list A :=
  fold_right (insert_by before) [] l.

(** A line of a counting report: the selected columns and [COUNT( * )]. *)
Record counted : Type := Counted { c_cols : list string; c_num : nat }.

Definition num_desc (x y : counted) : bool := Nat.ltb (c_num y) (c_num x).

(** Descending counts: [x] may stand before [y]. *)
Definition count_ge (x y : counted) : Prop := c_num y <= c_num x.

Definition key_eqb (k1 k2 : list string) : bool :=
  if list_eq_dec string_dec k1 k2 then true else false.

Section GroupBy.

(** Of a column that is selected but is neither aggregated nor named by
    [GROUP BY], sqlite reports the value found in one row of the group,
    without saying which: [pick] is that choice. *)
Variable pick : list Row -> Row.

(** [SELECT sel, COUNT( * ) as 'num' FROM siegfried GROUP BY key
    ORDER BY num DESC]: one line per value of [key]. *)
Definition select_count (sel key : Row -> list string) (t : Table) : list counted :=
  order_by num_desc
    (map (fun k =>
            let g := filter (fun r => key_eqb (key r) k) t in
            Counted (sel (pick g)) (List.length g))
         (distinct_by key_eqb (map key t))).

(** [SELECT format, id, COUNT( * ) as 'num' FROM siegfried GROUP BY format
    ORDER BY num DESC] *)
Definition formats_sql (use_hash : bool) : Table -> list counted :=
  select_count (fun r => [format use_hash r; id use_hash r])
               (fun r => [format use_hash r]).

(** [SELECT format, id, version, COUNT( * ) as 'num' FROM siegfried
    GROUP BY format, version ORDER BY num DESC] *)
Definition versions_sql (use_hash : bool) : Table -> list counted :=
  select_count (fun r => [format use_hash r; id use_hash r; version use_hash r])
               (fun r => [format use_hash r; version use_hash r]).

(** [SELECT mime, COUNT( * ) as 'num' FROM siegfried GROUP BY mime
    ORDER BY num DESC] *)
Definition mimetypes_sql (use_hash : bool) : Table -> list counted :=
  select_count (fun r => [mime use_hash r]) (fun r => [mime use_hash r]).

(** [SELECT SUBSTR(modified, 1, 4) as 'year', COUNT( * ) as 'num'
    FROM siegfried GROUP BY year ORDER BY num DESC] *)
Definition years_sql : Table -> list counted :=
  select_count (fun r => [year r]) (fun r => [year r]).

End GroupBy.

(** [SELECT * FROM siegfried WHERE id='UNKNOWN'] *)
Definition unidentified_sql (use_hash : bool) (t : Table) : list Row :=
  filter (fun r => id use_hash r =? "UNKNOWN") t.

(** [SELECT * FROM siegfried WHERE warning <> ''] *)
Definition warnings_sql (use_hash : bool) (t : Table) : list Row :=
  filter (fun r => negb (warning use_hash r =? EmptyString)) t.

(** [SELECT * FROM siegfried WHERE errors <> ''] *)
Definition errors_sql (t : Table) : list Row :=
  filter (fun r => negb (errors r =? EmptyString)) t.

(** [SELECT * FROM siegfried t1 WHERE ... ORDER BY hash] *)
Definition duplicates_sql (t : Table) : list Row :=
  order_by (fun x y => Str.ltb (hash x) (hash y)) (duplicates t).

(** *** [import_csv] *)

(** [cursor.execute(insertsql, row)] on a table of [n] columns: sqlite
    raises when the number of values is not the number of columns. *)
Definition execute_insert (n : nat) (t : Table) (row : Row) : result Table :=
  if Nat.eqb (List.length row) n then Ok (t ++ [row])%list
  else Raise OperationalError.

(** The loop over the rows that follow the header. *)
Fixpoint import_rows (n rowlen : nat) (t : Table) (rows : list Row) : result Table :=
  match rows with
  | [] => Ok t
  | row :: rows' =>
      if Nat.eqb (List.length row) rowlen
      then t' <- execute_insert n t row ;; import_rows n rowlen t' rows'
      else import_rows n rowlen t rows'
  end.

(** [reader] is the list of the rows the csv reader yields for the
    Siegfried file, [db] the table the store holds before the call, if
    any.  The first row drops and creates the table; with no row at all
    the store is left as it was. *)
Definition import_csv (use_hash : bool) (db : option Table) (reader : list Row)
  : result (option Table) :=
  match reader with
  | [] => Ok db
  | header :: rows =>
      t <- import_rows (ncols use_hash) (List.length header) [] rows ;; Ok (Some t)
  end.

End Sql.

(** ** The [csv] module and the files it reads and writes

    The default dialect: fields separated by commas and put between double
    quotes only when needed, a quote inside a quoted field written twice,
    records ended by carriage return and line feed, no escape character,
    not strict. *)

Module Csv.
Import Str.
Import Sql.

(** *** [csv.writer] *)

Definition special (delim c : ascii) : bool :=
  Ascii.eqb c delim || Ascii.eqb c DQ || Ascii.eqb c CR || Ascii.eqb c LF.

Fixpoint any_char (p : ascii -> bool) (s : string) : bool :=
  match s with
  | EmptyString => false
  | String c s' => p c || any_char p s'
  end.

(** The text of a quoted field between its quotes. *)
Fixpoint double_quotes (s : string) : string :=
  match s with
  | EmptyString => EmptyString
  | String c s' =>
      if Ascii.eqb c DQ then String DQ (String DQ (double_quotes s'))
      else String c (double_quotes s')
  end.

(** A field is quoted when it holds a special character, and when it is
    empty and alone in its record. *)
Definition write_field (delim : ascii) (lone : bool) (f : string) : string :=
  if any_char (special delim) f || (lone && is_empty f)
  then dq ++ double_quotes f ++ dq
  else f.

(** [w.writerow(row)]: the text added to the file. *)
Definition writerow (row : Row) : string :=
  join "," (map (write_field "," (Nat.eqb (List.length row) 1)) row) ++ crlf.

Definition writerows (rows : list Row) : string := cat (map writerow rows).

(** *** Iterating over a text file *)

(** The lines of a file opened with [newline='']: a line ends after a line
    feed, after a carriage return, or after the two in a row, and keeps
    its ending.  [cur] is the line read so far, [pending] says that it
    ends with a carriage return that a line feed may still follow. *)
Fixpoint lines_from (cur : string) (pending : bool) (s : string) : list string :=
  match s with
  | EmptyString => if is_empty cur then [] else [cur]
  | String c s' =>
      if Ascii.eqb c LF then (cur ++ chr LF) :: lines_from EmptyString false s'
      else if pending then
        cur :: (if Ascii.eqb c CR then lines_from (chr CR) true s'
                else lines_from (chr c) false s')
      else if Ascii.eqb c CR then lines_from (cur ++ chr CR) true s'
      else lines_from (cur ++ chr c) false s'
  end.

Definition lines_raw (text : string) : list string :=
  lines_from EmptyString false text.

(** What a file opened without [newline] hands out: every line ending is
    turned into a line feed.  [after_cr] says that the character before
    was a carriage return, so that a line feed now belongs to an ending
    already given out. *)
Fixpoint universal_from (after_cr : bool) (s : string) : string :=
  match s with
  | EmptyString => EmptyString
  | String c s' =>
      if Ascii.eqb c CR then String LF (universal_from true s')
      else if Ascii.eqb c LF then
        if after_cr then universal_from false s'
        else String LF (universal_from false s')
      else String c (universal_from false s')
  end.

Definition universal (text : string) : string := universal_from false text.

(** The lines of a file opened without [newline]; also [readlines()]. *)
Definition lines_universal (text : string) : list string :=
  lines_raw (universal text).

(** *** [csv.reader] *)

Inductive state : Type :=
| START_RECORD
| START_FIELD
| IN_FIELD
| IN_QUOTED_FIELD
| QUOTE_IN_QUOTED_FIELD
| EAT_CRNL.

(** The parser: its state, the field being read and the fields read. *)
Record parser : Type := Parser { st : state; field : string; fields : list string }.

Definition reset : parser := Parser START_RECORD EmptyString [].

Definition add_char (p : parser) (c : ascii) (s : state) : parser :=
  Parser s (field p ++ chr c) (fields p).

Definition save_field (p : parser) (s : state) : parser :=
  Parser s EmptyString (fields p ++ [field p])%list.

Definition goto (p : parser) (s : state) : parser :=
  Parser s (field p) (fields p).

Definition is_newline (c : ascii) : bool := Ascii.eqb c LF || Ascii.eqb c CR.

Definition start_field (delim : ascii) (p : parser) (c : option ascii) : parser :=
  match c with
  | None => save_field p START_RECORD
  | Some c =>
      if is_newline c then save_field p EAT_CRNL
      else if Ascii.eqb c DQ then goto p IN_QUOTED_FIELD
      else if Ascii.eqb c delim then save_field p START_FIELD
      else add_char p c IN_FIELD
  end.

(** [parse_process_char]; [None] is the end of a line. *)
Definition process_char (delim : ascii) (p : parser) (c : option ascii) : result parser :=
  match st p with
  | START_RECORD =>
      match c with
      | None => Ok p
      | Some c' =>
          if is_newline c' then Ok (goto p EAT_CRNL)
          else Ok (start_field delim p c)
      end
  | START_FIELD => Ok (start_field delim p c)
  | IN_FIELD =>
      match c with
      | None => Ok (save_field p START_RECORD)
      | Some c =>
          if is_newline c then Ok (save_field p EAT_CRNL)
          else if Ascii.eqb c delim then Ok (save_field p START_FIELD)
          else Ok (add_char p c IN_FIELD)
      end
  | IN_QUOTED_FIELD =>
      match c with
      | None => Ok p
      | Some c =>
          if Ascii.eqb c DQ then Ok (goto p QUOTE_IN_QUOTED_FIELD)
          else Ok (add_char p c IN_QUOTED_FIELD)
      end
  | QUOTE_IN_QUOTED_FIELD =>
      match c with
      | None => Ok (save_field p START_RECORD)
      | Some c =>
          if Ascii.eqb c DQ then Ok (add_char p c IN_QUOTED_FIELD)
          else if Ascii.eqb c delim then Ok (save_field p START_FIELD)
          else if is_newline c then Ok (save_field p EAT_CRNL)
          else Ok (add_char p c IN_FIELD)
      end
  | EAT_CRNL =>
      match c with
      | None => Ok (goto p START_RECORD)
      | Some c => if is_newline c then Ok p else Raise CsvError
      end
  end.

(** The characters of one line. *)
Fixpoint feed (delim : ascii) (p : parser) (line : string) : result parser :=
  match line with
  | EmptyString => Ok p
  | String c line' => p' <- process_char delim p (Some c) ;; feed delim p' line'
  end.

(** The rows the reader yields from the lines it is given, and the
    exception that ends the iteration, if one is raised.  A record is
    complete when the end of a line leaves the parser at the start of a
    record; at the end of the input a record that is under way is given
    out as it stands. *)
Fixpoint rows_from (delim : ascii) (p : parser) (lines : list string)
  : list Row * option exn :=
  match lines with
  | [] =>
      match st p with
      | IN_QUOTED_FIELD => ([(fields p ++ [field p])%list], None)
      | _ => if is_empty (field p) then ([], None)
             else ([(fields p ++ [field p])%list], None)
      end
  | line :: lines' =>
      match (p1 <- feed delim p line ;; process_char delim p1 None) with
      | Raise e => ([], Some e)
      | Ok p2 =>
          match st p2 with
          | START_RECORD =>
              let (rows, e) := rows_from delim reset lines' in
              (fields p2 :: rows, e)
          | _ => rows_from delim p2 lines'
          end
      end
  end.

Definition reader (delim : ascii) (lines : list string) : list Row * option exn :=
  rows_from delim reset lines.

(** *** The limit on the size of a field

    The reader of the [csv] module refuses a field of more than
    [csv.field_size_limit()] characters, 131072 unless it is changed, and
    the program does not change it: [parse_add_char] raises when it is to
    add a character to a field that has that many.  A field grows by one
    character at a time and by [add_char] only, so the step that raises is
    the step after which the field would be longer than the limit.
    [rows_from] and [reader] above are the reader without this check;
    [rows_from_limited] and [reader_limited] are the reader with it. *)

Definition field_size_limit : N := 131072%N.

Definition within_limit (p : parser) : bool :=
  (N.of_nat (String.length (field p)) <=? field_size_limit)%N.

Definition process_char_limited (delim : ascii) (p : parser) (c : option ascii)
  : result parser :=
  p' <- process_char delim p c ;;
  if within_limit p' then Ok p' else Raise CsvError.

Fixpoint feed_limited (delim : ascii) (p : parser) (line : string) : result parser :=
  match line with
  | EmptyString => Ok p
  | String c line' =>
      p' <- process_char_limited delim p (Some c) ;; feed_limited delim p' line'
  end.

Fixpoint rows_from_limited (delim : ascii) (p : parser) (lines : list string)
  : list Row * option exn :=
  match lines with
  | [] =>
      match st p with
      | IN_QUOTED_FIELD => ([(fields p ++ [field p])%list], None)
      | _ => if is_empty (field p) then ([], None)
             else ([(fields p ++ [field p])%list], None)
      end
  | line :: lines' =>
      match (p1 <- feed_limited delim p line ;; process_char_limited delim p1 None) with
      | Raise e => ([], Some e)
      | Ok p2 =>
          match st p2 with
          | START_RECORD =>
              let (rows, e) := rows_from_limited delim reset lines' in
              (fields p2 :: rows, e)
          | _ => rows_from_limited delim p2 lines'
          end
      end
  end.

Definition reader_limited (delim : ascii) (lines : list string)
  : list Row * option exn :=
  rows_from_limited delim reset lines.

(** *** Reading the Siegfried file *)

(** [csv.reader(x.replace('\0', '') for x in f)] on the text of the file,
    opened without [newline].  The file is taken as its text: that its
    bytes are UTF-8 is a condition of everything said of the import. *)
Definition siegfried_reader (text : string) : list Row * option exn :=
  reader_limited "," (map (replace (chr NUL) EmptyString) (lines_universal text)).

End Csv.

(** ** The importer on the text of the file *)

Module Importer.
Import Sql.
Import Csv.

(** [import_csv] on the text of the Siegfried file: the rows are inserted
    as they are read, so an exception of the reader comes after the rows
    before it. *)
Definition import_file (use_hash : bool) (db : option Table) (text : string)
  : result (option Table) :=
  let r := siegfried_reader text in
  db' <- import_csv use_hash db (fst r) ;;
  match snd r with
  | Some e => Raise e
  | None => Ok db'
  end.

End Importer.

(** ** The aggregate statistics ([get_stats]) *)

(** The decimal numerals of at most four digits, and their values. *)
Module Numeral.
Import Str.

Fixpoint all_digits (s : string) : bool :=
  match s with
  | EmptyString => true
  | String c s' => is_digit c && all_digits s'
  end.

Definition numeral (s : string) : bool :=
  negb (is_empty s) && Nat.leb (String.length s) 4 && all_digits s.

Fixpoint value_from (acc : nat) (s : string) : nat :=
  match s with
  | EmptyString => acc
  | String c s' => value_from (10 * acc + (nat_of_ascii c - 48)) s'
  end.

Definition value (s : string) : nat := value_from 0 s.

End Numeral.

(** Python's [float] applied to a [str], and the order of the numbers it
    returns.  The built-in is not part of the program; what is used of it
    is that the empty string is refused and that the numerals of at most
    four digits are read as their values. *)
Class FloatConv : Type := {
  F : Type;
  py_float : string -> option F;      (* [None]: ValueError *)
  flt : F -> F -> bool;               (* [x < y] *)
  py_float_empty : py_float EmptyString = None;
  py_float_numeral :
    forall s, Numeral.numeral s = true -> py_float s <> None;
  flt_numeral :
    forall s t x y,
      Numeral.numeral s = true -> Numeral.numeral t = true ->
      py_float s = Some x -> py_float t = Some y ->
      flt x y = Nat.ltb (Numeral.value s) (Numeral.value t)
}.

Module Stats.
Import Str.
Import Sql.
Import Csv.

(** [min(l)] and [max(l)] on strings: the first item is the candidate, a
    later item replaces it when it compares strictly below (above). *)
Definition min_str (l : list string) : result string :=
  match l with
  | [] => Raise ValueError
  | x :: l' => Ok (fold_left (fun best y => if Str.ltb y best then y else best) l' x)
  end.

Definition max_str (l : list string) : result string :=
  match l with
  | [] => Raise ValueError
  | x :: l' => Ok (fold_left (fun best y => if Str.ltb best y then y else best) l' x)
  end.

Section KeyFloat.
Context {fc : FloatConv}.

(** The loop of [min(l, key=float)] ([max] with [above] set) once there
    is a candidate [best] with key [kb]: the key of every item is
    computed, which may raise. *)
Fixpoint extremum_loop (above : bool) (best : string) (kb : F) (l : list string)
  : result string :=
  match l with
  | [] => Ok best
  | x :: l' =>
      match py_float x with
      | None => Raise ValueError
      | Some k =>
          if (if above then flt kb k else flt k kb)
          then extremum_loop above x k l'
          else extremum_loop above best kb l'
      end
  end.

Definition extremum (above : bool) (l : list string) : result string :=
  match l with
  | [] => Raise ValueError
  | x :: l' =>
      match py_float x with
      | None => Raise ValueError
      | Some k => extremum_loop above x k l'
      end
  end.

Definition min_float : list string -> result string := extremum false.
Definition max_float : list string -> result string := extremum true.
End KeyFloat.

(** The temporary file: the rows of the query written with [csv.writer],
    the file read again with [csv.reader], both with [newline=''].  The
    values are values of the table, within the limit of the reader. *)
Definition write_and_read (rows : list Row) : list Row * option exn :=
  reader "," (lines_raw (writerows rows)).

(** [for row in r: if row: l.append(row[0])] *)
Definition first_fields (r : list Row * option exn) : result (list string) :=
  match snd r with
  | Some e => Raise e
  | None =>
      Ok (flat_map (fun row => match row with [] => [] | x :: _ => [x] end) (fst r))
  end.

(** The list [years] *)
Definition years (t : Table) : result (list string) :=
  first_fields (write_and_read (year_sql t)).

(** The list [dates] *)
Definition dates (t : Table) : result (list string) :=
  first_fields (write_and_read (datemodified_sql t)).

(** [(begin_date, end_date)] *)
Definition year_range {fc : FloatConv} (t : Table) : result (string * string) :=
  ys <- years t ;;
  match ys with
  | [] => Ok ("N/A", "N/A")
  | _ => b <- min_float ys ;; e <- max_float ys ;; Ok (b, e)
  end.

(** [(earliest_date, latest_date)] *)
Definition date_range (t : Table) : result (string * string) :=
  ds <- dates t ;;
  match ds with
  | [] => Ok ("N/A", "N/A")
  | _ => b <- min_str ds ;; e <- max_str ds ;; Ok (b, e)
  end.

(** What [get_stats] reads from the table.  The total size comes from a
    walk of the source directory and is not among these. *)
Record stats : Type := {
  s_num_files : nat;
  s_empty_files : nat;
  s_distinct_files : option nat;
  s_all_dupes : option nat;
  s_distinct_dupes : option nat;
  s_duplicate_copies : option Z;
  s_unidentified_files : nat;
  s_years : string * string;
  s_dates : string * string;
  s_num_formats : nat;
  s_num_errors : nat;
  s_num_warnings : nat
}.

Definition if_hash {A : Type} (use_hash : bool) (a : A) : option A :=
  if use_hash then Some a else None.

Definition get_stats {fc : FloatConv} (use_hash : bool) (t : Table) : result stats :=
  yr <- year_range t ;;
  dr <- date_range t ;;
  Ok {| s_num_files := num_files t;
        s_empty_files := empty_files t;
        s_distinct_files := if_hash use_hash (distinct_files t);
        s_all_dupes := if_hash use_hash (all_dupes t);
        s_distinct_dupes := if_hash use_hash (distinct_dupes t);
        s_duplicate_copies := if_hash use_hash (duplicate_copies t);
        s_unidentified_files := unidentified_files use_hash t;
        s_years := yr;
        s_dates := dr;
        s_num_formats := num_formats use_hash t;
        s_num_errors := num_errors t;
        s_num_warnings := num_warnings use_hash t |}.

End Stats.

(** ** The report sections ([sqlite_to_csv], [write_html],
       [generate_reports]) *)

Module Html.
Import Str.
Import Sql.
Import Csv.

(** What a piece of code writes to the report, in order, and the
    exception that stopped it, if any. *)
Definition writes : Type := (list string * option exn)%type.

Definition write (s : string) : writes := ([s], None).
Definition skip : writes := ([], None).
Definition raise (e : exn) : writes := ([], Some e).

Definition andthen (a b : writes) : writes :=
  match snd a with
  | Some _ => a
  | None => ((fst a ++ fst b)%list, snd b)
  end.

Notation "a ;;; b" := (andthen a b) (at level 62, right associativity).

(** [for x in l: body(x)] *)
Fixpoint for_each {A : Type} (l : list A) (body : A -> writes) : writes :=
  match l with
  | [] => skip
  | x :: l' => body x ;;; for_each l' body
  end.

(** [for row in r: body(row)] on a reader: its rows, then its exception. *)
Definition for_rows (r : list Row * option exn) (body : Row -> writes) : writes :=
  for_each (fst r) body ;;;
  match snd r with Some e => raise e | None => skip end.

(** The text of the report once the file is closed. *)
Definition text_of (w : writes) : string := cat (fst w).

(** [str(n)] for a count. *)
Definition str_of_nat (n : nat) : string :=
  DecimalString.NilEmpty.string_of_uint (Nat.to_uint n).

(** The row the csv writer is given for a line of a counting report. *)
Definition counted_row (c : counted) : Row := (c_cols c ++ [str_of_nat (c_num c)])%list.

(** [sqlite_to_csv]: the text of the csv file, the header first. *)
Definition sqlite_to_csv (header : Row) (rows : list Row) : string :=
  writerow header ++ writerows rows.

Definition table_open : string :=
  nl ++ "<table class=" ++ dq ++ "table table-striped table-bordered table-condensed"
     ++ dq ++ ">".

Definition PII : string := "Personally Identifiable Information (PII)".

(** The data rows of a table:
    [html.write('\n<tr>'); for column in row: ...; html.write('\n</tr>')] *)
Definition write_row (row : Row) : writes :=
  write (nl ++ "<tr>") ;;;
  for_each row (fun column => write (nl ++ "<td>" ++ column ++ "</td>")) ;;;
  write (nl ++ "</tr>").

(** [row[4]] *)
Definition item4 (row : Row) : result string :=
  match nth_error row 4 with
  | Some x => Ok x
  | None => Raise IndexError
  end.

(** [for row in r: if row: hash_list.append(row[4])] *)
Fixpoint collect_hashes (rows : list Row) : result (list string) :=
  match rows with
  | [] => Ok []
  | row :: rows' =>
      match row with
      | [] => collect_hashes rows'
      | _ => h <- item4 row ;; l <- collect_hashes rows' ;; Ok (h :: l)
      end
  end.

(** [l.remove(x)]: the first occurrence goes, and there must be one. *)
Fixpoint remove_first (x : string) (l : list string) : result (list string) :=
  match l with
  | [] => Raise ValueError
  | y :: l' =>
      if y =? x then Ok l'
      else l'' <- remove_first x l' ;; Ok (y :: l'')
  end.

Definition duplicates_header_cells : list string :=
  [nl ++ "<td><strong>Filename</strong></td><td><strong>Filesize</strong></td>";
   "<td><strong>Date modified</strong></td><td><strong>Errors</strong></td>";
   "<td><strong>Checksum</strong></td><td><strong>Namespace</strong></td>";
   "<td><strong>ID</strong></td><td><strong>Format</strong></td>";
   "<td><strong>Format version</strong></td><td><strong>MIME type</strong></td>";
   "<td><strong>Basis for ID</strong></td><td><strong>Warning</strong></td>"].

(** The table written for one hash value; the file is read again from
    its start. *)
Definition duplicates_table (r : list Row * option exn) (hash_value : string) : writes :=
  write (nl ++ "<p>Files matching checksum <strong>" ++ hash_value ++ "</strong>:</p>") ;;;
  write table_open ;;;
  write (nl ++ "<tr>") ;;;
  for_each duplicates_header_cells write ;;;
  write (nl ++ "</tr>") ;;;
  for_rows r (fun row =>
    match item4 row with
    | Raise e => raise e
    | Ok h => if h =? hash_value then write_row row else skip
    end) ;;;
  write (nl ++ "</table>").

(** [write_html(header, path, file_delimiter, html)], where [text] is the
    content of the file at [path].  The reader is the one without the
    limit on the size of a field: the values of the csv files of the
    reports are values of the table, which the reader of the import has
    let pass, and of the file of bulk_extractor the properties ask that
    the reader with the limit raises nothing. *)
Definition write_html (header : string) (text : string) (file_delimiter : ascii) : writes :=
  let numline := List.length (lines_universal text) in
  let r := reader file_delimiter (lines_universal text) in
  write (nl ++ "<a name=" ++ dq ++ header ++ dq ++ "></a>") ;;;
  write (nl ++ "<h3>" ++ header ++ "</h3>") ;;;
  (if header =? "Duplicates"
   then write (nl ++ "<p><em>Duplicates are grouped by hash value.</em></p>")
   else if header =? PII
   then write (nl ++ "<p><em>Potential PII in source, as identified by bulk_extractor.</em></p>")
   else skip) ;;;
  (if header =? PII then
     if Nat.ltb 5 numline then
       write table_open ;;;
       write (nl ++ "<tr>") ;;;
       write (nl ++ "<td><strong>File</strong></td>") ;;;
       write (nl ++ "<td><strong>Value Found</strong></td>") ;;;
       write (nl ++ "<td><strong>Context</strong></td>") ;;;
       match skipn 4 (fst r) with
       | [] => match snd r with Some e => raise e | None => skip end
       | _ :: rest =>
           write (nl ++ "</tr>") ;;;
           for_rows (rest, snd r) write_row ;;;
           write (nl ++ "</table>")
       end
     else write (nl ++ "None found.")
   else if header =? "Duplicates" then
     if Nat.ltb 1 numline then
       match (l <- collect_hashes (fst r) ;;
              match snd r with
              | Some e => Raise e
              | None => remove_first "Checksum" (distinct l)
              end) with
       | Raise e => raise e
       | Ok hash_list => for_each hash_list (duplicates_table r)
       end
     else write (nl ++ "None found.")
   else
     if Nat.ltb 1 numline then
       write table_open ;;;
       write (nl ++ "<tr>") ;;;
       match fst r with
       | [] => raise (match snd r with Some e => e | None => StopIteration end)
       | row1 :: rest =>
           for_each row1 (fun column =>
             write (nl ++ "<td><strong>" ++ column ++ "</strong></td>")) ;;;
           write (nl ++ "</tr>") ;;;
           for_rows (rest, snd r) write_row ;;;
           write (nl ++ "</table>")
       end
     else write (nl ++ "None found.")) ;;;
  write (nl ++ "<p>(<a href=" ++ dq ++ "#top" ++ dq ++ ">Return to top</a>)</p>").

(** *** [generate_reports] *)

Inductive section : Type :=
| Formats | Versions | Mimetypes | Years
| Unidentified | Warnings | Errors | Duplicates.

Definition title (s : section) : string :=
  match s with
  | Formats => "File formats"
  | Versions => "File formats and versions"
  | Mimetypes => "MIME types"
  | Years => "Last modified dates by year"
  | Unidentified => "Unidentified"
  | Warnings => "Warnings"
  | Errors => "Errors"
  | Duplicates => "Duplicates"
  end.

Definition full_header (use_hash : bool) : Row :=
  if use_hash
  then ["Filename"; "Filesize"; "Date modified"; "Errors"; "Checksum";
        "Namespace"; "ID"; "Format"; "Format version"; "MIME type";
        "Basis for ID"; "Warning"]
  else ["Filename"; "Filesize"; "Date modified"; "Errors"; "Namespace";
        "ID"; "Format"; "Format version"; "MIME type"; "Basis for ID"; "Warning"].

Definition csv_header (use_hash : bool) (s : section) : Row :=
  match s with
  | Formats => ["Format"; "ID"; "Count"]
  | Versions => ["Format"; "ID"; "Version"; "Count"]
  | Mimetypes => ["MIME type"; "Count"]
  | Years => ["Year Last Modified"; "Count"]
  | _ => full_header use_hash
  end.

Section Reports.
Variable pick : list Row -> Row.

(** The rows the query of a section returns. *)
Definition query (use_hash : bool) (s : section) (t : Table) : list Row :=
  match s with
  | Formats => map counted_row (formats_sql pick use_hash t)
  | Versions => map counted_row (versions_sql pick use_hash t)
  | Mimetypes => map counted_row (mimetypes_sql pick use_hash t)
  | Years => map counted_row (years_sql pick t)
  | Unidentified => unidentified_sql use_hash t
  | Warnings => warnings_sql use_hash t
  | Errors => errors_sql t
  | Duplicates => duplicates_sql t
  end.

(** The csv file of a section. *)
Definition csv_file (use_hash : bool) (s : section) (t : Table) : string :=
  sqlite_to_csv (csv_header use_hash s) (query use_hash s t).

(** The part of the report written for a section. *)
Definition section_html (use_hash : bool) (s : section) (t : Table) : writes :=
  write_html (title s) (csv_file use_hash s t) ",".

(** The sections of a run, in the order they are written. *)
Definition sections (showwarnings use_hash : bool) : list section :=
  ([Formats; Versions; Mimetypes; Years; Unidentified]
     ++ (if showwarnings then [Warnings] else [])
     ++ [Errors]
     ++ (if use_hash then [Duplicates] else []))%list.

Definition generate_reports (showwarnings use_hash : bool) (t : Table) : writes :=
  for_each (sections showwarnings use_hash) (fun s => section_html use_hash s t).
End Reports.

End Html.

(** ** The duplicate groups of the specification

    These definitions follow the words of the specification, not the
    program: a record belongs to a duplicate group when it is a non-empty
    file that shares its hash with another record of a different filename,
    and a hash value stands for a group when at least two differently
    named records that belong to a group have it.  They are what
    [Sql.distinct_dupes] and [Sql.all_dupes] are compared with. *)

Module DuplicateGroup.
Import Sql.

(** The record [r] is a non-empty file and shares its hash with a record
    of the table that has another filename. *)
Definition belongs (t : Table) (r : Row) : bool :=
  negb (filesize r =? "0")
  && existsb (fun r' => (hash r' =? hash r) && negb (filename r' =? filename r)) t.

(** The members of the group of hash [h]. *)
Definition members (t : Table) (h : string) : list Row :=
  filter (fun r => belongs t r && (hash r =? h)) t.

(** Two of the rows differ in their filename. *)
Definition differently_named (l : list Row) : bool :=
  existsb (fun r1 => existsb (fun r2 => negb (filename r1 =? filename r2)) l) l.

(** [h] has at least two differently-named members. *)
Definition is_group (t : Table) (h : string) : bool :=
  differently_named (members t h).

(** Number of distinct hash values with at least two differently-named
    members. *)
Definition distinct_count (t : Table) : nat :=
  List.length (distinct (filter (is_group t) (map hash t))).

(** Number of records in any such group. *)
Definition total_count (t : Table) : nat :=
  List.length (filter (fun r => belongs t r && is_group t (hash r)) t).

(** Every non-empty file that shares its hash with a record of another
    filename shares it with a non-empty file of another filename: no file
    has empty files for its only partners. *)
Definition partners_nonempty (t : Table) : bool :=
  forallb
    (fun r =>
       negb (belongs t r)
       || existsb (fun r' => negb (filesize r' =? "0") && (hash r' =? hash r)
                             && negb (filename r =? filename r')) t)
    t.

End DuplicateGroup.

(** ** Grouping by format and identifier

    The report table of the specification: [File formats] grouped by the
    pair (format, id), [File formats and versions] by the triple (format,
    id, version).  These follow the specification, to be compared with
    [Sql.formats_sql] and [Sql.versions_sql]. *)

Module SpecReports.
Import Sql.

Definition formats_by_format_id (pick : list Row -> Row) (use_hash : bool)
  : Table -> list counted :=
  select_count pick
    (fun r => [format use_hash r; id use_hash r])
    (fun r => [format use_hash r; id use_hash r]).

Definition versions_by_format_id_version (pick : list Row -> Row) (use_hash : bool)
  : Table -> list counted :=
  select_count pick
    (fun r => [format use_hash r; id use_hash r; version use_hash r])
    (fun r => [format use_hash r; id use_hash r; version use_hash r]).

End SpecReports.

(** ** Sample data *)

Module Sample.
Import Sql.

(** A row of a run with hashing: twelve columns. *)
Definition row (name size date h ident fmt vers : string) : Row :=
  [name; size; date; EmptyString; h; "pronom"; ident; fmt; vers;
   "application/pdf"; "extension match pdf"; EmptyString].

(** The rows of the duplicate example of the specification. *)
Definition example_row (name size h : string) : Row :=
  row name size "2017-03-01T10:00:00Z" h "fmt/18"
      "Acrobat PDF 1.4 - Portable Document Format" "1.4".

Definition duplicate_example : Table :=
  [example_row "A" "10" "H1"; example_row "B" "10" "H1";
   example_row "C" "0" "H1"; example_row "D" "5" "H2"].

(** The header Siegfried writes when it hashes with md5. *)
Definition siegfried_header : Row :=
  ["filename"; "filesize"; "modified"; "errors"; "md5"; "namespace"; "id";
   "format"; "version"; "mime"; "basis"; "warning"].

(** The first row of a group. *)
Definition first_row (g : list Row) : Row := hd [] g.

(** A file with three versions of one format and a file of another. *)
Definition jpeg_rows : Table :=
  [row "a.jpg" "100" "2017-03-01" "H1" "fmt/43" "JPEG File Interchange Format" "1.01";
   row "b.jpg" "200" "2017-03-02" "H2" "fmt/44" "JPEG File Interchange Format" "1.02";
   row "c.jpg" "300" "2017-03-03" "H3" "fmt/44" "JPEG File Interchange Format" "1.02";
   row "d.pdf" "400" "2017-03-04" "H4" "fmt/18" "Acrobat PDF 1.4" "1.4"].

(** A row with the given value of [modified]. *)
Definition dated (name date : string) : Row :=
  row name "10" date name "fmt/18" "Acrobat PDF 1.4" "1.4".

(** Two dates for which the order of the strings and the order of the
    years differ. *)
Definition short_years : Table := [dated "a.pdf" "999"; dated "b.pdf" "1000"].

(** A dated file and a file without date. *)
Definition one_undated : Table :=
  [dated "a.pdf" "2017-03-01T10:00:00Z"; dated "b.pdf" EmptyString].

(** Two non-empty files whose hash column holds the word that heads the
    column in the csv reports. *)
Definition checksum_rows : Table :=
  [row "a.pdf" "10" "2017-03-01" "Checksum" "fmt/18" "Acrobat PDF 1.4" "1.4";
   row "b.pdf" "10" "2017-03-02" "Checksum" "fmt/18" "Acrobat PDF 1.4" "1.4"].

(** Files without date only. *)
Definition all_undated : Table :=
  [dated "a.pdf" EmptyString; dated "b.pdf" EmptyString].

End Sample.

(** ** The commands the program runs ([run_siegfried], [main])

    The commands are given to a shell or to [subprocess]: what is embedded
    is the text of the command, or its list of arguments. *)

Module Command.
Import Str.

(** [hash] is the value of [--hash], [None] when the option is not
    given. *)
Definition hash_type (hash : option string) : string :=
  match hash with
  | None => "md5"
  | Some h =>
      if h =? "sha1" then "sha1"
      else if h =? "sha256" then "sha256"
      else if h =? "sha512" then "sha512"
      else "md5"
  end.

(** [use_hash], as [main] sets it. *)
Definition use_hash (hash : option string) : bool :=
  match hash with
  | Some h => negb (h =? "none")
  | None => true
  end.

(** The command [run_siegfried] runs and returns. *)
Definition run_siegfried (hash : option string) (scanarchives throttle : bool)
    (use_hash : bool) (source_dir sf_file : string) : string :=
  let sf_command :=
    if use_hash
    then "sf -csv -hash " ++ hash_type hash ++ " " ++ dq ++ source_dir ++ dq
           ++ " > " ++ dq ++ sf_file ++ dq
    else "sf -csv " ++ dq ++ source_dir ++ dq ++ " > " ++ dq ++ sf_file ++ dq in
  let sf_command :=
    if scanarchives then replace "sf -csv" "sf -z -csv" sf_command else sf_command in
  if throttle then replace "-csv -hash" "-csv -throttle 10ms -hash" sf_command
  else sf_command.

(** [l.insert(i, x)] *)
Definition insert {A : Type} (i : nat) (x : A) (l : list A) : list A :=
  (firstn i l ++ x :: skipn i l)%list.

(** [if value: l.insert(2, flag); l.insert(3, value)] for an option of
    the command line that takes a value: [None] when it is not given, and
    the empty string counts as false. *)
Definition insert_option (flag : string) (value : option string) (l : list string)
  : list string :=
  match value with
  | None => l
  | Some v => if is_empty v then l else insert 3 v (insert 2 flag l)
  end.

(** The arguments of [tsk_recover] for a disk image that is not an HFS
    one. *)
Definition carvefiles (allocated : bool)
    (tsk_fstype tsk_imgtype tsk_sector_offset : option string)
    (source tempdir : string) : list string :=
  let l := ["tsk_recover"; if allocated then "-a" else "-e"; source; tempdir] in
  let l := insert_option "-f" tsk_fstype l in
  let l := insert_option "-i" tsk_imgtype l in
  insert_option "-o" tsk_sector_offset l.

End Command.

(** ** The whole report ([get_stats], [close_html], [process_content],
    [main])

    The report is first written to a temporary file; when all is written
    the file is read again and copied with the PRONOM links. *)

Module Report.
Import Str.
Import Sql.
Import Csv.
Import Html.

(** [str(n)] for an integer. *)
Definition str_of_Z (z : Z) : string :=
  DecimalString.NilEmpty.string_of_int (Z.to_int z).

(** What a run is given besides the Siegfried file: the arguments of the
    command line and what the program reads from its surroundings. *)
Record run : Type := {
  basename : string;
  source : string;
  brunnhilde_version : string;
  siegfried_version : string;
  scan_started : string;
  size : string;                  (* [convert_size(size_bytes)] *)
  virus_report : option string;   (* the virus log; [None] with [--noclam] *)
  hash : option string;
  scanarchives : bool;
  throttle : bool;
  showwarnings : bool;
  bulkextractor : bool
}.

Definition toc_link (header : string) : string :=
  nl ++ "<p><a href=" ++ dq ++ "#" ++ header ++ dq ++ ">" ++ header ++ "</a></p>".

Definition anchor (header : string) : string :=
  nl ++ "<a name=" ++ dq ++ header ++ dq ++ "></a>".

Section Writing.
Context {fc : FloatConv}.
Variable pick : list Row -> Row.
Variable r : run.

(** The links to the detailed reports that end what [get_stats]
    writes. *)
Definition contents (use_hash : bool) : writes :=
  write (toc_link "File formats") ;;;
  write (toc_link "File formats and versions") ;;;
  write (toc_link "MIME types") ;;;
  write (toc_link "Last modified dates by year") ;;;
  write (toc_link "Unidentified") ;;;
  (if showwarnings r then write (toc_link "Warnings") else skip) ;;;
  write (toc_link "Errors") ;;;
  (if use_hash then write (toc_link "Duplicates") else skip) ;;;
  (if bulkextractor r then write (toc_link PII) else skip).

(** The part of [get_stats] that writes: [yr] and [dr] are the ranges of
    the years and of the dates. *)
Definition get_stats_html (sf_command : string) (use_hash : bool) (t : Table)
    (yr dr : string * string) : writes :=
  write "<!DOCTYPE html>" ;;;
  write (nl ++ "<html lang=" ++ dq ++ "en" ++ dq ++ ">") ;;;
  write (nl ++ "<head>") ;;;
  write (nl ++ "<title>Brunnhilde report for: " ++ basename r ++ "</title>") ;;;
  write (nl ++ "<meta http-equiv=" ++ dq ++ "Content-Type" ++ dq ++ " content="
            ++ dq ++ "text/html; charset=utf-8" ++ dq ++ ">") ;;;
  write (nl ++ "<link rel=" ++ dq ++ "stylesheet" ++ dq ++ " href=" ++ dq
            ++ "https://maxcdn.bootstrapcdn.com/bootstrap/3.3.7/css/bootstrap.min.css"
            ++ dq ++ " integrity=" ++ dq
            ++ "sha384-BVYiiSIFeK1dGmJRAkycuHAHRg32OmUcww7on3RYdg4Va+PmSTsz/K68vbdEjh4u"
            ++ dq ++ " crossorigin=" ++ dq ++ "anonymous" ++ dq ++ ">") ;;;
  write (nl ++ "</head>") ;;;
  write (nl ++ "<body style=" ++ dq ++ "margin:5px" ++ dq ++ ">") ;;;
  write (nl ++ "<h1>Brunnhilde HTML report</h1>") ;;;
  write (nl ++ "<h3>Input source (directory or disk image)</h3>") ;;;
  write (nl ++ "<p>" ++ source r ++ "</p>") ;;;
  write (nl ++ "<h3>Accession/Identifier</h3>") ;;;
  write (nl ++ "<p>" ++ basename r ++ "</p>") ;;;
  write (nl ++ "<h2>Provenance information</h2>") ;;;
  write (nl ++ "<h3>Brunnhilde version</h3>") ;;;
  write (nl ++ "<p>" ++ brunnhilde_version r ++ "</p>") ;;;
  write (nl ++ "<h3>Siegfried version</h3>") ;;;
  write (nl ++ "<p>" ++ siegfried_version r ++ "</p>") ;;;
  write (nl ++ "<h3>Siegfried command</h3>") ;;;
  write (nl ++ "<p>" ++ sf_command ++ "</p>") ;;;
  write (nl ++ "<h3>Time of scan</h3>") ;;;
  write (nl ++ "<p>" ++ scan_started r ++ "</p>") ;;;
  write (nl ++ "<h2>Aggregate stats</h2>") ;;;
  write (nl ++ "<h3>Overview</h3>") ;;;
  write (nl ++ "<p>Total files: " ++ str_of_nat (num_files t) ++ "</p>") ;;;
  write (nl ++ "<p>Total size: " ++ size r ++ "</p>") ;;;
  write (nl ++ "<p>Years (last modified): " ++ fst yr ++ " - " ++ snd yr ++ "</p>") ;;;
  write (nl ++ "<p>Earliest date: " ++ fst dr ++ "</p>") ;;;
  write (nl ++ "<p>Latest date: " ++ snd dr ++ "</p>") ;;;
  (if use_hash then
     write (nl ++ "<h3>File contents*</h3>") ;;;
     write (nl ++ "<p>Distinct files: " ++ str_of_nat (distinct_files t) ++ "</p>") ;;;
     write (nl ++ "<p>Distinct files that have duplicates: "
               ++ str_of_nat (distinct_dupes t) ++ "</p>") ;;;
     write (nl ++ "<p>Duplicate copies of distinct files: "
               ++ str_of_Z (duplicate_copies t) ++ "</p>")
   else write (nl ++ "<h3>File contents</h3>")) ;;;
  write (nl ++ "<p>Empty files: " ++ str_of_nat (empty_files t) ++ "</p>") ;;;
  (if use_hash then
     write (nl ++ "<p>*<em>Calculated by hash value. Empty files are not counted in first three categories. Total files = distinct files + duplicate copies + empty files.</em></p>")
   else skip) ;;;
  write (nl ++ "<h3>Format identification</h3>") ;;;
  write (nl ++ "<p>Identified file formats: " ++ str_of_nat (num_formats use_hash t)
            ++ "</p>") ;;;
  write (nl ++ "<p>Unidentified files: " ++ str_of_nat (unidentified_files use_hash t)
            ++ "</p>") ;;;
  write (nl ++ "<p>Siegfried warnings: " ++ str_of_nat (num_warnings use_hash t)
            ++ "</p>") ;;;
  write (nl ++ "<h3>Errors</h3>") ;;;
  write (nl ++ "<p>Siegfried errors: " ++ str_of_nat (num_errors t) ++ "</p>") ;;;
  write (nl ++ "<h2>Virus scan report</h2>") ;;;
  (match virus_report r with
   | None => write (nl ++ "<p>Virus scan skipped.</p>")
   | Some log => write (nl ++ "<p>" ++ log ++ "</p>")
   end) ;;;
  write (nl ++ "<h2>Detailed reports</h2>") ;;;
  contents use_hash.

(** [get_stats]: the statistics are all computed before the first write. *)
Definition get_stats (sf_command : string) (use_hash : bool) (t : Table) : writes :=
  match Stats.year_range t with
  | Raise e => raise e
  | Ok yr =>
      match Stats.date_range t with
      | Raise e => raise e
      | Ok dr => get_stats_html sf_command use_hash t yr dr
      end
  end.

Definition close_html : writes :=
  write (nl ++ "</body>") ;;; write (nl ++ "</html>").

(** [process_content]: [sf_file] is the path of the Siegfried file,
    [text] what Siegfried wrote to it, [db] the table the store holds
    before the run, if any.  Without a table the first query raises. *)
Definition process_content (source_dir sf_file : string) (use_hash : bool)
    (db : option Table) (text : string) : writes :=
  let sf_command :=
    Command.run_siegfried (hash r) (scanarchives r) (throttle r) use_hash
      source_dir sf_file in
  match Importer.import_file use_hash db text with
  | Raise e => raise e
  | Ok None => raise OperationalError
  | Ok (Some t) =>
      get_stats sf_command use_hash t ;;;
      generate_reports pick (showwarnings r) use_hash t ;;;
      close_html
  end.

(** What [main] writes to the temporary file; [pii] is the text of the
    file of bulk_extractor. *)
Definition temp_html (source_dir sf_file : string) (db : option Table)
    (text pii : string) : writes :=
  process_content source_dir sf_file (Command.use_hash (hash r)) db text ;;;
  (if bulkextractor r then write_html PII pii "009" else skip).

(** The report: the lines of the temporary file, rewritten.  An exception
    ends the run before the report is made. *)
Definition main (source_dir sf_file : string) (db : option Table)
    (text pii : string) : result string :=
  let w := temp_html source_dir sf_file db text pii in
  match snd w with
  | Some e => Raise e
  | None => Ok (cat (Pronom.write_pronom_links (lines_universal (text_of w))))
  end.

End Writing.

End Report.

(** ** The lines of a text file

    What the properties of the readers say of a line. *)

Module Lines.
Import Str.
Import Csv.

(** A line as a file opened without [newline] hands it out: no carriage
    return, and no line feed but at its end. *)
Definition no_newline (s : string) : bool := negb (any_char is_newline s).

Inductive line_ok : string -> Prop :=
| line_open (body : string) : no_newline body = true -> line_ok body
| line_closed (body : string) : no_newline body = true -> line_ok (body ++ chr LF).

End Lines.

(** ** A sample run *)

Module SampleRun.
Import Str.

(** A run with all the sections: warnings shown, the default hash,
    bulk_extractor run and the virus scan skipped. *)
Definition run : Report.run :=
  {| Report.basename := "acc1";
     Report.source := "/data/acc1";
     Report.brunnhilde_version := "brunnhilde 1.6.0";
     Report.siegfried_version := "siegfried 1.7.3";
     Report.scan_started := "2017-03-02 09:00:00";
     Report.size := "25 bytes";
     Report.virus_report := None;
     Report.hash := None;
     Report.scanarchives := false;
     Report.throttle := false;
     Report.showwarnings := true;
     Report.bulkextractor := true |}.

(** The file Siegfried writes for the files of the duplicate example. *)
Definition siegfried_csv : string :=
  Csv.writerows (Sample.siegfried_header :: Sample.duplicate_example).

(** A file of bulk_extractor: five lines of comments and one finding. *)
Definition pii : string :=
  "# BANNER FILE NOT PROVIDED" ++ nl
  ++ "# BULK_EXTRACTOR-Version: 1.5.5" ++ nl
  ++ "# Feature-Recorder: pii" ++ nl
  ++ "# Filename: /data/acc1" ++ nl
  ++ "# Feature-File-Version: 1.1" ++ nl
  ++ "/data/acc1/A" ++ String "009" ("555-12-3456" ++ String "009" ("ssn 555-12-3456" ++ nl)).

End SampleRun.

(** ** Running the statistics

    A conversion that reads the numerals of at most four digits and refuses
    every other string: on those numerals and on the empty string it does
    what Python's [float] does, which is all the laws of [FloatConv] ask. *)

Definition numeral_float (s : string) : option nat :=
  if Numeral.numeral s then Some (Numeral.value s) else None.

#[export] Instance year_float : FloatConv.
Proof.
  refine {| F := nat; py_float := numeral_float; flt := Nat.ltb |}.
  - reflexivity.
  - intros s H. unfold numeral_float. rewrite H. discriminate.
  - intros s t x y Hs Ht. unfold numeral_float. rewrite Hs, Ht.
    intros Hx Hy. injection Hx as <-. injection Hy as <-. reflexivity.
Defined.

(* ================================================================== *)
(** * Part II: the properties                                          *)
(* ================================================================== *)

(** ** Lists without repetition *)

Section Distinct.
Import Sql.
Context {A : Type} (eqb : A -> A -> bool).
Hypothesis eqb_spec : forall x y, eqb x y = true <-> x = y.

Lemma distinct_by_In (l : list A) (x : A) :
  In x (distinct_by eqb l) <-> In x l.
Proof.
  induction l as [|a l IH]; simpl; [tauto|].
  rewrite filter_In, IH.
  destruct (eqb x a) eqn:E.
  - apply eqb_spec in E. subst. simpl. intuition congruence.
  - assert (a <> x) by (intros ->; rewrite (proj2 (eqb_spec x x) eq_refl) in E; discriminate).
    simpl. intuition congruence.
Qed.

Lemma distinct_by_NoDup (l : list A) : NoDup (distinct_by eqb l).
Proof.
  induction l as [|a l IH]; simpl; constructor.
  - rewrite filter_In. intros [_ H].
    rewrite (proj2 (eqb_spec a a) eq_refl) in H. discriminate.
  - apply NoDup_filter, IH.
Qed.

Lemma distinct_by_nil (l : list A) : distinct_by eqb l = [] <-> l = [].
Proof. destruct l; simpl; split; intros; congruence. Qed.

End Distinct.

(** ** The PRONOM link rewriter *)

Section PronomFacts.
Import Str Pronom.

(** One line is written for every line read, in the same order. *)
Lemma write_pronom_links_length (in_file : list string) :
  List.length (write_pronom_links in_file) = List.length in_file.
Proof. unfold write_pronom_links. apply length_map. Qed.

Lemma write_pronom_links_nth (in_file : list string) (n : nat) :
  nth n (write_pronom_links in_file) EmptyString
  = if Nat.ltb n (List.length in_file)
    then rewrite_line (nth n in_file EmptyString) else EmptyString.
Proof.
  unfold write_pronom_links.
  destruct (Nat.ltb_spec n (List.length in_file)) as [H|H].
  - rewrite (nth_indep _ EmptyString (rewrite_line EmptyString))
      by (rewrite length_map; exact H).
    apply map_nth.
  - apply nth_overflow. rewrite length_map. exact H.
Qed.

(** A line in which the pattern matches nowhere is copied as it is. *)
Lemma rewrite_line_no_match (line : string) :
  findall line = [] -> rewrite_line line = line.
Proof. unfold rewrite_line. intros ->. reflexivity. Qed.

(** Two different identifiers on a line, neither a part of the other, are
    each replaced by their link. *)
Example rewrite_line_two_identifiers :
  rewrite_line ("see fmt/101 and x-fmt/102." ++ nl)
  = "see " ++ pronom_link "fmt/101" ++ " and " ++ pronom_link "x-fmt/102" ++ "." ++ nl.
Proof. vm_compute. reflexivity. Qed.

(** C1, on the line [fmt/101 fmt/101]: the pattern matches twice, so the
    loop replaces the identifier twice.  The first round already turns both
    occurrences into links; the second round replaces the identifier inside
    those links, in the address and in the label alike.  What is written is
    a link whose address and label are themselves links, and not the two
    well-formed links the documentation of the function promises. *)
Theorem write_pronom_links_repeated_identifier :
  let line := "fmt/101 fmt/101" ++ nl in
  let link := pronom_link "fmt/101" in
  findall line = ["fmt/101"; "fmt/101"]
  /\ write_pronom_links [line]
     = [pronom_link link ++ " " ++ pronom_link link ++ nl]
  /\ write_pronom_links [line] <> [link ++ " " ++ link ++ nl].
Proof.
  cbv zeta. split; [|split].
  - vm_compute. reflexivity.
  - vm_compute. reflexivity.
  - intros H. apply (f_equal (map String.length)) in H.
    vm_compute in H. discriminate H.
Qed.

(** The same happens when one identifier is the beginning of another. *)
Example rewrite_line_prefix_identifier :
  rewrite_line "fmt/1 fmt/10"
  <> pronom_link "fmt/1" ++ " " ++ pronom_link "fmt/10".
Proof.
  intros H. apply (f_equal String.length) in H. vm_compute in H. discriminate H.
Qed.

End PronomFacts.

(** ** Duplicate statistics *)

Section DuplicateFacts.
Import Sql Sample.

Lemma string_neqb (a b : string) : negb (a =? b) = true <-> a <> b.
Proof. rewrite negb_true_iff. apply String.eqb_neq. Qed.

Lemma distinct_In (l : list string) (x : string) : In x (distinct l) <-> In x l.
Proof. apply distinct_by_In, String.eqb_eq. Qed.

Lemma distinct_NoDup (l : list string) : NoDup (distinct l).
Proof. apply distinct_by_NoDup, String.eqb_eq. Qed.

(** The [WHERE] clause, read as a proposition. *)
Lemma is_duplicate_spec (t : Table) (r : Row) :
  is_duplicate t r = true <->
  filesize r <> "0" /\
  exists r', In r' t /\ hash r' = hash r /\ filename r <> filename r'.
Proof.
  unfold is_duplicate.
  rewrite andb_true_iff, string_neqb, existsb_exists.
  split.
  - intros [(r' & Hin & H) Hs]. apply andb_true_iff in H as [Hh Hn].
    apply String.eqb_eq in Hh. apply string_neqb in Hn. eauto.
  - intros [Hs (r' & Hin & Hh & Hn)]. split; [|exact Hs].
    exists r'. split; [exact Hin|].
    apply andb_true_iff. split; [apply String.eqb_eq | apply string_neqb]; assumption.
Qed.

Lemma duplicates_In (t : Table) (r : Row) :
  In r (duplicates t) <->
  In r t /\ filesize r <> "0" /\
  exists r', In r' t /\ hash r' = hash r /\ filename r <> filename r'.
Proof. unfold duplicates. rewrite filter_In, is_duplicate_spec. tauto. Qed.

(** A count of distinct values is never above the count of the rows. *)
Lemma distinct_length_le (l : list string) :
  List.length (distinct l) <= List.length l.
Proof.
  unfold distinct. induction l as [|a l IH]; simpl; [lia|].
  pose proof (filter_length_le (fun y => negb (y =? a)) (distinct_by String.eqb l)).
  lia.
Qed.

Lemma distinct_dupes_le (t : Table) : distinct_dupes t <= all_dupes t.
Proof.
  unfold distinct_dupes, all_dupes.
  rewrite <- (length_map hash (duplicates t)). apply distinct_length_le.
Qed.

Lemma belongs_spec (t : Table) (r : Row) :
  DuplicateGroup.belongs t r = true <->
  filesize r <> "0" /\
  exists r', In r' t /\ hash r' = hash r /\ filename r <> filename r'.
Proof.
  unfold DuplicateGroup.belongs.
  rewrite andb_true_iff, string_neqb, existsb_exists.
  split.
  - intros [Hs (r' & Hin & H)]. apply andb_true_iff in H as [Hh Hn].
    apply String.eqb_eq in Hh. apply string_neqb in Hn. split; [exact Hs|].
    exists r'. repeat split; auto.
  - intros [Hs (r' & Hin & Hh & Hn)]. split; [exact Hs|].
    exists r'. split; [exact Hin|].
    apply andb_true_iff. split; [apply String.eqb_eq | apply string_neqb]; auto.
Qed.

Lemma belongs_is_duplicate (t : Table) (r : Row) :
  DuplicateGroup.belongs t r = is_duplicate t r.
Proof. apply eq_true_iff_eq. rewrite belongs_spec, is_duplicate_spec. tauto. Qed.

(** Lists without repetition that hold the same items have the same
    length. *)
Lemma distinct_length_ext (l1 l2 : list string) :
  (forall x, In x l1 <-> In x l2) ->
  List.length (distinct l1) = List.length (distinct l2).
Proof.
  intros H. apply Permutation_length, NoDup_Permutation.
  - apply distinct_NoDup.
  - apply distinct_NoDup.
  - intros x. rewrite !distinct_In. apply H.
Qed.

(** Where no file has empty files for its only partners, the program
    counts the duplicate groups of the specification. *)
Lemma dupes_are_groups (t : Table) :
  DuplicateGroup.partners_nonempty t = true ->
  distinct_dupes t = DuplicateGroup.distinct_count t
  /\ all_dupes t = DuplicateGroup.total_count t.
Proof.
  intros Hsep.
  assert (Hpart : forall r, In r t -> is_duplicate t r = true ->
            exists r', In r' t /\ is_duplicate t r' = true
                       /\ hash r' = hash r /\ filename r <> filename r').
  { intros r Hr D. unfold DuplicateGroup.partners_nonempty in Hsep.
    rewrite forallb_forall in Hsep. specialize (Hsep r Hr).
    rewrite belongs_is_duplicate, D in Hsep. simpl in Hsep.
    apply existsb_exists in Hsep as (r' & Hr' & P).
    apply andb_true_iff in P as [P Hn]. apply andb_true_iff in P as [Hs Hh].
    apply string_neqb in Hs, Hn. apply String.eqb_eq in Hh.
    exists r'. repeat split; auto.
    apply is_duplicate_spec. split; [exact Hs|].
    exists r. repeat split; auto. }
  assert (Hgroup : forall h, DuplicateGroup.is_group t h = true <->
            exists r1 r2, In r1 t /\ In r2 t
                          /\ is_duplicate t r1 = true /\ is_duplicate t r2 = true
                          /\ hash r1 = h /\ hash r2 = h /\ filename r1 <> filename r2).
  { intros h. unfold DuplicateGroup.is_group, DuplicateGroup.differently_named,
      DuplicateGroup.members.
    rewrite existsb_exists. split.
    - intros (r1 & H1 & H). apply existsb_exists in H as (r2 & H2 & Hn).
      apply filter_In in H1 as [I1 P1]. apply filter_In in H2 as [I2 P2].
      apply andb_true_iff in P1 as [S1 E1]. apply andb_true_iff in P2 as [S2 E2].
      rewrite belongs_is_duplicate in S1, S2.
      exists r1, r2. rewrite string_neqb in Hn.
      apply String.eqb_eq in E1, E2. tauto.
    - intros (r1 & r2 & I1 & I2 & S1 & S2 & E1 & E2 & Hn).
      assert (M : forall r, In r t -> is_duplicate t r = true -> hash r = h ->
                  In r (filter (fun r => DuplicateGroup.belongs t r && (hash r =? h)) t)).
      { intros r I S E. apply filter_In. split; [exact I|].
        rewrite belongs_is_duplicate.
        apply andb_true_iff. split; [exact S | apply String.eqb_eq; exact E]. }
      exists r1. split; [auto|]. apply existsb_exists. exists r2. split; [auto|].
      apply string_neqb. exact Hn. }
  assert (Hdup : forall r, In r t -> is_duplicate t r = true ->
            DuplicateGroup.is_group t (hash r) = true).
  { intros r Hr D. apply Hgroup.
    destruct (Hpart r Hr D) as (r' & Hr' & D' & Hh & Hn).
    exists r, r'. repeat split; auto. }
  split.
  - unfold distinct_dupes, DuplicateGroup.distinct_count.
    apply distinct_length_ext. intros h.
    rewrite filter_In, !in_map_iff. split.
    + intros (r & <- & Hr). apply filter_In in Hr as [Hr D].
      split; [exists r; auto|]. apply Hdup; assumption.
    + intros [_ G]. apply Hgroup in G as (r1 & _ & I1 & _ & D1 & _ & E1 & _).
      exists r1. split; [exact E1|]. apply filter_In. split; assumption.
  - unfold all_dupes, duplicates, DuplicateGroup.total_count. f_equal.
    apply filter_ext_in. intros r Hr. rewrite belongs_is_duplicate.
    destruct (is_duplicate t r) eqn:D; [|reflexivity].
    rewrite (Hdup r Hr D). reflexivity.
Qed.

(** C2, as the program has it.  In every table a row is counted as a
    duplicate exactly when it is a non-empty file and some row of the
    table has its hash and another filename, and an empty file is never
    counted.  Where no file has empty files for its only partners, the
    counts are those of the duplicate groups of the specification: the
    count of distinct duplicates is the number of hash values with at least
    two differently named members, the count of all duplicates the number
    of records in these groups, the count of copies their difference. *)
Theorem duplicate_statistics (t : Table) :
  DuplicateGroup.partners_nonempty t = true ->
  (forall r, In r (duplicates t) <->
     In r t /\ filesize r <> "0" /\
     exists r', In r' t /\ hash r' = hash r /\ filename r <> filename r')
  /\ distinct_dupes t = DuplicateGroup.distinct_count t
  /\ all_dupes t = DuplicateGroup.total_count t
  /\ duplicate_copies t
     = (Z.of_nat (DuplicateGroup.total_count t)
        - Z.of_nat (DuplicateGroup.distinct_count t))%Z
  /\ (0 <= duplicate_copies t)%Z
  /\ (forall r, filesize r = "0" -> ~ In r (duplicates t)).
Proof.
  intros Hsep. destruct (dupes_are_groups t Hsep) as [Hd Ha].
  split; [apply duplicates_In|].
  split; [exact Hd|]. split; [exact Ha|].
  split; [unfold duplicate_copies; rewrite Hd, Ha; reflexivity|].
  split.
  { unfold duplicate_copies. pose proof (distinct_dupes_le t). lia. }
  intros r Hz Hin. apply duplicates_In in Hin. tauto.
Qed.

(** The four rows of the example: the counts are 1, 2 and 1, and the empty
    file [C] is not counted although it has the hash of [A] and [B]. *)
Lemma duplicate_statistics_witness :
  DuplicateGroup.partners_nonempty duplicate_example = true
  /\ distinct_dupes duplicate_example = 1
  /\ all_dupes duplicate_example = 2
  /\ duplicate_copies duplicate_example = 1%Z
  /\ ~ In (example_row "C" "0" "H1") (duplicates duplicate_example).
Proof.
  split; [reflexivity|].
  destruct (duplicate_statistics duplicate_example eq_refl)
    as (_ & Hd & Ha & Hc & _ & Hz).
  split; [rewrite Hd; reflexivity|].
  split; [rewrite Ha; reflexivity|].
  split; [rewrite Hc; reflexivity|].
  apply Hz. reflexivity.
Defined.

(** C2 does not hold as stated: it fails on a table in which a non-empty file
    shares its hash with an empty file only: the non-empty file belongs to
    a group and the empty file does not, so no hash has two differently
    named members and the count of such hashes is zero, yet the program
    reports one distinct file with duplicates. *)
Lemma lone_file_counted_as_duplicate :
  let t := [example_row "A" "10" "H1"; example_row "C" "0" "H1"] in
  well_formed true t
  /\ DuplicateGroup.partners_nonempty t = false
  /\ DuplicateGroup.distinct_count t = 0
  /\ DuplicateGroup.total_count t = 0
  /\ distinct_dupes t = 1
  /\ all_dupes t = 1
  /\ distinct_dupes t <> DuplicateGroup.distinct_count t.
Proof.
  cbv zeta. split.
  { repeat constructor. }
  repeat split; try (vm_compute; reflexivity).
  vm_compute. discriminate.
Qed.

End DuplicateFacts.

(** ** The importer *)

Section ImportFacts.
Import Sql Sample.

(** When the width of the header is the width of the table, every row of
    that width is added and every other row is passed over. *)
Lemma import_rows_same_width (n : nat) (rows : list Row) (t : Table) :
  import_rows n n t rows
  = Ok (t ++ filter (fun r => Nat.eqb (List.length r) n) rows)%list.
Proof.
  revert t. induction rows as [|row rows IH]; intros t; simpl.
  - rewrite app_nil_r. reflexivity.
  - destruct (Nat.eqb (List.length row) n) eqn:E.
    + unfold execute_insert. rewrite E. simpl. rewrite IH, <- app_assoc. reflexivity.
    + apply IH.
Qed.

(** When the widths differ, the first row that has the width of the header
    stops the import; without such a row the table stays empty. *)
Lemma import_rows_other_width (n rowlen : nat) (rows : list Row) :
  rowlen <> n ->
  import_rows n rowlen [] rows
  = if existsb (fun r => Nat.eqb (List.length r) rowlen) rows
    then Raise OperationalError else Ok [].
Proof.
  intros Hne. induction rows as [|row rows IH]; simpl; [reflexivity|].
  destruct (Nat.eqb (List.length row) rowlen) eqn:E; simpl.
  - unfold execute_insert. apply Nat.eqb_eq in E. rewrite E.
    apply Nat.eqb_neq in Hne. rewrite Hne. reflexivity.
  - exact IH.
Qed.

(** C4, as the program has it: for an input whose header has as many
    columns as the table the run creates (twelve with hashing, eleven
    without), the import does not raise, and the table holds, in their
    order and unchanged, exactly the rows after the header that have the
    column count of the header; the others are passed over.  So the number
    of rows in the store is the number of rows of that width. *)
Theorem import_csv_keeps_rows_of_header_width
    (use_hash : bool) (db : option Table) (header : Row) (rows : list Row) :
  List.length header = ncols use_hash ->
  let kept := filter (fun r => Nat.eqb (List.length r) (List.length header)) rows in
  import_csv use_hash db (header :: rows) = Ok (Some kept)
  /\ num_files kept
     = List.length rows
       - List.length (filter (fun r => negb (Nat.eqb (List.length r) (List.length header))) rows)
  /\ (forall r, In r kept <-> In r rows /\ List.length r = List.length header)
  /\ well_formed use_hash kept.
Proof.
  intros Hw kept. split; [|split; [|split]].
  - unfold import_csv. rewrite <- Hw, import_rows_same_width. reflexivity.
  - unfold num_files, kept.
    pose proof (filter_length (fun r => Nat.eqb (List.length r) (List.length header)) rows) as H.
    cbv beta in H. unfold Row in *. lia.
  - intros r. unfold kept. rewrite filter_In, Nat.eqb_eq. tauto.
  - unfold well_formed, kept. apply Forall_forall. intros r Hr.
    apply filter_In in Hr as [_ Hr]. apply Nat.eqb_eq in Hr. congruence.
Qed.

(** A run with hashing: the header of twelve columns, two rows of twelve
    columns and a row of two. *)
Lemma import_csv_keeps_rows_of_header_width_witness :
  List.length siegfried_header = ncols true
  /\ import_csv true None
       [siegfried_header;
        example_row "A" "10" "H1";
        ["B"; "10"];
        example_row "D" "5" "H2"]
     = Ok (Some [example_row "A" "10" "H1"; example_row "D" "5" "H2"]).
Proof.
  split; [reflexivity|].
  apply (import_csv_keeps_rows_of_header_width true None siegfried_header
           [example_row "A" "10" "H1"; ["B"; "10"]; example_row "D" "5" "H2"]).
  reflexivity.
Defined.

(** C4 does not hold as stated: it fails when the header has another width
    than the table: the one data row has the column count of the header,
    and should be in the store, but sqlite refuses the insertion and
    the import ends with that exception. *)
Lemma import_csv_raises_on_other_header_width :
  import_csv true None [["filename"; "filesize"]; ["report.pdf"; "1024"]]
  = Raise OperationalError
  /\ import_csv false None [siegfried_header; example_row "A" "10" "H1"]
     = Raise OperationalError.
Proof. split; reflexivity. Qed.

(** The same on the text of a file: the rows are parsed, the short row is
    passed over, and a null byte in a line is dropped before parsing. *)
Example import_file_example :
  Importer.import_file true None
    (Csv.writerows [siegfried_header; example_row "A" "10" "H1"; ["B"; "10"]]
     ++ String Str.NUL (Csv.writerow (example_row "D" "5" "H2")))
  = Ok (Some [example_row "A" "10" "H1"; example_row "D" "5" "H2"]).
Proof. vm_compute. reflexivity. Qed.

End ImportFacts.

(** ** Unidentified files and identified formats *)

Section IdentificationFacts.
Import Sql Sample.

Lemma filter_all {A : Type} (p : A -> bool) (l : list A) :
  (forall x, In x l -> p x = true) -> filter p l = l.
Proof.
  induction l as [|a l IH]; intros H; simpl; [reflexivity|].
  rewrite (H a (or_introl eq_refl)), IH; [reflexivity|].
  intros x Hx. apply H. right. exact Hx.
Qed.

Lemma filter_none {A : Type} (p : A -> bool) (l : list A) :
  filter p l = [] <-> forall x, In x l -> p x = false.
Proof.
  induction l as [|a l IH]; simpl; [tauto|].
  destruct (p a) eqn:E; split.
  - discriminate.
  - intros H. specialize (H a (or_introl eq_refl)). congruence.
  - intros H x [<-|Hx]; [exact E|]. apply IH; assumption.
  - intros H. apply IH. intros x Hx. apply H. right. exact Hx.
Qed.

(** The count of identified formats is zero exactly when every row has an
    empty format; the column [id] plays no part in it. *)
Lemma num_formats_zero (use_hash : bool) (t : Table) :
  num_formats use_hash t = 0 <-> forall r, In r t -> format use_hash r = EmptyString.
Proof.
  unfold num_formats. rewrite length_zero_iff_nil.
  unfold distinct. rewrite distinct_by_nil.
  split.
  - intros H r Hr. apply map_eq_nil in H.
    apply (proj1 (filter_none _ _) H) in Hr.
    apply negb_false_iff, String.eqb_eq in Hr. exact Hr.
  - intros H. replace (filter _ t) with (@nil Row); [reflexivity|].
    symmetry. apply filter_none. intros r Hr.
    apply negb_false_iff, String.eqb_eq. apply H. exact Hr.
Qed.

(** C9, as the program has it: in a table where every row has the id
    UNKNOWN, the count of unidentified files is the count of all rows; the
    count of identified formats is taken from the column [format] alone,
    so it is zero exactly when these rows have an empty format, as the rows
    Siegfried writes for unidentified files have. *)
Theorem all_unknown_statistics (use_hash : bool) (t : Table) :
  (forall r, In r t -> id use_hash r = "UNKNOWN") ->
  unidentified_files use_hash t = num_files t
  /\ (num_formats use_hash t = 0 <->
      forall r, In r t -> format use_hash r = EmptyString)
  /\ ((forall r, In r t -> id use_hash r = "UNKNOWN" -> format use_hash r = EmptyString) ->
      num_formats use_hash t = 0).
Proof.
  intros H. split; [|split].
  - unfold unidentified_files, num_files. rewrite filter_all; [reflexivity|].
    intros r Hr. apply String.eqb_eq. apply H. exact Hr.
  - apply num_formats_zero.
  - intros Hf. apply num_formats_zero. intros r Hr. apply Hf; [exact Hr|].
    apply H. exact Hr.
Qed.

(** Two unidentified files as Siegfried reports them, with an empty
    format. *)
Lemma all_unknown_statistics_witness :
  let t := [row "a.bin" "12" "2017-03-01" "H1" "UNKNOWN" EmptyString EmptyString;
            row "b.bin" "7" "2016-01-01" "H2" "UNKNOWN" EmptyString EmptyString] in
  (forall r, In r t -> id true r = "UNKNOWN")
  /\ unidentified_files true t = 2
  /\ num_formats true t = 0.
Proof.
  cbv zeta.
  assert (H : forall r,
             In r [row "a.bin" "12" "2017-03-01" "H1" "UNKNOWN" EmptyString EmptyString;
                   row "b.bin" "7" "2016-01-01" "H2" "UNKNOWN" EmptyString EmptyString] ->
             id true r = "UNKNOWN").
  { intros r [<-|[<-|[]]]; reflexivity. }
  split; [exact H|].
  destruct (all_unknown_statistics true _ H) as (H1 & _ & H3).
  split; [exact H1|].
  apply H3. intros r [<-|[<-|[]]] _; reflexivity.
Defined.

(** C9 does not hold as stated: it fails on a table whose only row has the
    id UNKNOWN and a format all the same: one identified format is
    reported. *)
Lemma unknown_id_with_format_is_counted :
  let t := [row "a.bin" "12" "2017-03-01" "H1" "UNKNOWN" "Plain Text File" EmptyString] in
  well_formed true t
  /\ (forall r, In r t -> id true r = "UNKNOWN")
  /\ unidentified_files true t = num_files t
  /\ num_formats true t = 1
  /\ num_formats true t <> 0.
Proof.
  cbv zeta. split; [repeat constructor|].
  split; [intros r [<-|[]]; reflexivity|].
  split; [reflexivity|]. split; [reflexivity|]. vm_compute. discriminate.
Qed.

End IdentificationFacts.

(** ** The counting reports *)

Section ReportFacts.
Import Sql Sample.

Lemma key_eqb_eq (k1 k2 : list string) : key_eqb k1 k2 = true <-> k1 = k2.
Proof.
  unfold key_eqb. destruct (list_eq_dec string_dec k1 k2); split; congruence.
Qed.

Lemma insert_by_perm {A : Type} (before : A -> A -> bool) (x : A) (l : list A) :
  Permutation (x :: l) (insert_by before x l).
Proof.
  induction l as [|y l IH]; simpl; [reflexivity|].
  destruct (before y x); [|reflexivity].
  rewrite perm_swap. constructor. exact IH.
Qed.

Lemma order_by_perm {A : Type} (before : A -> A -> bool) (l : list A) :
  Permutation l (order_by before l).
Proof.
  induction l as [|x l IH]; simpl; [reflexivity|].
  rewrite <- insert_by_perm. constructor. exact IH.
Qed.

Lemma insert_by_map {A B : Type} (f : A -> B) (before : B -> B -> bool) (x : A) (l : list A) :
  insert_by before (f x) (map f l)
  = map f (insert_by (fun a b => before (f a) (f b)) x l).
Proof.
  induction l as [|y l IH]; simpl; [reflexivity|].
  destruct (before (f y) (f x)); simpl; [rewrite IH|]; reflexivity.
Qed.

Lemma order_by_map {A B : Type} (f : A -> B) (before : B -> B -> bool) (l : list A) :
  order_by before (map f l) = map f (order_by (fun a b => before (f a) (f b)) l).
Proof.
  induction l as [|x l IH]; simpl; [reflexivity|].
  rewrite IH. apply insert_by_map.
Qed.

Lemma insert_by_num_desc_sorted (x : counted) (l : list counted) :
  StronglySorted count_ge l -> StronglySorted count_ge (insert_by num_desc x l).
Proof.
  induction 1 as [|y l Hs IH Hy]; simpl.
  - repeat constructor.
  - unfold num_desc at 1. destruct (Nat.ltb_spec (c_num x) (c_num y)) as [Hlt|Hge].
    + constructor; [exact IH|].
      apply Forall_forall. intros z Hz.
      apply (Permutation_in _ (Permutation_sym (insert_by_perm num_desc x l))) in Hz.
      destruct Hz as [<-|Hz].
      * unfold count_ge. lia.
      * rewrite Forall_forall in Hy. apply Hy. exact Hz.
    + constructor; [constructor; assumption|].
      constructor; [exact Hge|].
      apply Forall_forall. intros z Hz. rewrite Forall_forall in Hy.
      specialize (Hy z Hz). unfold count_ge in *. lia.
Qed.

Lemma order_by_num_desc_sorted (l : list counted) :
  StronglySorted count_ge (order_by num_desc l).
Proof.
  induction l as [|x l IH]; simpl; [constructor|].
  apply insert_by_num_desc_sorted, IH.
Qed.

Lemma Forall2_map_r {A B : Type} (P : A -> B -> Prop) (f : A -> B) (l : list A) :
  (forall x, In x l -> P x (f x)) -> Forall2 P l (map f l).
Proof.
  induction l as [|a l IH]; intros H; simpl; constructor.
  - apply H. left. reflexivity.
  - apply IH. intros x Hx. apply H. right. exact Hx.
Qed.

(** What a counting query returns: its lines are in the order of
    descending counts; there is one line for every value the key takes in
    the table, with the number of rows that have this value, and with the
    selected columns of one of these rows. *)
Lemma select_count_lines
    (pick : list Row -> Row) (sel key : Row -> list string) (t : Table) :
  (forall g, g <> [] -> In (pick g) g) ->
  StronglySorted count_ge (select_count pick sel key t)
  /\ exists ks : list (list string),
       NoDup ks
       /\ (forall k, In k ks <-> exists r, In r t /\ key r = k)
       /\ Forall2
            (fun k c =>
               c_num c = List.length (filter (fun r => key_eqb (key r) k) t)
               /\ exists r, In r t /\ key r = k /\ c_cols c = sel r)
            ks (select_count pick sel key t).
Proof.
  intros Hpick. split; [apply order_by_num_desc_sorted|].
  unfold select_count. rewrite order_by_map.
  set (f := fun k => Counted (sel (pick (filter (fun r => key_eqb (key r) k) t)))
                             (List.length (filter (fun r => key_eqb (key r) k) t))).
  set (ks := order_by (fun a b => num_desc (f a) (f b))
                      (distinct_by key_eqb (map key t))).
  assert (Hperm : Permutation (distinct_by key_eqb (map key t)) ks)
    by apply order_by_perm.
  assert (Hin : forall k, In k ks <-> exists r, In r t /\ key r = k).
  { intros k. split.
    - intros Hk. apply (Permutation_in _ (Permutation_sym Hperm)) in Hk.
      apply (proj1 (distinct_by_In key_eqb key_eqb_eq _ _)) in Hk.
      apply in_map_iff in Hk as (r & Hi & Hr). eauto.
    - intros (r & Hr & <-). apply (Permutation_in _ Hperm).
      apply (distinct_by_In key_eqb key_eqb_eq). apply in_map. exact Hr. }
  exists ks. split; [|split; [exact Hin|]].
  - apply (Permutation_NoDup Hperm). apply distinct_by_NoDup, key_eqb_eq.
  - apply Forall2_map_r. intros k Hk. split; [reflexivity|].
    apply Hin in Hk as (r0 & Hr0 & Hk0).
    assert (Hne : filter (fun r => key_eqb (key r) k) t <> []).
    { intros E. assert (X : In r0 (filter (fun r => key_eqb (key r) k) t)).
      { apply filter_In. split; [exact Hr0|]. apply key_eqb_eq. exact Hk0. }
      rewrite E in X. exact X. }
    specialize (Hpick _ Hne). apply filter_In in Hpick as [Hp1 Hp2].
    apply key_eqb_eq in Hp2.
    exists (pick (filter (fun r => key_eqb (key r) k) t)). auto.
Qed.

(** C3, as the program has it: the lines of [File formats] are in the
    order of descending counts and its groups are the formats, one line for
    every format of the table, counting the rows of this format whatever
    their id and showing the id of one of them; the lines of [File formats
    and versions] are in the order of descending counts and its groups are
    the pairs of a format and a version, with the id of one row of the
    group. *)
Theorem counting_reports_grouping
    (pick : list Row -> Row) (use_hash : bool) (t : Table) :
  (forall g, g <> [] -> In (pick g) g) ->
  (StronglySorted count_ge (formats_sql pick use_hash t)
   /\ exists fs : list (list string),
        NoDup fs
        /\ (forall k, In k fs <-> exists r, In r t /\ [format use_hash r] = k)
        /\ Forall2
             (fun k c =>
                c_num c = List.length
                            (filter (fun r => key_eqb [format use_hash r] k) t)
                /\ exists r, In r t /\ [format use_hash r] = k
                             /\ c_cols c = [format use_hash r; id use_hash r])
             fs (formats_sql pick use_hash t))
  /\ (StronglySorted count_ge (versions_sql pick use_hash t)
      /\ exists fvs : list (list string),
           NoDup fvs
           /\ (forall k, In k fvs <->
                 exists r, In r t /\ [format use_hash r; version use_hash r] = k)
           /\ Forall2
                (fun k c =>
                   c_num c = List.length
                               (filter (fun r => key_eqb [format use_hash r;
                                                          version use_hash r] k) t)
                   /\ exists r, In r t
                        /\ [format use_hash r; version use_hash r] = k
                        /\ c_cols c = [format use_hash r; id use_hash r;
                                       version use_hash r])
                fvs (versions_sql pick use_hash t)).
Proof.
  intros Hpick. split.
  - apply (select_count_lines pick
             (fun r => [format use_hash r; id use_hash r])
             (fun r => [format use_hash r]) t Hpick).
  - apply (select_count_lines pick
             (fun r => [format use_hash r; id use_hash r; version use_hash r])
             (fun r => [format use_hash r; version use_hash r]) t Hpick).
Qed.

Lemma first_row_In (g : list Row) : g <> [] -> In (first_row g) g.
Proof. destruct g; [congruence|]. intros _. left. reflexivity. Qed.

(** Three files of one format under two ids and versions, and a file of
    another format. *)
Lemma counting_reports_grouping_witness :
  (forall g, g <> [] -> In (first_row g) g)
  /\ formats_sql first_row true jpeg_rows
     = [Counted ["JPEG File Interchange Format"; "fmt/43"] 3;
        Counted ["Acrobat PDF 1.4"; "fmt/18"] 1]
  /\ StronglySorted count_ge (versions_sql first_row true jpeg_rows).
Proof.
  split; [exact first_row_In|]. split; [reflexivity|].
  exact (proj1 (proj2 (counting_reports_grouping first_row true jpeg_rows first_row_In))).
Defined.

(** C3 does not hold as stated: it fails on a table with one format under two
    ids: grouping by the pair of format and id gives two lines, the program
    gives one, which counts the rows of both ids and shows one of the ids.
    In the same way two rows of one format and version with two ids make
    one line of [File formats and versions], not two. *)
Lemma formats_report_merges_ids :
  let t := [row "a.jpg" "100" "2017-03-01" "H1" "fmt/43" "JPEG File Interchange Format" "1.01";
            row "b.jpg" "200" "2017-03-02" "H2" "fmt/44" "JPEG File Interchange Format" "1.02"] in
  let u := [row "a.zip" "100" "2017-03-01" "H1" "x-fmt/263" "ZIP Format" EmptyString;
            row "b.zip" "200" "2017-03-02" "H2" "fmt/524" "ZIP Format" EmptyString] in
  (forall pick,
      List.length (formats_sql pick true t) = 1
      /\ List.length (SpecReports.formats_by_format_id pick true t) = 2
      /\ List.length (versions_sql pick true u) = 1
      /\ List.length (SpecReports.versions_by_format_id_version pick true u) = 2)
  /\ formats_sql first_row true t
     = [Counted ["JPEG File Interchange Format"; "fmt/43"] 2]
  /\ formats_sql first_row true t <> SpecReports.formats_by_format_id first_row true t
  /\ versions_sql first_row true u
     <> SpecReports.versions_by_format_id_version first_row true u.
Proof.
  cbv zeta. split; [|split; [|split]].
  - intros pick. repeat split.
  - reflexivity.
  - intros H. apply (f_equal (@List.length counted)) in H. vm_compute in H. discriminate.
  - intros H. apply (f_equal (@List.length counted)) in H. vm_compute in H. discriminate.
Qed.

End ReportFacts.

(** ** The temporary csv files: what is written is read back *)

Section CsvFacts.
Import Str Sql Csv.

Lemma append_assoc (a b c : string) : (a ++ b) ++ c = a ++ (b ++ c).
Proof. induction a as [|x a IH]; simpl; [reflexivity|]. rewrite IH. reflexivity. Qed.

Lemma append_nil_r (a : string) : a ++ EmptyString = a.
Proof. induction a as [|x a IH]; simpl; [reflexivity|]. rewrite IH. reflexivity. Qed.

Lemma append_cons_r (a : string) (c : ascii) (b : string) :
  a ++ String c b = (a ++ chr c) ++ b.
Proof. rewrite append_assoc. reflexivity. Qed.

Lemma feed_app (delim : ascii) (p : parser) (a b : string) :
  feed delim p (a ++ b) = (p' <- feed delim p a ;; feed delim p' b).
Proof.
  revert p. induction a as [|x a IH]; intros p; simpl; [reflexivity|].
  destruct (process_char delim p (Some x)) as [p'|e]; simpl; [apply IH|reflexivity].
Qed.

(** A line that ends inside a quoted field leaves the record open. *)
Lemma rows_from_open_line (delim : ascii) (p0 : parser) (cur a : string)
    (fs : list string) (L : list string) :
  feed delim p0 cur = Ok (Parser IN_QUOTED_FIELD a fs) ->
  rows_from delim p0 (cur :: L) = rows_from delim (Parser IN_QUOTED_FIELD a fs) L.
Proof. intros H. simpl. rewrite H. reflexivity. Qed.

Lemma feed_quoted_char (p0 : parser) (cur a : string) (fs : list string) (c : ascii) :
  Ascii.eqb c DQ = false ->
  feed "," p0 cur = Ok (Parser IN_QUOTED_FIELD a fs) ->
  feed "," p0 (cur ++ chr c) = Ok (Parser IN_QUOTED_FIELD (a ++ chr c) fs).
Proof.
  intros Hc H. rewrite feed_app, H. simpl. unfold process_char. simpl.
  rewrite Hc. reflexivity.
Qed.

Lemma feed_quoted_quote (p0 : parser) (cur a : string) (fs : list string) :
  feed "," p0 cur = Ok (Parser IN_QUOTED_FIELD a fs) ->
  feed "," p0 (cur ++ String DQ (chr DQ))
  = Ok (Parser IN_QUOTED_FIELD (a ++ chr DQ) fs).
Proof. intros H. rewrite feed_app, H. reflexivity. Qed.

(** The reader on a quoted field: [cur] is the part of the current line
    that lies before the text still to be read, [p0] the parser at the
    start of that line. *)
Lemma reader_quoted_field (v : string) :
  forall (cur : string) (pend : bool) (p0 : parser) (a : string)
         (fs : list string) (T : string),
    feed "," p0 cur = Ok (Parser IN_QUOTED_FIELD a fs) ->
    rows_from "," p0
      (lines_from cur pend (double_quotes v ++ String DQ (String CR (String LF T))))
    = (let (rows, e) := rows_from "," reset (lines_from EmptyString false T) in
       ((fs ++ [(a ++ v)%string])%list :: rows, e)).
Proof.
  induction v as [|c v IH]; intros cur pend p0 a fs T H.
  - rewrite append_nil_r. simpl double_quotes. simpl append.
    destruct pend.
    + change (lines_from cur true (String DQ (String CR (String LF T))))
        with (cur :: String DQ (String CR (chr LF)) :: lines_from EmptyString false T).
      rewrite (rows_from_open_line _ _ _ _ _ _ H). reflexivity.
    + change (lines_from cur false (String DQ (String CR (String LF T))))
        with ((((cur ++ chr DQ) ++ chr CR) ++ chr LF) :: lines_from EmptyString false T).
      simpl rows_from.
      rewrite !feed_app, H. reflexivity.
  - rewrite (append_cons_r a c v).
    simpl double_quotes.
    destruct (Ascii.eqb c DQ) eqn:EDQ.
    + apply Ascii.eqb_eq in EDQ. subst c. simpl append.
      destruct pend.
      * change (lines_from cur true (String DQ (String DQ ?s)))
          with (cur :: lines_from (String DQ (chr DQ)) false s).
        rewrite (rows_from_open_line _ _ _ _ _ _ H).
        apply IH. reflexivity.
      * change (lines_from cur false (String DQ (String DQ ?s)))
          with (lines_from ((cur ++ chr DQ) ++ chr DQ) false s).
        apply IH. rewrite append_assoc. apply feed_quoted_quote. exact H.
    + simpl append.
      destruct (Ascii.eqb c LF) eqn:ELF.
      * apply Ascii.eqb_eq in ELF. subst c.
        change (lines_from cur pend (String LF ?s))
          with ((cur ++ chr LF) :: lines_from EmptyString false s).
        rewrite (rows_from_open_line _ _ _ (a ++ chr LF) fs).
        -- apply IH. reflexivity.
        -- apply feed_quoted_char; [reflexivity|exact H].
      * destruct (Ascii.eqb c CR) eqn:ECR.
        -- apply Ascii.eqb_eq in ECR. subst c.
           destruct pend.
           ++ change (lines_from cur true (String CR ?s))
                with (cur :: lines_from (chr CR) true s).
              rewrite (rows_from_open_line _ _ _ _ _ _ H).
              apply IH. reflexivity.
           ++ change (lines_from cur false (String CR ?s))
                with (lines_from (cur ++ chr CR) true s).
              apply IH. apply feed_quoted_char; [reflexivity|exact H].
        -- destruct pend.
           ++ simpl lines_from. rewrite ELF, ECR.
              rewrite (rows_from_open_line _ _ _ _ _ _ H).
              apply IH. simpl. unfold process_char. simpl. rewrite EDQ. reflexivity.
           ++ simpl lines_from. rewrite ELF, ECR.
              apply IH. apply feed_quoted_char; [exact EDQ|exact H].
Qed.

(** The first character of a field without special characters compares
    unequal to the four of them. *)
Lemma special_head (c : ascii) (v : string) :
  any_char (special ",") (String c v) = false ->
  (Ascii.eqb c "," = false /\ Ascii.eqb c DQ = false
   /\ Ascii.eqb c CR = false /\ Ascii.eqb c LF = false)
  /\ any_char (special ",") v = false.
Proof.
  simpl. intros H. apply orb_false_iff in H as [Hc Hv].
  unfold special in Hc. repeat (apply orb_false_iff in Hc as [Hc ?]). auto.
Qed.

Ltac plain_char H :=
  let Hcomma := fresh "Hcomma" in
  let Hdq := fresh "Hdq" in
  let Hcr := fresh "Hcr" in
  let Hlf := fresh "Hlf" in
  apply special_head in H as [(Hcomma & Hdq & Hcr & Hlf) H];
  unfold is_newline;
  repeat first [ rewrite Hcomma | rewrite Hdq | rewrite Hcr | rewrite Hlf ].

(** A field without special characters stays on its line. *)
Lemma lines_plain_field (v : string) :
  forall (cur T : string),
    any_char (special ",") v = false ->
    lines_from cur false (v ++ String CR (String LF T))
    = ((cur ++ v) ++ crlf) :: lines_from EmptyString false T.
Proof.
  induction v as [|c v IH]; intros cur T Hv.
  - rewrite append_nil_r. simpl append.
    change (lines_from cur false (String CR (String LF T)))
      with (((cur ++ chr CR) ++ chr LF) :: lines_from EmptyString false T).
    rewrite append_assoc. reflexivity.
  - simpl append. simpl lines_from. plain_char Hv.
    rewrite (IH _ _ Hv). rewrite (append_cons_r cur c v). reflexivity.
Qed.

Lemma feed_plain_field (v : string) :
  forall (a : string) (fs : list string),
    any_char (special ",") v = false ->
    feed "," (Parser IN_FIELD a fs) (v ++ crlf)
    = Ok (Parser EAT_CRNL EmptyString (fs ++ [(a ++ v)%string])%list).
Proof.
  induction v as [|c v IH]; intros a fs Hv.
  - rewrite append_nil_r. reflexivity.
  - simpl append. simpl feed. unfold process_char at 1. simpl st.
    plain_char Hv.
    simpl. unfold add_char. simpl. rewrite IH by exact Hv.
    rewrite (append_cons_r a c v). reflexivity.
Qed.

(** The record written for one value, followed by the rest of the file, is
    read back as the row of that value, whatever the value holds. *)
Lemma reader_one_field (v T : string) :
  rows_from "," reset (lines_raw (writerow [v] ++ T))
  = (let (rows, e) := rows_from "," reset (lines_raw T) in ([v] :: rows, e)).
Proof.
  unfold writerow, lines_raw. simpl map. simpl join. unfold write_field.
  destruct (any_char (special ",") v || (true && is_empty v)) eqn:Q.
  - unfold dq, crlf, chr. rewrite !append_assoc. simpl append.
    change (lines_from EmptyString false (String DQ ?s))
      with (lines_from (chr DQ) false s).
    apply (reader_quoted_field v (chr DQ) false reset EmptyString [] T).
    reflexivity.
  - apply orb_false_iff in Q as [Hv He]. simpl in He.
    destruct v as [|c v]; [discriminate|].
    unfold crlf, chr. rewrite append_assoc. simpl append.
    pose proof (lines_plain_field (String c v) EmptyString T Hv) as HL.
    simpl append in HL. rewrite HL. clear HL.
    assert (P : process_char "," reset (Some c) = Ok (Parser IN_FIELD (chr c) [])).
    { unfold process_char, start_field. simpl st.
      pose proof Hv as Hc. plain_char Hc. reflexivity. }
    apply special_head in Hv as [_ Hv].
    simpl rows_from. rewrite P. simpl bind.
    rewrite (feed_plain_field v (chr c) [] Hv). reflexivity.
Qed.

(** The round trip through a temporary file of rows of one field. *)
Lemma write_and_read_one_field (vals : list string) :
  Stats.write_and_read (map (fun v => [v]) vals) = (map (fun v => [v]) vals, None).
Proof.
  unfold Stats.write_and_read, reader, writerows.
  induction vals as [|v vals IH]; [reflexivity|].
  simpl map. simpl cat. rewrite reader_one_field, IH. reflexivity.
Qed.

Lemma first_fields_one_field (vals : list string) :
  Stats.first_fields (map (fun v => [v]) vals, None) = Ok vals.
Proof.
  unfold Stats.first_fields. simpl. f_equal.
  induction vals as [|v vals IH]; simpl; [reflexivity|]. rewrite IH. reflexivity.
Qed.

(** The lists from which the ranges are taken hold every distinct value
    of the table, the empty string included. *)
Lemma years_eq (t : Table) : Stats.years t = Ok (distinct (map year t)).
Proof.
  unfold Stats.years, year_sql.
  rewrite write_and_read_one_field. apply first_fields_one_field.
Qed.

Lemma dates_eq (t : Table) : Stats.dates t = Ok (distinct (map modified t)).
Proof.
  unfold Stats.dates, datemodified_sql.
  rewrite write_and_read_one_field. apply first_fields_one_field.
Qed.

End CsvFacts.

(** ** The order of strings *)

Section StringOrder.
Import Str.

Lemma ltb_irrefl (s : string) : ltb s s = false.
Proof.
  induction s as [|a s IH]; simpl; [reflexivity|].
  rewrite Ascii.eqb_refl. exact IH.
Qed.

Lemma ltb_trans (s t u : string) :
  ltb s t = true -> ltb t u = true -> ltb s u = true.
Proof.
  revert t u. induction s as [|a s IH]; intros [|b t] [|c u]; simpl;
    try discriminate; try reflexivity.
  destruct (Ascii.eqb_spec a b) as [->|Hab];
    destruct (Ascii.eqb_spec b c) as [->|Hbc].
  - apply IH.
  - intros _ H. exact H.
  - intros H _. apply Ascii.eqb_neq in Hab. rewrite Hab. exact H.
  - intros H1 H2. apply Nat.ltb_lt in H1, H2.
    destruct (Ascii.eqb_spec a c) as [->|Hac]; [lia|].
    apply Nat.ltb_lt. lia.
Qed.

Lemma ltb_total (s t : string) : ltb s t = false -> s = t \/ ltb t s = true.
Proof.
  revert t. induction s as [|a s IH]; intros [|b t]; simpl; try discriminate; auto.
  rewrite (Ascii.eqb_sym b a).
  destruct (Ascii.eqb_spec a b) as [->|Hab].
  - intros H. destruct (IH t H) as [->|H']; auto.
  - intros H. right. apply Nat.ltb_ge in H. apply Nat.ltb_lt.
    assert (nat_of_ascii a <> nat_of_ascii b); [|lia].
    intros E. apply Hab.
    rewrite <- (ascii_nat_embedding a), <- (ascii_nat_embedding b), E. reflexivity.
Qed.

Lemma ltb_empty (s : string) : s <> EmptyString -> ltb EmptyString s = true.
Proof. destruct s; [congruence|reflexivity]. Qed.

(** [a] below [b] and [b] not above [c] put [a] below [c]. *)
Lemma ltb_le_trans (a b c : string) :
  ltb a b = true -> ltb c b = false -> ltb a c = true.
Proof.
  intros H1 H2. destruct (ltb_total c b H2) as [->|H]; [exact H1|].
  apply (ltb_trans a b c); assumption.
Qed.

Lemma le_ltb_trans (a b c : string) :
  ltb b a = false -> ltb b c = true -> ltb a c = true.
Proof.
  intros H1 H2. destruct (ltb_total b a H1) as [->|H]; [exact H2|].
  apply (ltb_trans a b c); assumption.
Qed.

Lemma fold_min_spec (l : list string) (x : string) :
  let m := fold_left (fun best y => if ltb y best then y else best) l x in
  In m (x :: l) /\ forall y, In y (x :: l) -> ltb y m = false.
Proof.
  revert x. induction l as [|y l IH]; intros x; simpl.
  - split; [left; reflexivity|]. intros z [<-|[]]. apply ltb_irrefl.
  - specialize (IH (if ltb y x then y else x)). simpl in IH.
    destruct IH as [Hin Hle].
    set (m := fold_left _ l _) in *.
    destruct (ltb y x) eqn:E.
    + split; [tauto|]. intros z [Hz|[Hz|Hz]]; subst; auto.
      destruct (ltb z m) eqn:Z; [|reflexivity].
      pose proof (ltb_trans _ _ _ E Z) as C.
      rewrite (Hle y (or_introl eq_refl)) in C. discriminate.
    + split; [tauto|]. intros z [Hz|[Hz|Hz]]; subst; auto.
      destruct (ltb z m) eqn:Z; [|reflexivity].
      pose proof (ltb_le_trans _ _ _ Z (Hle x (or_introl eq_refl))) as C.
      congruence.
Qed.

Lemma fold_max_spec (l : list string) (x : string) :
  let m := fold_left (fun best y => if ltb best y then y else best) l x in
  In m (x :: l) /\ forall y, In y (x :: l) -> ltb m y = false.
Proof.
  revert x. induction l as [|y l IH]; intros x; simpl.
  - split; [left; reflexivity|]. intros z [<-|[]]. apply ltb_irrefl.
  - specialize (IH (if ltb x y then y else x)). simpl in IH.
    destruct IH as [Hin Hle].
    set (m := fold_left _ l _) in *.
    destruct (ltb x y) eqn:E.
    + split; [tauto|]. intros z [Hz|[Hz|Hz]]; subst; auto.
      destruct (ltb m z) eqn:Z; [|reflexivity].
      pose proof (ltb_trans _ _ _ Z E) as C.
      rewrite (Hle y (or_introl eq_refl)) in C. discriminate.
    + split; [tauto|]. intros z [Hz|[Hz|Hz]]; subst; auto.
      destruct (ltb m z) eqn:Z; [|reflexivity].
      pose proof (le_ltb_trans _ _ _ (Hle x (or_introl eq_refl)) Z) as C.
      congruence.
Qed.

(** [min] and [max] of a non-empty list of strings are the least and the
    greatest of its items in the order of strings. *)
Lemma min_str_spec (l : list string) :
  l <> [] ->
  exists m, Stats.min_str l = Ok m /\ In m l /\ forall y, In y l -> leb m y = true.
Proof.
  destruct l as [|x l]; [congruence|]. intros _.
  destruct (fold_min_spec l x) as [H1 H2].
  eexists. split; [reflexivity|]. split; [exact H1|].
  intros y Hy. unfold leb. rewrite (H2 y Hy). reflexivity.
Qed.

Lemma max_str_spec (l : list string) :
  l <> [] ->
  exists m, Stats.max_str l = Ok m /\ In m l /\ forall y, In y l -> leb y m = true.
Proof.
  destruct l as [|x l]; [congruence|]. intros _.
  destruct (fold_max_spec l x) as [H1 H2].
  eexists. split; [reflexivity|]. split; [exact H1|].
  intros y Hy. unfold leb. rewrite (H2 y Hy). reflexivity.
Qed.

End StringOrder.

(** ** The ranges of the statistics *)

Section RangeFacts.
Import Str Sql Csv Stats Sample.
Context {fc : FloatConv}.

(** On numerals, [min] and [max] with [key=float] return an item of the
    least and of the greatest value. *)
Lemma extremum_loop_numerals (above : bool) (l : list string) :
  forall (best : string) (kb : F),
    Numeral.numeral best = true -> py_float best = Some kb ->
    (forall y, In y l -> Numeral.numeral y = true) ->
    exists m, extremum_loop above best kb l = Ok m
      /\ In m (best :: l)
      /\ forall y, In y (best :: l) ->
           if above then Numeral.value y <= Numeral.value m
           else Numeral.value m <= Numeral.value y.
Proof.
  induction l as [|x l IH]; intros best kb Hb Hk Hl.
  - exists best. split; [reflexivity|]. split; [left; reflexivity|].
    intros y [<-|[]]. destruct above; lia.
  - assert (Hx : Numeral.numeral x = true) by (apply Hl; left; reflexivity).
    assert (Hl' : forall y, In y l -> Numeral.numeral y = true)
      by (intros y Hy; apply Hl; right; exact Hy).
    simpl. destruct (py_float x) as [k|] eqn:Ex;
      [|exfalso; exact (py_float_numeral x Hx Ex)].
    rewrite (flt_numeral best x kb k Hb Hx Hk Ex).
    rewrite (flt_numeral x best k kb Hx Hb Ex Hk).
    destruct above.
    + destruct (Nat.ltb_spec (Numeral.value best) (Numeral.value x)) as [C|C].
      * destruct (IH x k Hx Ex Hl') as (m & E & Hin & Hm).
        exists m. split; [exact E|]. split; [simpl in *; tauto|].
        intros y [Hy|Hy].
        -- subst y. pose proof (Hm x (or_introl eq_refl)). simpl in *. lia.
        -- apply Hm. exact Hy.
      * destruct (IH best kb Hb Hk Hl') as (m & E & Hin & Hm).
        exists m. split; [exact E|]. split; [simpl in *; tauto|].
        intros y [Hy|[Hy|Hy]].
        -- apply Hm. left. exact Hy.
        -- subst y. pose proof (Hm best (or_introl eq_refl)). simpl in *. lia.
        -- apply Hm. right. exact Hy.
    + destruct (Nat.ltb_spec (Numeral.value x) (Numeral.value best)) as [C|C].
      * destruct (IH x k Hx Ex Hl') as (m & E & Hin & Hm).
        exists m. split; [exact E|]. split; [simpl in *; tauto|].
        intros y [Hy|Hy].
        -- subst y. pose proof (Hm x (or_introl eq_refl)). simpl in *. lia.
        -- apply Hm. exact Hy.
      * destruct (IH best kb Hb Hk Hl') as (m & E & Hin & Hm).
        exists m. split; [exact E|]. split; [simpl in *; tauto|].
        intros y [Hy|[Hy|Hy]].
        -- apply Hm. left. exact Hy.
        -- subst y. pose proof (Hm best (or_introl eq_refl)). simpl in *. lia.
        -- apply Hm. right. exact Hy.
Qed.

Lemma extremum_numerals (above : bool) (l : list string) :
  l <> [] ->
  (forall y, In y l -> Numeral.numeral y = true) ->
  exists m, extremum above l = Ok m
    /\ In m l
    /\ forall y, In y l ->
         if above then Numeral.value y <= Numeral.value m
         else Numeral.value m <= Numeral.value y.
Proof.
  destruct l as [|x l]; [congruence|]. intros _ Hl.
  assert (Hx : Numeral.numeral x = true) by (apply Hl; left; reflexivity).
  simpl. destruct (py_float x) as [k|] eqn:Ex;
    [|exfalso; exact (py_float_numeral x Hx Ex)].
  apply extremum_loop_numerals; auto.
  intros y Hy. apply Hl. right. exact Hy.
Qed.

(** An empty string among the items makes [float] raise. *)
Lemma extremum_loop_empty_item (above : bool) (l : list string) :
  forall (best : string) (kb : F),
    In EmptyString l -> extremum_loop above best kb l = Raise ValueError.
Proof.
  induction l as [|x l IH]; intros best kb H; [destruct H|].
  simpl. destruct (py_float x) as [k|] eqn:Ex; [|reflexivity].
  assert (Hl : In EmptyString l).
  { destruct H as [->|H]; [|exact H]. rewrite py_float_empty in Ex. discriminate. }
  destruct (if above then flt kb k else flt k kb); apply IH; exact Hl.
Qed.

Lemma extremum_empty_item (above : bool) (l : list string) :
  In EmptyString l -> extremum above l = Raise ValueError.
Proof.
  destruct l as [|x l]; [intros []|]. intros H.
  simpl. destruct (py_float x) as [k|] eqn:Ex; [|reflexivity].
  apply extremum_loop_empty_item.
  destruct H as [->|H]; [|exact H]. rewrite py_float_empty in Ex. discriminate.
Qed.

Lemma year_range_empty_modified (t : Table) :
  (exists r, In r t /\ modified r = EmptyString) ->
  year_range t = Raise ValueError.
Proof.
  intros (r & Hr & He). unfold year_range. rewrite years_eq. simpl.
  assert (H : In EmptyString (distinct (map year t))).
  { apply distinct_In. apply in_map_iff. exists r. split; [|exact Hr].
    unfold year. rewrite He. reflexivity. }
  destruct (distinct (map year t)) as [|y ys] eqn:E; [destruct H|].
  unfold min_float. rewrite (extremum_empty_item false _ H). reflexivity.
Qed.

(** The dates are taken from the distinct values of [modified], as the
    least and the greatest in the order of strings; nothing can raise. *)
Lemma date_range_spec (t : Table) :
  t <> [] ->
  exists earliest latest,
    date_range t = Ok (earliest, latest)
    /\ In earliest (map modified t) /\ In latest (map modified t)
    /\ forall r, In r t ->
         leb earliest (modified r) = true /\ leb (modified r) latest = true.
Proof.
  intros Ht. unfold date_range. rewrite dates_eq. simpl.
  assert (Hne : distinct (map modified t) <> []).
  { unfold distinct. rewrite distinct_by_nil. destruct t; [congruence|discriminate]. }
  destruct (min_str_spec _ Hne) as (e & E1 & E2 & E3).
  destruct (max_str_spec _ Hne) as (l & L1 & L2 & L3).
  destruct (distinct (map modified t)) as [|d ds] eqn:D; [congruence|].
  rewrite E1, L1. simpl. exists e, l. split; [reflexivity|].
  rewrite <- D in *. rewrite distinct_In in E2, L2.
  split; [exact E2|]. split; [exact L2|].
  intros r Hr.
  assert (In (modified r) (distinct (map modified t)))
    by (apply distinct_In, in_map; exact Hr).
  split; [apply E3 | apply L3]; assumption.
Qed.

Lemma year_range_spec (t : Table) :
  t <> [] ->
  (forall r, In r t -> Numeral.numeral (year r) = true) ->
  exists b e,
    year_range t = Ok (b, e)
    /\ In b (map year t) /\ In e (map year t)
    /\ forall r, In r t ->
         Numeral.value b <= Numeral.value (year r) <= Numeral.value e.
Proof.
  intros Ht Hnum. unfold year_range. rewrite years_eq. simpl.
  assert (Hne : distinct (map year t) <> []).
  { unfold distinct. rewrite distinct_by_nil. destruct t; [congruence|discriminate]. }
  assert (Hall : forall y, In y (distinct (map year t)) -> Numeral.numeral y = true).
  { intros y Hy. apply distinct_In, in_map_iff in Hy as (r & <- & Hr). auto. }
  destruct (extremum_numerals false _ Hne Hall) as (b & B1 & B2 & B3).
  destruct (extremum_numerals true _ Hne Hall) as (e & E1 & E2 & E3).
  destruct (distinct (map year t)) as [|d ds] eqn:D; [congruence|].
  unfold min_float, max_float. rewrite B1, E1. simpl.
  exists b, e. split; [reflexivity|].
  rewrite <- D in *. rewrite distinct_In in B2, E2.
  split; [exact B2|]. split; [exact E2|].
  intros r Hr.
  assert (In (year r) (distinct (map year t)))
    by (apply distinct_In, in_map; exact Hr).
  split; [apply (B3 _ H) | apply (E3 _ H)].
Qed.

End RangeFacts.

Section StatisticsFacts.
Import Str Sql Csv Stats Sample.

(** C6: the import of a file that holds a header and no other row leaves a
    table without rows, and on a table without rows [get_stats] raises
    nothing and gives the pair (N/A, N/A) for the years and for the dates
    alike, the least and the greatest being the same sentinel. *)
Theorem empty_table_ranges
    {fc : FloatConv} (use_hash : bool) (db : option Table) (header : Row) :
  import_csv use_hash db [header] = Ok (Some [])
  /\ exists st,
       get_stats use_hash [] = Ok st
       /\ s_years st = ("N/A", "N/A")
       /\ s_dates st = ("N/A", "N/A")
       /\ fst (s_years st) = snd (s_years st)
       /\ fst (s_dates st) = snd (s_dates st).
Proof.
  split; [reflexivity|].
  eexists. split; [reflexivity|]. repeat split.
Qed.

(** The sentinel of the years comes from the empty list only, and the
    list is empty for the empty table only. *)
Lemma years_nil (t : Table) : years t = Ok [] <-> t = [].
Proof.
  rewrite years_eq. split.
  - intros H. injection H as H. unfold distinct in H.
    apply distinct_by_nil in H. destruct t; [reflexivity|discriminate].
  - intros ->. reflexivity.
Qed.

Lemma dates_nil (t : Table) : dates t = Ok [] <-> t = [].
Proof.
  rewrite dates_eq. split.
  - intros H. injection H as H. unfold distinct in H.
    apply distinct_by_nil in H. destruct t; [reflexivity|discriminate].
  - intros ->. reflexivity.
Qed.

(** C7, as the program has it: for a table that is not empty and in which
    the first four characters of every [modified] value are a numeral,
    [get_stats] raises nothing; the dates it reports are values of
    [modified], the least and the greatest in the order of strings; the
    years it reports are four-character prefixes of [modified], of the
    least and of the greatest value as numbers. *)
Theorem modification_ranges {fc : FloatConv} (use_hash : bool) (t : Table) :
  t <> [] ->
  (forall r, In r t -> Numeral.numeral (year r) = true) ->
  exists st,
    get_stats use_hash t = Ok st
    /\ (In (fst (s_dates st)) (map modified t)
        /\ In (snd (s_dates st)) (map modified t)
        /\ forall r, In r t ->
             leb (fst (s_dates st)) (modified r) = true
             /\ leb (modified r) (snd (s_dates st)) = true)
    /\ (In (fst (s_years st)) (map year t)
        /\ In (snd (s_years st)) (map year t)
        /\ forall r, In r t ->
             Numeral.value (fst (s_years st)) <= Numeral.value (year r)
             /\ Numeral.value (year r) <= Numeral.value (snd (s_years st))).
Proof.
  intros Ht Hnum.
  destruct (year_range_spec t Ht Hnum) as (b & e & Y & Y1 & Y2 & Y3).
  destruct (date_range_spec t Ht) as (d1 & d2 & D & D1 & D2 & D3).
  unfold get_stats. rewrite Y, D. simpl.
  eexists. split; [reflexivity|]. simpl. auto.
Qed.

Lemma short_years_numerals :
  forall r, In r short_years -> Numeral.numeral (year r) = true.
Proof. intros r [<-|[<-|[]]]; reflexivity. Qed.

(** Two files whose dates are the strings 999 and 1000. *)
Lemma modification_ranges_witness :
  short_years <> []
  /\ (forall r, In r short_years -> Numeral.numeral (year r) = true)
  /\ exists st,
       @get_stats year_float true short_years = Ok st
       /\ (In (fst (s_dates st)) (map modified short_years)
           /\ In (snd (s_dates st)) (map modified short_years)
           /\ forall r, In r short_years ->
                leb (fst (s_dates st)) (modified r) = true
                /\ leb (modified r) (snd (s_dates st)) = true)
       /\ (In (fst (s_years st)) (map year short_years)
           /\ In (snd (s_years st)) (map year short_years)
           /\ forall r, In r short_years ->
                Numeral.value (fst (s_years st)) <= Numeral.value (year r)
                /\ Numeral.value (year r) <= Numeral.value (snd (s_years st))).
Proof.
  split; [discriminate|]. split; [exact short_years_numerals|].
  apply (@modification_ranges year_float true short_years).
  - discriminate.
  - exact short_years_numerals.
Defined.

(** On these two rows the two orders disagree: the earliest date is the
    string 1000 and the first year is 999. *)
Example short_years_ranges :
  @date_range short_years = Ok ("1000", "999")
  /\ @year_range year_float short_years = Ok ("999", "1000").
Proof. split; vm_compute; reflexivity. Qed.

(** C7 does not hold as stated: it fails on a table that is not empty and
    holds a row without date next to a dated row: the list of the years
    holds the empty string, [float] refuses it, and [get_stats] ends with
    that exception before it reports any range. *)
Lemma undated_row_stops_statistics :
  well_formed true one_undated
  /\ one_undated <> []
  /\ years one_undated = Ok ["2017"; EmptyString]
  /\ (forall (fc : FloatConv) (use_hash : bool),
        @get_stats fc use_hash one_undated = Raise ValueError).
Proof.
  split; [repeat constructor|]. split; [discriminate|].
  split; [vm_compute; reflexivity|].
  intros fc use_hash. unfold get_stats.
  rewrite year_range_empty_modified; [reflexivity|].
  exists (dated "b.pdf" EmptyString). split; [right; left; reflexivity|reflexivity].
Qed.

(** C10, as the program has it: the temporary file of the years gives
    back every distinct value, the empty string too, for the writer puts a
    lone empty field between quotes and the reader returns it as a row of
    one empty field, which is not an empty row.  So with a row whose
    [modified] is empty the empty string is in the list of the years, the
    year computation ends with the exception [float] raises on it, and
    [get_stats] with it, before anything is done for the dates.  The list
    of the years is empty, and the sentinel pair the answer, for the table
    without rows only. *)
Theorem empty_modified_is_kept {fc : FloatConv} (use_hash : bool) (t : Table) :
  writerow [EmptyString] = dq ++ dq ++ crlf
  /\ write_and_read [[EmptyString]] = ([[EmptyString]], None)
  /\ years t = Ok (distinct (map year t))
  /\ (years t = Ok [] <-> t = [])
  /\ ((exists r, In r t /\ modified r = EmptyString) ->
      In EmptyString (distinct (map year t))
      /\ year_range t = Raise ValueError
      /\ get_stats use_hash t = Raise ValueError).
Proof.
  split; [reflexivity|]. split; [reflexivity|].
  split; [apply years_eq|]. split; [apply years_nil|].
  intros (r & Hr & He).
  assert (Hy : In EmptyString (distinct (map year t))).
  { apply distinct_In, in_map_iff. exists r. split; [|exact Hr].
    unfold year. rewrite He. reflexivity. }
  assert (Hraise : year_range t = Raise ValueError)
    by (apply year_range_empty_modified; exists r; split; assumption).
  split; [exact Hy|]. split; [exact Hraise|].
  unfold get_stats. rewrite Hraise. reflexivity.
Qed.

(** C10 does not hold as stated: it fails on a table whose rows all have an
    empty [modified]: what is written to the temporary file of the years
    is a pair of quotes and not a blank line, the row read back holds one
    empty field and is kept, and the year computation raises where the
    table without rows has the sentinel pair. *)
Lemma undated_table_has_no_sentinel :
  well_formed true all_undated
  /\ writerows (year_sql all_undated) = dq ++ dq ++ crlf
  /\ write_and_read (year_sql all_undated) = ([[EmptyString]], None)
  /\ years all_undated = Ok [EmptyString]
  /\ (forall (fc : FloatConv) (use_hash : bool),
        @year_range fc all_undated = Raise ValueError
        /\ @get_stats fc use_hash all_undated = Raise ValueError
        /\ @year_range fc [] = Ok ("N/A", "N/A")
        /\ @get_stats fc use_hash all_undated <> @get_stats fc use_hash []).
Proof.
  split; [repeat constructor|].
  repeat (split; [vm_compute; reflexivity|]).
  intros fc use_hash.
  assert (H : @year_range fc all_undated = Raise ValueError).
  { apply year_range_empty_modified.
    exists (dated "a.pdf" EmptyString). split; [left; reflexivity|reflexivity]. }
  assert (G : @get_stats fc use_hash all_undated = Raise ValueError)
    by (unfold get_stats; rewrite H; reflexivity).
  split; [exact H|]. split; [exact G|]. split; [reflexivity|].
  rewrite G. discriminate.
Qed.

End StatisticsFacts.

(** ** The report sections *)

Section HtmlFacts.
Import Str Sql Csv Html Sample.





Lemma in_andthen_l (x : string) (a b : writes) :
  In x (fst a) -> In x (fst (a ;;; b)).
Proof.
  unfold andthen. destruct (snd a); simpl; [auto|].
  intros H. apply in_or_app. left. exact H.
Qed.

Lemma in_andthen_r (x : string) (a b : writes) :
  snd a = None -> In x (fst b) -> In x (fst (a ;;; b)).
Proof.
  unfold andthen. intros ->. simpl. intros H. apply in_or_app. right. exact H.
Qed.

(** *** Counting the lines of a csv file *)

Lemma universal_record_end (a b : string) :
  forall f, exists u,
    universal_from f (a ++ String CR (String LF b))
    = u ++ String LF (universal b).
Proof.
  induction a as [|c a IH]; intros f.
  - exists EmptyString. reflexivity.
  - simpl. destruct (Ascii.eqb c CR).
    + destruct (IH true) as (u & ->). exists (String LF u). reflexivity.
    + destruct (Ascii.eqb c LF).
      * destruct f.
        -- destruct (IH false) as (u & ->). exists u. reflexivity.
        -- destruct (IH false) as (u & ->). exists (String LF u). reflexivity.
      * destruct (IH false) as (u & ->). exists (String c u). reflexivity.
Qed.

Lemma lines_after_line_feed (u v : string) :
  forall cur pend,
    1 + List.length (lines_from EmptyString false v)
    <= List.length (lines_from cur pend (u ++ String LF v)).
Proof.
  induction u as [|c u IH]; intros cur pend.
  - simpl. lia.
  - simpl. destruct (Ascii.eqb c LF).
    + simpl. specialize (IH EmptyString false). lia.
    + destruct pend.
      * destruct (Ascii.eqb c CR); simpl.
        -- specialize (IH (chr CR) true). lia.
        -- specialize (IH (chr c) false). lia.
      * destruct (Ascii.eqb c CR); apply IH.
Qed.

(** Every record the writer adds ends a line. *)
Lemma lines_record (a b : string) :
  1 + List.length (lines_universal b)
  <= List.length (lines_universal (a ++ crlf ++ b)).
Proof.
  unfold lines_universal, lines_raw, universal.
  destruct (universal_record_end a b false) as (u & E).
  change (crlf ++ b) with (String CR (String LF b)). rewrite E.
  apply lines_after_line_feed.
Qed.

Lemma numline_of_report (header : Row) (rows : list Row) :
  rows <> [] ->
  1 < List.length (lines_universal (sqlite_to_csv header rows)).
Proof.
  destruct rows as [|r rows]; [congruence|]. intros _.
  unfold sqlite_to_csv, writerows. simpl map. simpl cat. unfold writerow.
  rewrite !append_assoc.
  match goal with
  | |- _ < List.length (lines_universal (?a ++ crlf ++ ?b ++ crlf ++ ?c)) =>
      pose proof (lines_record a (b ++ crlf ++ c));
      pose proof (lines_record b c)
  end.
  lia.
Qed.

(** *** What [write_html] writes *)


(** The PII section: a table when the log has more than five lines, the
    placeholder otherwise. *)
Lemma write_html_pii (text : string) :
  let w := write_html PII text "009" in
  (5 < List.length (lines_universal text) -> In table_open (fst w))
  /\ (List.length (lines_universal text) <= 5 ->
      snd w = None
      /\ contains "None found." (text_of w) = true
      /\ contains "<table" (text_of w) = false).
Proof.
  cbv zeta. unfold write_html.
  change (PII =? "Duplicates") with false. change (PII =? PII) with true.
  cbv iota. split.
  - intros Hn. apply Nat.ltb_lt in Hn. rewrite Hn.
    apply in_andthen_r; [reflexivity|].
    apply in_andthen_r; [reflexivity|].
    apply in_andthen_r; [reflexivity|].
    apply in_andthen_l. apply in_andthen_l. left. reflexivity.
  - intros Hn. apply Nat.ltb_ge in Hn. rewrite Hn.
    vm_compute. auto.
Qed.

(** A section whose query returns no row gets the placeholder and no
    table: this holds for every section of [generate_reports]. *)
Lemma empty_section_placeholder
    (pick : list Row -> Row) (use_hash : bool) (s : section) (t : Table) :
  query pick use_hash s t = [] ->
  let w := section_html pick use_hash s t in
  snd w = None
  /\ contains "None found." (text_of w) = true
  /\ contains "<table" (text_of w) = false.
Proof.
  intros H. cbv zeta. unfold section_html, csv_file. rewrite H.
  destruct use_hash, s; vm_compute; auto.
Qed.


(** Why the rule of the sections asks that no hash is the word Checksum.
    On a table in which two non-empty files have that word in the hash
    column (Siegfried writes digests there, so that the program does not
    meet such a table) the query of the duplicates section returns both
    rows, so the csv file has three lines and the placeholder is not
    written; the list of hashes read from the file holds that word once,
    for the header line and for the rows alike, and removing the header's
    entry leaves no hash to write a table for.  The section holds neither
    a table nor the placeholder. *)
Example duplicates_section_without_table :
  let w := section_html first_row true Duplicates checksum_rows in
  well_formed true checksum_rows
  /\ query first_row true Duplicates checksum_rows = checksum_rows
  /\ List.length (lines_universal (csv_file first_row true Duplicates checksum_rows)) = 3
  /\ snd w = None
  /\ contains "<table" (text_of w) = false
  /\ contains "None found." (text_of w) = false.
Proof.
  cbv zeta. split; [repeat constructor|].
  repeat split; vm_compute; reflexivity.
Qed.

(** On a table without rows every section of a run gets the placeholder. *)
Lemma empty_table_sections
    (pick : list Row -> Row) (showwarnings use_hash : bool) (s : section) :
  In s (sections showwarnings use_hash) ->
  contains "None found." (text_of (section_html pick use_hash s [])) = true
  /\ contains "<table" (text_of (section_html pick use_hash s [])) = false.
Proof.
  intros _.
  assert (H : query pick use_hash s [] = []) by (destruct s; reflexivity).
  destruct (empty_section_placeholder pick use_hash s [] H) as (_ & H1 & H2).
  split; assumption.
Qed.

(** With any other hash the duplicates get their table. *)
Example duplicates_section_with_table :
  let w := section_html first_row true Duplicates duplicate_example in
  snd w = None
  /\ contains "<table" (text_of w) = true
  /\ contains "None found." (text_of w) = false.
Proof. cbv zeta. repeat split; vm_compute; reflexivity. Qed.

End HtmlFacts.

(** * Part III: the files read back, and further properties

    The rule of the sections (C5) needs the csv files of the reports read
    back and is proved here.  The rest of this part is not asked by the
    documentation; it is read off the code. *)

(** ** The counts of the statistics add up *)

Section CountFacts.
Import Sql.

Lemma NoDup_map_eq {A B : Type} (f : A -> B) (l : list A) (x y : A) :
  NoDup (map f l) -> In x l -> In y l -> f x = f y -> x = y.
Proof.
  induction l as [|a l IH]; simpl; intros Hn Hx Hy E; [destruct Hx|].
  inversion Hn as [|? ? Ha Hl]; subst.
  destruct Hx as [Hx|Hx], Hy as [Hy|Hy]; subst; auto.
  - exfalso. apply Ha. rewrite E. apply in_map. exact Hy.
  - exfalso. apply Ha. rewrite <- E. apply in_map. exact Hx.
Qed.

Lemma NoDup_map_in {A B : Type} (f : A -> B) (l : list A) :
  (forall x y, In x l -> In y l -> f x = f y -> x = y) ->
  NoDup l -> NoDup (map f l).
Proof.
  induction l as [|a l IH]; intros Hinj Hn; simpl; [constructor|].
  inversion Hn as [|? ? Ha Hl]; subst. constructor.
  - intros Hin. apply in_map_iff in Hin as (x & E & Hx).
    apply Ha. rewrite <- (Hinj x a); auto; [right; exact Hx | left; reflexivity].
  - apply IH; [|exact Hl]. intros x y Hx Hy. apply Hinj; right; assumption.
Qed.

(** The non-empty files are the counted duplicates and the files that have
    no duplicate. *)
Lemma nonempty_split (t0 t : Table) :
  List.length (filter (fun r => negb (filesize r =? "0")) t)
  = List.length (filter (is_duplicate t0) t)
    + List.length (filter (fun r => negb (filesize r =? "0")
                                    && negb (is_duplicate t0 r)) t).
Proof.
  induction t as [|r t IH]; simpl; [reflexivity|].
  destruct (is_duplicate t0 r) eqn:D.
  - assert (E : negb (filesize r =? "0") = true).
    { unfold is_duplicate in D. apply andb_true_iff in D. tauto. }
    rewrite E. simpl. lia.
  - destruct (negb (filesize r =? "0")); simpl; lia.
Qed.

(** A non-empty file that is not counted as a duplicate is the only row
    with its hash, when no two rows have the same filename. *)
Lemma single_hash (t : Table) (r r' : Row) :
  NoDup (map filename t) ->
  In r t -> In r' t ->
  negb (filesize r =? "0") = true -> is_duplicate t r = false ->
  hash r' = hash r -> r' = r.
Proof.
  intros Hn Hr Hr' Hs Hd Hh.
  destruct (string_dec (filename r) (filename r')) as [E|E].
  - symmetry. apply (NoDup_map_eq filename t); assumption.
  - exfalso. assert (X : is_duplicate t r = true); [|congruence].
    apply is_duplicate_spec. split; [apply string_neqb; exact Hs|].
    exists r'. auto.
Qed.

Lemma distinct_hashes_split (t : Table) :
  NoDup (map filename t) ->
  List.length (distinct (map hash (filter (fun r => negb (filesize r =? "0")) t)))
  = List.length (distinct (map hash (duplicates t)))
    + List.length (filter (fun r => negb (filesize r =? "0")
                                    && negb (is_duplicate t r)) t).
Proof.
  intros Hn.
  set (S := filter (fun r => negb (filesize r =? "0") && negb (is_duplicate t r)) t).
  rewrite <- (length_map hash S), <- length_app.
  apply Permutation_length, NoDup_Permutation.
  - apply distinct_NoDup.
  - apply NoDup_app; [apply distinct_NoDup| |].
    + apply NoDup_map_in.
      * intros x y Hx Hy E. unfold S in Hx, Hy.
        apply filter_In in Hx as [Hx Px]. apply filter_In in Hy as [Hy Py].
        apply andb_true_iff in Py as [Py1 Py2]. apply negb_true_iff in Py2.
        apply (single_hash t y x); assumption.
      * apply NoDup_filter. apply (NoDup_map_inv filename). exact Hn.
    + intros h H1 H2. apply distinct_In, in_map_iff in H1 as (d & <- & Hd).
      apply in_map_iff in H2 as (s & E & Hs).
      unfold S in Hs. apply filter_In in Hs as [Hs Ps].
      apply andb_true_iff in Ps as [Ps1 Ps2]. apply negb_true_iff in Ps2.
      unfold duplicates in Hd. apply filter_In in Hd as [Hd Pd].
      assert (d = s) by (apply (single_hash t s d); auto).
      congruence.
  - intros h. rewrite distinct_In, in_app_iff, distinct_In, !in_map_iff. split.
    + intros (r & <- & Hr). apply filter_In in Hr as [Hr Pr].
      destruct (is_duplicate t r) eqn:D.
      * left. exists r. split; [reflexivity|]. apply filter_In. auto.
      * right. exists r. split; [reflexivity|]. apply filter_In. rewrite Pr, D. auto.
    + intros [(r & <- & Hr)|(r & <- & Hr)]; exists r; (split; [reflexivity|]).
      * apply filter_In in Hr as [Hr Pr]. apply filter_In. split; [exact Hr|].
        apply is_duplicate_spec in Pr as [Pr _]. apply string_neqb. exact Pr.
      * apply filter_In in Hr as [Hr Pr]. apply filter_In. split; [exact Hr|].
        apply andb_true_iff in Pr. tauto.
Qed.

(** The note under the statistics of the report says that the total of
    the files is the distinct files plus the duplicate copies plus the
    empty files.  The counts of [get_stats] keep this promise for every
    table in which no two rows have the same filename. *)
Theorem total_is_distinct_copies_empty (t : Table) :
  NoDup (map filename t) ->
  Z.of_nat (num_files t)
  = (Z.of_nat (distinct_files t) + duplicate_copies t + Z.of_nat (empty_files t))%Z.
Proof.
  intros Hn. unfold num_files, distinct_files, duplicate_copies, empty_files,
    all_dupes, distinct_dupes.
  pose proof (filter_length (fun r => filesize r =? "0") t) as H1. cbv beta in H1.
  pose proof (nonempty_split t t) as H2.
  pose proof (distinct_hashes_split t Hn) as H3.
  unfold duplicates in *. unfold Row, Table in *. lia.
Qed.

Lemma total_is_distinct_copies_empty_witness :
  NoDup (map filename Sample.duplicate_example)
  /\ Z.of_nat (num_files Sample.duplicate_example)
     = (Z.of_nat (distinct_files Sample.duplicate_example)
        + duplicate_copies Sample.duplicate_example
        + Z.of_nat (empty_files Sample.duplicate_example))%Z.
Proof.
  assert (H : NoDup (map filename Sample.duplicate_example)).
  { repeat constructor; simpl; intuition discriminate. }
  split; [exact H|]. exact (total_is_distinct_copies_empty _ H).
Defined.

(** A file listed twice breaks the sum: both rows are non-empty, one
    distinct file is counted and no copy. *)
Example listed_twice_breaks_total :
  let t := [Sample.example_row "A" "10" "H1"; Sample.example_row "A" "10" "H1"] in
  num_files t = 2 /\ distinct_files t = 1 /\ duplicate_copies t = 0%Z /\ empty_files t = 0.
Proof. cbv zeta. repeat split. Qed.

End CountFacts.

(** ** The reports against the statistics *)

Section ReportCountFacts.
Import Sql.

Lemma list_sum_perm (l l' : list nat) :
  Permutation l l' -> list_sum l = list_sum l'.
Proof. induction 1; simpl; lia. Qed.

Lemma list_sum_map_add {A : Type} (f g : A -> nat) (l : list A) :
  list_sum (map (fun x => f x + g x) l) = list_sum (map f l) + list_sum (map g l).
Proof. induction l as [|a l IH]; simpl; lia. Qed.

(** A key is found once in a list without repetition that holds it. *)
Lemma key_found_once (k0 : list string) (ks : list (list string)) :
  NoDup ks ->
  list_sum (map (fun k => if key_eqb k0 k then 1 else 0) ks)
  = if in_dec (list_eq_dec string_dec) k0 ks then 1 else 0.
Proof.
  induction 1 as [|k ks Hk Hn IH]; simpl; [reflexivity|].
  rewrite IH. destruct (key_eqb k0 k) eqn:E.
  - apply key_eqb_eq in E. subst k0.
    destruct (list_eq_dec string_dec k k); [|congruence].
    destruct (in_dec _ k ks); [contradiction|reflexivity].
  - assert (k <> k0) by (intros ->; rewrite (proj2 (key_eqb_eq k0 k0) eq_refl) in E; discriminate).
    destruct (list_eq_dec string_dec k k0); [congruence|].
    destruct (in_dec _ k0 ks); reflexivity.
Qed.

(** The sizes of the groups of a list of rows add up to its length, when
    the keys of all its rows are among the keys of the groups. *)
Lemma groups_add_up (key : Row -> list string) (ks : list (list string)) (u : list Row) :
  NoDup ks ->
  (forall r, In r u -> In (key r) ks) ->
  list_sum (map (fun k => List.length (filter (fun r => key_eqb (key r) k) u)) ks)
  = List.length u.
Proof.
  intros Hn. induction u as [|r u IH]; intros Hin.
  - simpl. clear. induction ks as [|k ks IHk]; simpl; [reflexivity|exact IHk].
  - transitivity
      (list_sum (map (fun k => (if key_eqb (key r) k then 1 else 0)
                               + List.length (filter (fun r => key_eqb (key r) k) u)) ks)).
    + f_equal. apply map_ext. intros k. simpl.
      destruct (key_eqb (key r) k); reflexivity.
    + rewrite list_sum_map_add, IH, (key_found_once _ _ Hn).
      * destruct (in_dec _ (key r) ks) as [_|N]; [reflexivity|].
        exfalso. apply N, Hin. left. reflexivity.
      * intros x Hx. apply Hin. right. exact Hx.
Qed.

Lemma select_count_total
    (pick : list Row -> Row) (sel key : Row -> list string) (t : Table) :
  list_sum (map c_num (select_count pick sel key t)) = num_files t.
Proof.
  unfold select_count, num_files.
  rewrite <- (list_sum_perm _ _ (Permutation_map c_num (order_by_perm num_desc _))).
  rewrite map_map. simpl.
  apply groups_add_up.
  - apply distinct_by_NoDup, key_eqb_eq.
  - intros r Hr. apply (distinct_by_In key_eqb key_eqb_eq). apply in_map. exact Hr.
Qed.

(** In each of the four counting reports the counts add up to the number
    of files of the table: every file is counted in one line of the
    report and in one only, whichever row sqlite shows for a group. *)
Theorem counting_reports_total
    (pick : list Row -> Row) (use_hash : bool) (t : Table) :
  list_sum (map c_num (formats_sql pick use_hash t)) = num_files t
  /\ list_sum (map c_num (versions_sql pick use_hash t)) = num_files t
  /\ list_sum (map c_num (mimetypes_sql pick use_hash t)) = num_files t
  /\ list_sum (map c_num (years_sql pick t)) = num_files t.
Proof. repeat split; apply select_count_total. Qed.

(** Ascending hashes. *)
Lemma insert_by_hash_sorted (x : Row) (l : list Row) :
  StronglySorted (fun a b => Str.leb (hash a) (hash b) = true) l ->
  StronglySorted (fun a b => Str.leb (hash a) (hash b) = true)
    (insert_by (fun a b => Str.ltb (hash a) (hash b)) x l).
Proof.
  induction 1 as [|y l Hs IH Hy]; simpl.
  - repeat constructor.
  - destruct (Str.ltb (hash y) (hash x)) eqn:E.
    + constructor; [exact IH|].
      apply Forall_forall. intros z Hz.
      apply (Permutation_in _ (Permutation_sym (insert_by_perm _ x l))) in Hz.
      destruct Hz as [<-|Hz].
      * unfold Str.leb. destruct (Str.ltb (hash x) (hash y)) eqn:E'; [|reflexivity].
        pose proof (ltb_trans _ _ _ E E') as C. rewrite ltb_irrefl in C. discriminate.
      * rewrite Forall_forall in Hy. apply Hy. exact Hz.
    + constructor; [constructor; assumption|].
      constructor; [unfold Str.leb; rewrite E; reflexivity|].
      apply Forall_forall. intros z Hz. rewrite Forall_forall in Hy.
      specialize (Hy z Hz). unfold Str.leb in *.
      destruct (Str.ltb (hash z) (hash x)) eqn:Z; [|reflexivity].
      apply negb_true_iff in Hy.
      pose proof (ltb_le_trans _ _ _ Z E) as C. congruence.
Qed.

Lemma order_by_hash_sorted (l : list Row) :
  StronglySorted (fun a b => Str.leb (hash a) (hash b) = true)
    (order_by (fun a b => Str.ltb (hash a) (hash b)) l).
Proof.
  unfold order_by. induction l as [|x l IH]; simpl; [constructor|].
  apply insert_by_hash_sorted, IH.
Qed.

(** The rows of the duplicates report are the rows the statistics count as
    duplicates, each once, put in the order of their hash: the report has
    as many rows as the count of all duplicates, and the rows of one hash
    stand together. *)
Theorem duplicates_report_rows (t : Table) :
  Permutation (duplicates t) (duplicates_sql t)
  /\ List.length (duplicates_sql t) = all_dupes t
  /\ StronglySorted (fun a b => Str.leb (hash a) (hash b) = true) (duplicates_sql t)
  /\ (forall r, In r (duplicates_sql t) <->
        In r t /\ filesize r <> "0" /\
        exists r', In r' t /\ hash r' = hash r /\ filename r <> filename r').
Proof.
  assert (P : Permutation (duplicates t) (duplicates_sql t)) by apply order_by_perm.
  split; [exact P|]. split; [|split].
  - unfold all_dupes. symmetry. apply Permutation_length. exact P.
  - apply order_by_hash_sorted.
  - intros r. rewrite <- duplicates_In. split; apply Permutation_in;
      [apply Permutation_sym|]; exact P.
Qed.

Lemma import_csv_cases
    (use_hash : bool) (db : option Table) (header : Row) (rows : list Row) :
  import_csv use_hash db (header :: rows)
  = (if Nat.eqb (List.length header) (ncols use_hash)
        || negb (existsb (fun r => Nat.eqb (List.length r) (List.length header)) rows)
     then Ok (Some (filter (fun r => Nat.eqb (List.length r) (List.length header)) rows))
     else Raise OperationalError).
Proof.
  set (same := fun r : Row => Nat.eqb (List.length r) (List.length header)).
  unfold import_csv.
  destruct (Nat.eqb_spec (List.length header) (ncols use_hash)) as [Hw|Hw].
  - rewrite <- Hw, import_rows_same_width. reflexivity.
  - rewrite import_rows_other_width by exact Hw.
    change (existsb _ rows) with (existsb same rows).
    destruct (existsb same rows) eqn:Y; simpl; [reflexivity|].
    assert (X : filter same rows = []).
    { apply filter_none. intros r Hr.
      destruct (same r) eqn:R; [|reflexivity].
      assert (existsb same rows = true) by (apply existsb_exists; eauto).
      congruence. }
    exact (f_equal (fun l => Ok (Some l)) (eq_sym X)).
Qed.

Lemma import_csv_well_formed
    (use_hash : bool) (db : option Table) (header : Row) (rows : list Row) (t : Table) :
  import_csv use_hash db (header :: rows) = Ok (Some t) -> well_formed use_hash t.
Proof.
  rewrite import_csv_cases.
  set (same := fun r : Row => Nat.eqb (List.length r) (List.length header)).
  change (existsb _ rows) with (existsb same rows).
  change (filter _ rows) with (filter same rows).
  destruct (Nat.eqb_spec (List.length header) (ncols use_hash)) as [Hw|Hw].
  - intros Ht. injection Ht as <-. apply Forall_forall. intros r Hr.
    apply filter_In in Hr as [_ Hr]. apply Nat.eqb_eq in Hr. congruence.
  - destruct (existsb same rows) eqn:Y; [discriminate|].
    intros Ht. injection Ht as <-. apply Forall_forall. intros r Hr.
    apply filter_In in Hr as [Hr Hl]. exfalso.
    assert (existsb same rows = true) by (apply existsb_exists; eauto).
    congruence.
Qed.

(** What an import comes to, whatever the width of the header: it raises
    exactly when the header has another width than the table and some row
    has the width of the header; otherwise the table holds the rows of the
    header's width, and every row of a table that was imported has the
    width of the table. *)
Theorem import_csv_outcome
    (use_hash : bool) (db : option Table) (header : Row) (rows : list Row) :
  import_csv use_hash db (header :: rows)
  = (if Nat.eqb (List.length header) (ncols use_hash)
        || negb (existsb (fun r => Nat.eqb (List.length r) (List.length header)) rows)
     then Ok (Some (filter (fun r => Nat.eqb (List.length r) (List.length header)) rows))
     else Raise OperationalError)
  /\ (forall t, import_csv use_hash db (header :: rows) = Ok (Some t) ->
        well_formed use_hash t)
  /\ import_csv use_hash db [] = Ok db.
Proof.
  split; [apply import_csv_cases|]. split; [|reflexivity].
  intros t. apply import_csv_well_formed.
Qed.

End ReportCountFacts.

(** ** Lines with one identifier, and lines with none *)

Section PronomLinkFacts.
Import Str Pronom.

Lemma startswith_nil (s : string) : startswith EmptyString s = true.
Proof. reflexivity. Qed.

Lemma startswith_cons (c d : ascii) (p s : string) :
  startswith (String c p) (String d s) = Ascii.eqb c d && startswith p s.
Proof. unfold startswith. simpl. destruct (Ascii.eqb c d); reflexivity. Qed.

Lemma startswith_cons_nil (c : ascii) (p : string) :
  startswith (String c p) EmptyString = false.
Proof. reflexivity. Qed.

Lemma strip_prefix_self (p s : string) : strip_prefix p (p ++ s) = Some s.
Proof.
  induction p as [|c p IH]; simpl; [reflexivity|].
  rewrite Ascii.eqb_refl. exact IH.
Qed.

Lemma startswith_self (p s : string) : startswith p (p ++ s) = true.
Proof. unfold startswith. rewrite strip_prefix_self. reflexivity. Qed.

Lemma startswith_app_l (p q s : string) :
  startswith (p ++ q) s = true -> startswith p s = true.
Proof.
  revert s. induction p as [|c p IH]; intros s; [reflexivity|].
  destruct s as [|d s]; [discriminate|]. simpl append.
  rewrite !startswith_cons. intros H. apply andb_true_iff in H as [H1 H2].
  rewrite H1. apply IH. exact H2.
Qed.

Lemma contains_cons (p : string) (c : ascii) (s : string) :
  contains p (String c s) = startswith p (String c s) || contains p s.
Proof. reflexivity. Qed.

Lemma contains_head_false (p : string) (c : ascii) (s : string) :
  contains p (String c s) = false ->
  startswith p (String c s) = false /\ contains p s = false.
Proof. rewrite contains_cons. apply orb_false_iff. Qed.

Lemma startswith_contains (p s : string) :
  startswith p s = true -> contains p s = true.
Proof. intros H. destruct s; simpl; rewrite H; reflexivity. Qed.

(** An [x-fmt/] is also an [fmt/], two characters on. *)
Lemma startswith_xfmt_contains (s : string) :
  startswith "x-fmt/" s = true -> contains "fmt/" s = true.
Proof.
  destruct s as [|a [|b s]]; try discriminate.
  - rewrite startswith_cons, startswith_cons_nil, andb_false_r. discriminate.
  - rewrite !startswith_cons. intros H.
    apply andb_true_iff in H as [_ H]. apply andb_true_iff in H as [_ H].
    rewrite !contains_cons. apply startswith_contains in H. rewrite H.
    rewrite !orb_true_r. reflexivity.
Qed.

Lemma match_alt_startswith (lit s m : string) :
  match_alt lit s = Some m -> startswith lit s = true.
Proof.
  unfold match_alt, startswith. destruct (strip_prefix lit s); [reflexivity|discriminate].
Qed.

Lemma match_puid_contains (s m : string) :
  match_puid s = Some m -> contains "fmt/" s = true.
Proof.
  unfold match_puid. destruct (match_alt "fmt/" s) as [m'|] eqn:E.
  - intros _. apply startswith_contains, (match_alt_startswith _ _ _ E).
  - intros H. apply startswith_xfmt_contains, (match_alt_startswith _ _ _ H).
Qed.

Lemma findall_from_cons (k : nat) (c : ascii) (s : string) :
  findall_from k (String c s)
  = match k with
    | S k' => findall_from k' s
    | O => match match_puid (String c s) with
           | Some m => m :: findall_from (String.length m - 1) s
           | None => findall_from 0 s
           end
    end.
Proof. reflexivity. Qed.

Lemma replace_from_cons (old new : string) (k : nat) (c : ascii) (s : string) :
  replace_from old new k (String c s)
  = match k with
    | S k' => replace_from old new k' s
    | O => if startswith old (String c s)
           then new ++ replace_from old new (String.length old - 1) s
           else String c (replace_from old new 0 s)
    end.
Proof. reflexivity. Qed.

(** The pattern matches nowhere in a text without [fmt/]. *)
Lemma findall_no_fmt (s : string) (k : nat) :
  contains "fmt/" s = false -> findall_from k s = [].
Proof.
  revert k. induction s as [|c s IH]; intros k H; [reflexivity|].
  rewrite findall_from_cons. destruct k as [|k].
  - destruct (match_puid (String c s)) eqn:M.
    + apply match_puid_contains in M. congruence.
    + apply IH. apply contains_head_false in H. tauto.
  - apply IH. apply contains_head_false in H. tauto.
Qed.

(** [replace] leaves a text without the old text as it is. *)
Lemma replace_no_occurrence (old new s : string) :
  contains old s = false -> replace_from old new 0 s = s.
Proof.
  induction s as [|c s IH]; intros H; [reflexivity|].
  rewrite replace_from_cons. apply contains_head_false in H as [H1 H2].
  rewrite H1, IH by exact H2. reflexivity.
Qed.

Lemma findall_skip (a s : string) :
  findall_from (String.length a) (a ++ s) = findall_from 0 s.
Proof. induction a as [|c a IH]; [reflexivity|exact IH]. Qed.

Lemma replace_skip (old new a s : string) :
  replace_from old new (String.length a) (a ++ s) = replace_from old new 0 s.
Proof. induction a as [|c a IH]; [reflexivity|exact IH]. Qed.

Lemma span_digits_app (d post : string) :
  Numeral.all_digits d = true ->
  (forall c r, post = String c r -> is_digit c = false) ->
  span_digits (d ++ post) = (d, post).
Proof.
  intros Hd Hp. induction d as [|c d IH]; simpl.
  - destruct post as [|x r]; [reflexivity|]. simpl.
    rewrite (Hp x r eq_refl). reflexivity.
  - simpl in Hd. apply andb_true_iff in Hd as [Hc Hd].
    rewrite Hc, IH by exact Hd. reflexivity.
Qed.

(** A text that begins before a character which the pattern holds at its
    head only. *)
Lemma strip_prefix_before (h : ascii) (p a b : string) :
  Csv.any_char (Ascii.eqb h) p = false ->
  startswith p (a ++ String h b) = startswith p a.
Proof.
  revert a. induction p as [|q p IH]; intros a Hp; [reflexivity|].
  simpl in Hp. apply orb_false_iff in Hp as [Hq Hp].
  destruct a as [|y a].
  - simpl append. rewrite startswith_cons, startswith_cons_nil.
    rewrite Ascii.eqb_sym, Hq. reflexivity.
  - simpl append. rewrite !startswith_cons, IH by exact Hp. reflexivity.
Qed.

Lemma startswith_before (h c : ascii) (p a b : string) :
  Csv.any_char (Ascii.eqb h) p = false ->
  a <> EmptyString ->
  startswith (String c p) (a ++ String h b) = startswith (String c p) a.
Proof.
  intros Hp Ha. destruct a as [|y a]; [congruence|].
  simpl append. rewrite !startswith_cons, strip_prefix_before by exact Hp.
  reflexivity.
Qed.

Lemma any_char_app (f : ascii -> bool) (a b : string) :
  Csv.any_char f (a ++ b) = Csv.any_char f a || Csv.any_char f b.
Proof.
  induction a as [|c a IH]; simpl; [reflexivity|].
  rewrite IH, orb_assoc. reflexivity.
Qed.

Lemma digits_without (h : ascii) (d : string) :
  is_digit h = false -> Numeral.all_digits d = true ->
  Csv.any_char (Ascii.eqb h) d = false.
Proof.
  intros Hh. induction d as [|c d IH]; simpl; [reflexivity|].
  intros H. apply andb_true_iff in H as [Hc Hd]. rewrite IH by exact Hd.
  destruct (Ascii.eqb_spec h c); [congruence|reflexivity].
Qed.

(** In front of an [fmt/], an [x-fmt/] begins at an [x-] only. *)
Lemma xfmt_before_fmt (a rest : string) :
  a <> EmptyString ->
  contains "fmt/" a = false ->
  (forall z, a <> z ++ "x-") ->
  startswith "x-fmt/" (a ++ "fmt/" ++ rest) = false.
Proof.
  intros Ha Hc Hz. destruct a as [|c a]; [congruence|].
  simpl append. rewrite startswith_cons.
  destruct (Ascii.eqb_spec "x" c) as [<-|]; [|reflexivity].
  destruct a as [|d a].
  - reflexivity.
  - simpl append. rewrite startswith_cons.
    destruct (Ascii.eqb_spec "-" d) as [<-|]; [|reflexivity].
    destruct a as [|e a].
    + exfalso. apply (Hz EmptyString). reflexivity.
    + apply contains_head_false in Hc as [_ Hc].
      apply contains_head_false in Hc as [_ Hc].
      apply contains_head_false in Hc as [Hc _].
      rewrite (startswith_before "f" "f" "mt/" (String e a));
        [exact Hc|reflexivity|discriminate].
Qed.

Section OneIdentifier.
Variables (lit digits pre post : string).
Hypothesis lit_alt : lit = "fmt/" \/ lit = "x-fmt/".
Hypothesis digits_some : digits <> EmptyString.
Hypothesis digits_only : Numeral.all_digits digits = true.
Hypothesis post_head : forall c r, post = String c r -> is_digit c = false.
Hypothesis post_free : contains "fmt/" post = false.

Lemma match_puid_here : match_puid (lit ++ digits ++ post) = Some (lit ++ digits).
Proof.
  assert (A : match_alt lit (lit ++ digits ++ post) = Some (lit ++ digits)).
  { unfold match_alt. rewrite strip_prefix_self, span_digits_app by assumption.
    destruct digits; [congruence|reflexivity]. }
  unfold match_puid. destruct lit_alt as [E|E].
  - rewrite <- E, A. reflexivity.
  - rewrite E in A |- *.
    change (match_alt "fmt/" ("x-fmt/" ++ digits ++ post)) with (@None string).
    exact A.
Qed.

Lemma identifier_contains (s : string) :
  startswith (lit ++ digits) s = true -> contains "fmt/" s = true.
Proof.
  intros H. apply startswith_app_l in H. destruct lit_alt as [E|E]; rewrite E in H.
  - apply startswith_contains. exact H.
  - apply startswith_xfmt_contains. exact H.
Qed.

Lemma identifier_absent (s : string) :
  contains "fmt/" s = false -> contains (lit ++ digits) s = false.
Proof.
  induction s as [|c s IH]; intros H.
  - simpl. rewrite orb_false_r.
    destruct (startswith (lit ++ digits) EmptyString) eqn:E; [|reflexivity].
    apply identifier_contains in E. congruence.
  - rewrite contains_cons. pose proof H as H'.
    apply contains_head_false in H as [_ H]. rewrite (IH H), orb_false_r.
    destruct (startswith (lit ++ digits) (String c s)) eqn:E; [|reflexivity].
    apply identifier_contains in E. congruence.
Qed.

Lemma findall_one_identifier :
  contains "fmt/" pre = false ->
  (lit = "fmt/" -> forall z, pre <> z ++ "x-") ->
  findall (pre ++ lit ++ digits ++ post) = [lit ++ digits].
Proof.
  unfold findall. induction pre as [|c a IH]; intros Hc Hz.
  - pose proof match_puid_here as M.
    assert (L : exists h l, lit = String h l)
      by (destruct lit_alt as [E|E]; rewrite E; eauto).
    destruct L as (h & l & L).
    assert (E : lit ++ digits ++ post = String h ((l ++ digits) ++ post))
      by (rewrite L; simpl; rewrite append_assoc; reflexivity).
    assert (E2 : lit ++ digits = String h (l ++ digits)) by (rewrite L; reflexivity).
    change (EmptyString ++ lit ++ digits ++ post) with (lit ++ digits ++ post).
    rewrite E, findall_from_cons, <- E, M. f_equal. rewrite E2.
    replace (String.length (String h (l ++ digits)) - 1)
      with (String.length (l ++ digits)) by (simpl; lia).
    rewrite findall_skip. apply findall_no_fmt. exact post_free.
  - simpl append. rewrite findall_from_cons.
    assert (N : match_puid (String c (a ++ lit ++ digits ++ post)) = None).
    { unfold match_puid.
      assert (F : match_alt "fmt/" (String c (a ++ lit ++ digits ++ post)) = None).
      { destruct (match_alt "fmt/" _) eqn:M; [|reflexivity].
        apply match_alt_startswith in M. exfalso.
        assert (S1 : exists h b, Csv.any_char (Ascii.eqb h) "mt/" = false
                  /\ lit ++ digits ++ post = String h b).
        { destruct lit_alt as [E|E]; rewrite E;
            [exists "f"%char|exists "x"%char]; eexists; split; reflexivity. }
        destruct S1 as (h & b & Hh & Eb). rewrite Eb in M.
        change (String c (a ++ String h b)) with (String c a ++ String h b) in M.
        rewrite startswith_before in M by (exact Hh || discriminate).
        apply contains_head_false in Hc as [Hc _]. congruence. }
      rewrite F.
      destruct (match_alt "x-fmt/" _) eqn:M; [|reflexivity].
      apply match_alt_startswith in M. exfalso.
      destruct lit_alt as [E|E].
      - rewrite E in M.
        change (String c (a ++ "fmt/" ++ digits ++ post))
          with (String c a ++ "fmt/" ++ digits ++ post) in M.
        rewrite xfmt_before_fmt in M; [discriminate|discriminate|exact Hc|].
        apply Hz. exact E.
      - rewrite E in M.
        change (String c (a ++ "x-fmt/" ++ digits ++ post))
          with (String c a ++ String "x" ("-fmt/" ++ digits ++ post)) in M.
        rewrite startswith_before in M by (reflexivity || discriminate).
        apply startswith_xfmt_contains in M. congruence. }
    rewrite N. apply IH.
    + apply contains_head_false in Hc. tauto.
    + intros E z Hp. apply (Hz E (String c z)). rewrite Hp. reflexivity.
Qed.

Lemma replace_one_identifier (new : string) :
  contains "fmt/" pre = false ->
  replace_from (lit ++ digits) new 0 (pre ++ lit ++ digits ++ post)
  = pre ++ new ++ post.
Proof.
  assert (L : exists h l, lit = String h l /\ is_digit h = false
                /\ Csv.any_char (Ascii.eqb h) l = false).
  { destruct lit_alt as [E|E]; rewrite E;
      [exists "f"%char|exists "x"%char]; eexists; repeat split; reflexivity. }
  destruct L as (h & l & L & Hh & Hl).
  assert (E : lit ++ digits ++ post = String h ((l ++ digits) ++ post))
    by (rewrite L; simpl; rewrite append_assoc; reflexivity).
  assert (E2 : lit ++ digits = String h (l ++ digits)) by (rewrite L; reflexivity).
  induction pre as [|c a IH]; intros Hc.
  - change (EmptyString ++ lit ++ digits ++ post) with (lit ++ digits ++ post).
    change (EmptyString ++ new ++ post) with (new ++ post).
    assert (S : startswith (lit ++ digits) (lit ++ digits ++ post) = true)
      by (rewrite <- append_assoc; apply startswith_self).
    rewrite E, replace_from_cons, <- E, S.
    replace (String.length (lit ++ digits) - 1)
      with (String.length (l ++ digits)) by (rewrite E2; simpl; lia).
    rewrite replace_skip, replace_no_occurrence; [reflexivity|].
    apply identifier_absent. exact post_free.
  - simpl append. rewrite replace_from_cons.
    assert (N : startswith (lit ++ digits) (String c (a ++ lit ++ digits ++ post)) = false).
    { destruct (startswith _ _) eqn:M; [|reflexivity]. exfalso.
      rewrite E, E2 in M.
      change (String c (a ++ String h ((l ++ digits) ++ post)))
        with (String c a ++ String h ((l ++ digits) ++ post)) in M.
      rewrite startswith_before in M.
      - rewrite <- E2 in M. apply identifier_contains in M. congruence.
      - rewrite any_char_app, Hl. apply digits_without; assumption.
      - discriminate. }
    rewrite N, IH; [reflexivity|].
    apply contains_head_false in Hc. tauto.
Qed.

End OneIdentifier.

Lemma rewrite_line_identifier (lit digits pre post : string) :
  lit = "fmt/" \/ lit = "x-fmt/" ->
  digits <> EmptyString ->
  Numeral.all_digits digits = true ->
  (forall c r, post = String c r -> is_digit c = false) ->
  contains "fmt/" pre = false ->
  contains "fmt/" post = false ->
  (lit = "fmt/" -> forall z, pre <> z ++ "x-") ->
  findall (pre ++ lit ++ digits ++ post) = [lit ++ digits]
  /\ rewrite_line (pre ++ lit ++ digits ++ post)
     = pre ++ pronom_link (lit ++ digits) ++ post.
Proof.
  intros Hl Hd Ha Hp Hpre Hpost Hx.
  assert (F : findall (pre ++ lit ++ digits ++ post) = [lit ++ digits])
    by (apply findall_one_identifier; assumption).
  split; [exact F|].
  unfold rewrite_line. rewrite F. simpl fold_left. unfold replace.
  assert (N : is_empty (lit ++ digits) = false)
    by (destruct Hl as [->| ->]; reflexivity).
  rewrite N. apply replace_one_identifier; assumption.
Qed.

(** A line that holds one identifier, [fmt/] or [x-fmt/] and digits, and
    no other [fmt/] before or after it, is written with the identifier
    turned into its link and everything else as it was.  The text before
    an [fmt/] identifier must not end in [x-], which would make the
    identifier an [x-fmt/] one, and no digit may follow the identifier. *)
Theorem rewrite_line_one_identifier (lit digits pre post : string) :
  lit = "fmt/" \/ lit = "x-fmt/" ->
  digits <> EmptyString ->
  Numeral.all_digits digits = true ->
  (forall c r, post = String c r -> is_digit c = false) ->
  contains "fmt/" pre = false ->
  contains "fmt/" post = false ->
  (lit = "fmt/" -> forall z, pre <> z ++ "x-") ->
  findall (pre ++ lit ++ digits ++ post) = [lit ++ digits]
  /\ rewrite_line (pre ++ lit ++ digits ++ post)
     = pre ++ pronom_link (lit ++ digits) ++ post.
Proof. apply rewrite_line_identifier. Qed.

Lemma rewrite_line_one_identifier_witness :
  rewrite_line ("<td>" ++ "fmt/" ++ "18" ++ "</td>" ++ nl)
  = "<td>" ++ pronom_link ("fmt/" ++ "18") ++ "</td>" ++ nl.
Proof.
  apply (rewrite_line_one_identifier "fmt/" "18" "<td>" ("</td>" ++ nl)).
  - left. reflexivity.
  - discriminate.
  - reflexivity.
  - intros c r H. injection H as <- _. reflexivity.
  - reflexivity.
  - reflexivity.
  - intros _ z H. destruct z as [|a [|b [|c z]]]; simpl in H; try discriminate H.
    injection H as _ _ _ H. destruct z as [|d [|e z]]; discriminate H.
Defined.

(** A file in which no line holds the text [fmt/] is copied as it is. *)
Theorem write_pronom_links_without_identifier (in_file : list string) :
  (forall line, In line in_file -> contains "fmt/" line = false) ->
  write_pronom_links in_file = in_file.
Proof.
  intros H. unfold write_pronom_links.
  rewrite <- (map_id in_file) at 2. apply map_ext_in.
  intros line Hin. apply rewrite_line_no_match. unfold findall.
  apply findall_no_fmt, H, Hin.
Qed.

Lemma write_pronom_links_without_identifier_witness :
  write_pronom_links ["<td>format</td>" ++ nl; "<td>x-fmt</td>" ++ nl]
  = ["<td>format</td>" ++ nl; "<td>x-fmt</td>" ++ nl].
Proof.
  apply write_pronom_links_without_identifier.
  intros line [<-|[<-|[]]]; reflexivity.
Defined.

End PronomLinkFacts.

(** ** Reading back the csv files of the reports *)

Section ReadBackFacts.
Import Str Sql Csv.

(** The reader on what is left of a file opened without [newline]: [p0]
    is the parser at the start of the current line, [cur] the part of the
    line already seen, [f] says that a carriage return came before. *)
Local Abbreviation run p0 cur f s :=
  (rows_from "," p0 (lines_from cur false (universal_from f s))).

Lemma run_char (p0 : parser) (cur : string) (f : bool) (c : ascii) (s : string) :
  Ascii.eqb c CR = false -> Ascii.eqb c LF = false ->
  run p0 cur f (String c s) = run p0 (cur ++ chr c) false s.
Proof.
  intros Hcr Hlf. simpl universal_from. rewrite Hcr, Hlf.
  simpl lines_from. rewrite Hcr, Hlf. reflexivity.
Qed.

Lemma run_cr (p0 : parser) (cur : string) (f : bool) (s : string) :
  run p0 cur f (String CR s)
  = rows_from "," p0 ((cur ++ chr LF) :: lines_from EmptyString false (universal_from true s)).
Proof. reflexivity. Qed.

Lemma run_lf (p0 : parser) (cur : string) (s : string) :
  run p0 cur false (String LF s)
  = rows_from "," p0 ((cur ++ chr LF) :: lines_from EmptyString false (universal_from false s)).
Proof. reflexivity. Qed.

Lemma run_lf_after_cr (p0 : parser) (cur : string) (s : string) :
  run p0 cur true (String LF s) = run p0 cur false s.
Proof. reflexivity. Qed.

(** The end of a line inside a quoted field. *)
Lemma rows_from_quoted_line (p0 : parser) (cur a : string) (fs : list string)
    (L : list string) :
  feed "," p0 cur = Ok (Parser IN_QUOTED_FIELD a fs) ->
  rows_from "," p0 ((cur ++ chr LF) :: L)
  = rows_from "," (Parser IN_QUOTED_FIELD (a ++ chr LF) fs) L.
Proof.
  intros H. apply rows_from_open_line. apply feed_quoted_char; [reflexivity|exact H].
Qed.

(** The end of a line that ends a record. *)
Lemma rows_from_record_end (p0 : parser) (cur : string) (P : parser)
    (fs : list string) (L : list string) :
  feed "," p0 cur = Ok P ->
  process_char "," P (Some LF) = Ok (Parser EAT_CRNL EmptyString fs) ->
  rows_from "," p0 ((cur ++ chr LF) :: L)
  = (let (rows, e) := rows_from "," reset L in (fs :: rows, e)).
Proof.
  intros H1 H2.
  change (rows_from "," p0 ((cur ++ chr LF) :: L))
    with (match (p1 <- feed "," p0 (cur ++ chr LF) ;; process_char "," p1 None) with
          | Raise e => ([], Some e)
          | Ok p2 =>
              match st p2 with
              | START_RECORD =>
                  let (rows, e) := rows_from "," reset L in (fields p2 :: rows, e)
              | _ => rows_from "," p2 L
              end
          end).
  rewrite feed_app, H1. simpl bind. rewrite H2. reflexivity.
Qed.

(** A quoted field, from the character after the opening quote to the
    closing quote. *)
Lemma run_quoted (v : string) :
  forall (f : bool) (p0 : parser) (cur a : string) (fs : list string),
    feed "," p0 cur = Ok (Parser IN_QUOTED_FIELD a fs) ->
    exists p1 cur1,
      feed "," p1 cur1
      = Ok (Parser QUOTE_IN_QUOTED_FIELD (a ++ universal_from f v) fs)
      /\ forall K, run p0 cur f (double_quotes v ++ String DQ K) = run p1 cur1 false K.
Proof.
  induction v as [|c v IH]; intros f p0 cur a fs H.
  - exists p0, (cur ++ chr DQ). split.
    + rewrite feed_app, H. simpl. rewrite append_nil_r. reflexivity.
    + intros K. apply run_char; reflexivity.
  - simpl double_quotes. destruct (Ascii.eqb c DQ) eqn:EDQ.
    + apply Ascii.eqb_eq in EDQ. subst c.
      destruct (IH false p0 (cur ++ String DQ (chr DQ)) (a ++ chr DQ) fs) as (p1 & cur1 & H1 & HK).
      { apply feed_quoted_quote. exact H. }
      exists p1, cur1. split.
      * simpl universal_from. rewrite (append_cons_r a DQ). exact H1.
      * intros K. rewrite <- HK. simpl append.
        rewrite run_char by reflexivity. rewrite run_char by reflexivity.
        rewrite append_assoc. reflexivity.
    + simpl append. destruct (Ascii.eqb c CR) eqn:ECR.
      * apply Ascii.eqb_eq in ECR. subst c.
        destruct (IH true (Parser IN_QUOTED_FIELD (a ++ chr LF) fs) EmptyString
                    (a ++ chr LF) fs eq_refl) as (p1 & cur1 & H1 & HK).
        exists p1, cur1. split.
        -- simpl universal_from. rewrite (append_cons_r a LF). exact H1.
        -- intros K. rewrite <- HK, run_cr.
           apply rows_from_quoted_line. exact H.
      * destruct (Ascii.eqb c LF) eqn:ELF.
        -- apply Ascii.eqb_eq in ELF. subst c. destruct f.
           ++ destruct (IH false p0 cur a fs H) as (p1 & cur1 & H1 & HK).
              exists p1, cur1. split; [exact H1|].
              intros K. rewrite <- HK. apply run_lf_after_cr.
           ++ destruct (IH false (Parser IN_QUOTED_FIELD (a ++ chr LF) fs) EmptyString
                          (a ++ chr LF) fs eq_refl) as (p1 & cur1 & H1 & HK).
              exists p1, cur1. split.
              ** simpl universal_from. rewrite (append_cons_r a LF). exact H1.
              ** intros K. rewrite <- HK, run_lf.
                 apply rows_from_quoted_line. exact H.
        -- destruct (IH false p0 (cur ++ chr c) (a ++ chr c) fs) as (p1 & cur1 & H1 & HK).
           { apply feed_quoted_char; assumption. }
           exists p1, cur1. split.
           ++ simpl universal_from.
              rewrite (append_cons_r a c). exact H1.
           ++ intros K. rewrite <- HK. apply run_char; assumption.
Qed.

(** A field without special characters, after its first character. *)
Lemma run_plain (v : string) :
  forall (p0 : parser) (cur a : string) (fs : list string),
    any_char (special ",") v = false ->
    feed "," p0 cur = Ok (Parser IN_FIELD a fs) ->
    feed "," p0 (cur ++ v) = Ok (Parser IN_FIELD (a ++ v) fs)
    /\ forall K, run p0 cur false (v ++ K) = run p0 (cur ++ v) false K.
Proof.
  induction v as [|c v IH]; intros p0 cur a fs Hv H.
  - rewrite !append_nil_r. split; [exact H|reflexivity].
  - pose proof Hv as Hc. apply special_head in Hc as [(Hcomma & Hdq & Hcr & Hlf) Hv'].
    destruct (IH p0 (cur ++ chr c) (a ++ chr c) fs Hv') as [H1 HK].
    { rewrite feed_app, H. simpl. unfold process_char. simpl st.
      unfold is_newline. rewrite Hlf, Hcr, Hcomma. reflexivity. }
    rewrite (append_cons_r cur c), (append_cons_r a c). split; [exact H1|].
    intros K. rewrite <- HK. simpl append. apply run_char; assumption.
Qed.

Lemma universal_plain (v : string) (f : bool) :
  any_char (special ",") v = false -> universal_from f v = v.
Proof.
  revert f. induction v as [|c v IH]; intros f Hv; [reflexivity|].
  apply special_head in Hv as [(Hcomma & Hdq & Hcr & Hlf) Hv].
  simpl. rewrite Hcr, Hlf, IH by exact Hv. reflexivity.
Qed.

(** One field as the writer put it, read at the start of a field. *)
Lemma run_field (lone : bool) (f : string) (p0 : parser) (cur : string)
    (P : parser) (fs : list string) :
  P = Parser START_FIELD EmptyString fs \/ (P = reset /\ fs = []) ->
  feed "," p0 cur = Ok P ->
  exists p1 cur1 P1,
    feed "," p1 cur1 = Ok P1
    /\ (forall K, run p0 cur false (write_field "," lone f ++ K) = run p1 cur1 false K)
    /\ process_char "," P1 (Some ","%char)
       = Ok (Parser START_FIELD EmptyString (fs ++ [universal f])%list)
    /\ (P = Parser START_FIELD EmptyString fs \/ lone = true ->
        process_char "," P1 (Some LF)
        = Ok (Parser EAT_CRNL EmptyString (fs ++ [universal f])%list)).
Proof.
  intros HP H. unfold write_field.
  destruct (any_char (special ",") f || (lone && is_empty f)) eqn:Q.
  - assert (H0 : feed "," p0 (cur ++ chr DQ) = Ok (Parser IN_QUOTED_FIELD EmptyString fs)).
    { rewrite feed_app, H. destruct HP as [->|[-> ->]]; reflexivity. }
    destruct (run_quoted f false p0 (cur ++ chr DQ) EmptyString fs H0)
      as (p1 & cur1 & H1 & HK).
    exists p1, cur1, (Parser QUOTE_IN_QUOTED_FIELD (universal f) fs).
    split; [exact H1|]. split; [|split; reflexivity].
    intros K. rewrite <- HK. unfold dq, chr. rewrite !append_assoc. simpl append.
    apply run_char; reflexivity.
  - apply orb_false_iff in Q as [Hv He].
    unfold universal. rewrite (universal_plain f false Hv).
    destruct f as [|c v].
    + exists p0, cur, P. split; [exact H|]. split; [reflexivity|].
      split.
      * destruct HP as [->|[-> ->]]; reflexivity.
      * intros [->| ->]; [reflexivity|discriminate].
    + pose proof Hv as Hc. apply special_head in Hc as [(Hcomma & Hdq & Hcr & Hlf) Hv'].
      assert (H0 : feed "," p0 (cur ++ chr c) = Ok (Parser IN_FIELD (chr c) fs)).
      { rewrite feed_app, H.
        destruct HP as [->|[-> ->]]; simpl; unfold process_char, start_field; simpl st;
          unfold is_newline; rewrite Hlf, Hcr, Hdq, Hcomma; reflexivity. }
      destruct (run_plain v p0 (cur ++ chr c) (chr c) fs Hv' H0) as [H1 HK].
      exists p0, ((cur ++ chr c) ++ v), (Parser IN_FIELD (String c v) fs).
      split; [exact H1|]. split; [|split; reflexivity].
      intros K. rewrite <- HK. simpl append. apply run_char; assumption.
Qed.

(** The fields of a record after its first one, up to the end of the
    record. *)
Lemma run_record_tail (l : list string) :
  forall (f0 : string) (p0 : parser) (cur : string) (fs : list string) (T : string),
    feed "," p0 cur = Ok (Parser START_FIELD EmptyString fs) ->
    run p0 cur false (join "," (map (write_field "," false) (f0 :: l)) ++ crlf ++ T)
    = (let (rows, e) := run reset EmptyString false T in
       ((fs ++ map universal (f0 :: l))%list :: rows, e)).
Proof.
  induction l as [|f1 l IH]; intros f0 p0 cur fs T H.
  - destruct (run_field false f0 p0 cur _ fs (or_introl eq_refl) H)
      as (p1 & cur1 & P1 & H1 & HK & _ & Hlf).
    simpl map. simpl join. rewrite HK. unfold crlf, chr. simpl append.
    rewrite run_cr.
    apply (rows_from_record_end p1 cur1 P1); [exact H1|].
    apply Hlf. left. reflexivity.
  - destruct (run_field false f0 p0 cur _ fs (or_introl eq_refl) H)
      as (p1 & cur1 & P1 & H1 & HK & Hcomma & _).
    change (join "," (map (write_field "," false) (f0 :: f1 :: l)))
      with (write_field "," false f0
            ++ "," ++ join "," (map (write_field "," false) (f1 :: l))).
    set (J := join "," (map (write_field "," false) (f1 :: l))).
    replace ((write_field "," false f0 ++ "," ++ J) ++ crlf ++ T)
      with (write_field "," false f0 ++ String "," (J ++ crlf ++ T))
      by (rewrite !append_assoc; reflexivity).
    rewrite HK, run_char by reflexivity. unfold J.
    rewrite (IH f1 p1 (cur1 ++ chr ",") (fs ++ [universal f0])%list T).
    + rewrite <- app_assoc. reflexivity.
    + rewrite feed_app, H1. simpl. rewrite Hcomma. reflexivity.
Qed.

(** One record as the writer put it, read at the start of a record. *)
Lemma run_record (row : Row) (T : string) :
  run reset EmptyString false (writerow row ++ T)
  = (let (rows, e) := run reset EmptyString false T in (map universal row :: rows, e)).
Proof.
  unfold writerow. destruct row as [|f0 [|f1 l]].
  - reflexivity.
  - destruct (run_field true f0 reset EmptyString reset [] (or_intror (conj eq_refl eq_refl)) eq_refl)
      as (p1 & cur1 & P1 & H1 & HK & _ & Hlf).
    simpl map. simpl join. rewrite append_assoc, HK. unfold crlf, chr. simpl append.
    rewrite run_cr.
    apply (rows_from_record_end p1 cur1 P1); [exact H1|].
    apply Hlf. right. reflexivity.
  - destruct (run_field false f0 reset EmptyString reset [] (or_intror (conj eq_refl eq_refl)) eq_refl)
      as (p1 & cur1 & P1 & H1 & HK & Hcomma & _).
    change (join "," (map (write_field "," (Nat.eqb (List.length (f0 :: f1 :: l)) 1)) (f0 :: f1 :: l)))
      with (write_field "," false f0
            ++ "," ++ join "," (map (write_field "," false) (f1 :: l))).
    set (J := join "," (map (write_field "," false) (f1 :: l))).
    replace (((write_field "," false f0 ++ "," ++ J) ++ crlf) ++ T)
      with (write_field "," false f0 ++ String "," (J ++ crlf ++ T))
      by (rewrite !append_assoc; reflexivity).
    rewrite HK, run_char by reflexivity. unfold J.
    rewrite (run_record_tail l f1 p1 (cur1 ++ chr ",") [universal f0] T).
    + reflexivity.
    + rewrite feed_app, H1. simpl. rewrite Hcomma. reflexivity.
Qed.

Lemma reader_writerows (rows : list Row) :
  reader "," (lines_universal (writerows rows)) = (map (map universal) rows, None).
Proof.
  unfold reader, lines_universal, lines_raw, universal at 1, writerows.
  induction rows as [|row rows IH]; [reflexivity|].
  simpl map. simpl cat. rewrite run_record, IH. reflexivity.
Qed.

End ReadBackFacts.

(** ** The parser refuses no line *)

Section ReaderFacts.
Import Str Sql Csv Html Lines.

Lemma no_newline_snoc (cur : string) (c : ascii) :
  no_newline cur = true -> is_newline c = false -> no_newline (cur ++ chr c) = true.
Proof.
  unfold no_newline. intros H Hc. induction cur as [|x cur IH]; simpl in *.
  - rewrite Hc. reflexivity.
  - rewrite negb_orb in *. apply andb_true_iff in H as [Hx H].
    rewrite Hx. apply IH. exact H.
Qed.

Lemma lines_universal_ok (s : string) :
  forall (cur : string) (f : bool),
    no_newline cur = true ->
    Forall line_ok (lines_from cur false (universal_from f s)).
Proof.
  induction s as [|c s IH]; intros cur f Hcur.
  - simpl. destruct (is_empty cur); constructor; [|constructor].
    apply line_open. exact Hcur.
  - simpl universal_from. destruct (Ascii.eqb c CR) eqn:ECR.
    + simpl lines_from. constructor; [apply line_closed; exact Hcur|].
      apply IH. reflexivity.
    + destruct (Ascii.eqb c LF) eqn:ELF.
      * destruct f.
        -- apply IH. exact Hcur.
        -- simpl lines_from. constructor; [apply line_closed; exact Hcur|].
           apply IH. reflexivity.
      * simpl lines_from. rewrite ELF, ECR. apply IH.
        apply no_newline_snoc; [exact Hcur|].
        unfold is_newline. rewrite ELF, ECR. reflexivity.
Qed.

(** The parser is stopped by a character that follows a line end in its
    line, and by nothing else. *)
Lemma process_char_plain (delim : ascii) (p : parser) (c : ascii) :
  st p <> EAT_CRNL -> is_newline c = false ->
  exists p', process_char delim p (Some c) = Ok p' /\ st p' <> EAT_CRNL.
Proof.
  intros Hp Hc. unfold process_char, start_field.
  destruct (st p) eqn:S; try congruence; rewrite ?Hc;
    repeat match goal with
           | |- context [if ?b then _ else _] => destruct b
           end;
    eexists; (split; [reflexivity|]); simpl; discriminate.
Qed.

Lemma feed_plain (delim : ascii) (body : string) :
  forall p, st p <> EAT_CRNL -> no_newline body = true ->
    exists p', feed delim p body = Ok p' /\ st p' <> EAT_CRNL.
Proof.
  induction body as [|c body IH]; intros p Hp Hb.
  - exists p. split; [reflexivity|exact Hp].
  - unfold no_newline in Hb. simpl in Hb. rewrite negb_orb in Hb.
    apply andb_true_iff in Hb as [Hc Hb]. apply negb_true_iff in Hc.
    destruct (process_char_plain delim p c Hp Hc) as (p1 & H1 & S1).
    destruct (IH p1 S1 Hb) as (p2 & H2 & S2).
    exists p2. split; [|exact S2]. simpl. rewrite H1. exact H2.
Qed.

(** The end of a line: the parser is at the start of a record, or inside
    a quoted field. *)
Lemma process_line_end (delim : ascii) (p : parser) :
  exists p', process_char delim p None = Ok p'
    /\ (st p' = START_RECORD \/ st p' = IN_QUOTED_FIELD).
Proof.
  unfold process_char, start_field.
  destruct (st p) eqn:S; eexists; (split; [reflexivity|]); simpl; auto.
Qed.

Lemma process_line_feed (delim : ascii) (p : parser) :
  st p <> EAT_CRNL -> exists p', process_char delim p (Some LF) = Ok p'.
Proof.
  intros Hp. unfold process_char, start_field.
  destruct (st p) eqn:S; try congruence; simpl;
    repeat match goal with
           | |- context [if ?b then _ else _] => destruct b
           end;
    eexists; reflexivity.
Qed.

Lemma feed_line_ok (delim : ascii) (p : parser) (line : string) :
  st p <> EAT_CRNL -> line_ok line ->
  exists p', (p1 <- feed delim p line ;; process_char delim p1 None) = Ok p'
    /\ (st p' = START_RECORD \/ st p' = IN_QUOTED_FIELD).
Proof.
  intros Hp [body Hb|body Hb].
  - destruct (feed_plain delim body p Hp Hb) as (p1 & H1 & _).
    rewrite H1. apply process_line_end.
  - destruct (feed_plain delim body p Hp Hb) as (p1 & H1 & S1).
    destruct (process_line_feed delim p1 S1) as (p2 & H2).
    rewrite feed_app, H1. simpl. rewrite H2. apply process_line_end.
Qed.

Lemma rows_from_ok (delim : ascii) (lines : list string) :
  forall p, st p <> EAT_CRNL -> Forall line_ok lines ->
    snd (rows_from delim p lines) = None
    /\ (lines <> [] \/ st p = IN_QUOTED_FIELD -> fst (rows_from delim p lines) <> []).
Proof.
  induction lines as [|line lines IH]; intros p Hp Hl.
  - split.
    + simpl. destruct (st p); try reflexivity; destruct (is_empty (field p)); reflexivity.
    + intros [H|H]; [congruence|]. simpl. rewrite H. discriminate.
  - inversion Hl as [|? ? Hline Hrest]; subst.
    destruct (feed_line_ok delim p line Hp Hline) as (p2 & H2 & S2).
    change (rows_from delim p (line :: lines))
      with (match (p1 <- feed delim p line ;; process_char delim p1 None) with
            | Raise e => ([], Some e)
            | Ok p2 =>
                match st p2 with
                | START_RECORD =>
                    let (rows, e) := rows_from delim reset lines in (fields p2 :: rows, e)
                | _ => rows_from delim p2 lines
                end
            end).
    rewrite H2. destruct S2 as [S2|S2]; rewrite S2.
    + destruct (IH reset) as [I1 _]; [discriminate|exact Hrest|].
      destruct (rows_from delim reset lines) as [rows e]. simpl in *.
      split; [exact I1|discriminate].
    + destruct (IH p2) as [I1 I2]; [congruence|exact Hrest|].
      split; [exact I1|]. intros _. apply I2. right. exact S2.
Qed.

Lemma reader_universal_ok (delim : ascii) (text : string) :
  snd (reader delim (lines_universal text)) = None
  /\ (lines_universal text <> [] -> fst (reader delim (lines_universal text)) <> []).
Proof.
  unfold reader.
  destruct (rows_from_ok delim (lines_universal text) reset) as [H1 H2].
  - discriminate.
  - apply lines_universal_ok. reflexivity.
  - split; [exact H1|]. intros H. apply H2. left. exact H.
Qed.

End ReaderFacts.

(** ** What the sections of the report hold *)

Section WritesFacts.
Import Str Sql Csv Html.

(** The pieces of a table. *)
Local Abbreviation tr_open := (nl ++ "<tr>")%string.
Local Abbreviation tr_close := (nl ++ "</tr>")%string.
Local Abbreviation td c := (nl ++ "<td>" ++ c ++ "</td>")%string.
Local Abbreviation th c := (nl ++ "<td><strong>" ++ c ++ "</strong></td>")%string.
Local Abbreviation tr row := (tr_open :: map (fun c => td c) row ++ [tr_close])%list.
Local Abbreviation h3 header := (nl ++ "<h3>" ++ header ++ "</h3>")%string.
Local Abbreviation table_close := (nl ++ "</table>")%string.
Local Abbreviation return_to_top :=
  (nl ++ "<p>(<a href=" ++ dq ++ "#top" ++ dq ++ ">Return to top</a>)</p>")%string.

Lemma andthen_ok (a : list string) (w : writes) :
  (a, None) ;;; w = ((a ++ fst w)%list, snd w).
Proof. reflexivity. Qed.

Lemma andthen_skip_r (w : writes) : w ;;; skip = w.
Proof.
  destruct w as [a [e|]]; [reflexivity|].
  unfold andthen. simpl. rewrite app_nil_r. reflexivity.
Qed.

Lemma for_each_ok {A : Type} (body : A -> writes) (l : list A) :
  (forall x, In x l -> snd (body x) = None) ->
  for_each l body = (concat (map (fun x => fst (body x)) l), None).
Proof.
  induction l as [|x l IH]; intros H; [reflexivity|].
  simpl for_each. rewrite IH by (intros y Hy; apply H; right; exact Hy).
  destruct (body x) as [a e] eqn:E.
  assert (e = None) by (specialize (H x (or_introl eq_refl)); rewrite E in H; exact H).
  subst e. simpl. rewrite E. reflexivity.
Qed.

Lemma for_each_write {A : Type} (g : A -> string) (l : list A) :
  for_each l (fun x => write (g x)) = (map g l, None).
Proof.
  induction l as [|x l IH]; [reflexivity|].
  simpl for_each. rewrite IH. reflexivity.
Qed.

Lemma write_row_ok (row : Row) :
  write_row row
  = (tr row, None).
Proof. unfold write_row. rewrite for_each_write. reflexivity. Qed.

Lemma for_rows_write_row (rows : list Row) :
  for_rows (rows, None) write_row
  = (concat (map (fun row => tr row) rows), None).
Proof.
  unfold for_rows. simpl snd. simpl fst. rewrite andthen_skip_r.
  rewrite for_each_ok by (intros; rewrite write_row_ok; reflexivity).
  f_equal. f_equal. apply map_ext. intros row. rewrite write_row_ok. reflexivity.
Qed.

Lemma sqlite_to_csv_writerows (header : Row) (rows : list Row) :
  sqlite_to_csv header rows = writerows (header :: rows).
Proof. reflexivity. Qed.

Lemma report_file_read_back_eq (header : Row) (rows : list Row) :
  reader "," (lines_universal (sqlite_to_csv header rows))
  = (map universal header :: map (map universal) rows, None).
Proof. rewrite sqlite_to_csv_writerows. apply reader_writerows. Qed.

(** What [sqlite_to_csv] writes for a report, [write_html] reads back:
    the header, then the rows of the query in their order, each with its
    fields, whatever characters the fields hold; nothing is raised.  The
    one change is that of the file opened without [newline]: a carriage
    return in a value, alone or before a line feed, comes back as a line
    feed. *)
Theorem report_file_read_back (header : Row) (rows : list Row) :
  reader "," (lines_universal (sqlite_to_csv header rows))
  = (map (map universal) (header :: rows), None).
Proof. apply report_file_read_back_eq. Qed.

Lemma write_html_ok (header text : string) (delim : ascii) :
  header <> "Duplicates" ->
  snd (write_html header text delim) = None.
Proof.
  intros Hd. apply String.eqb_neq in Hd. unfold write_html. rewrite Hd.
  destruct (reader_universal_ok delim text) as [R1 R2].
  destruct (reader delim (lines_universal text)) as [rows e].
  simpl in R1, R2. subst e. cbn [fst snd].
  destruct (header =? PII).
  - destruct (Nat.ltb 5 (List.length (lines_universal text))); [|reflexivity].
    destruct (skipn 4 rows) as [|row rest]; [reflexivity|].
    rewrite for_rows_write_row. reflexivity.
  - destruct (Nat.ltb 1 (List.length (lines_universal text))) eqn:N; [|reflexivity].
    destruct rows as [|row1 rest].
    + exfalso. apply R2; [|reflexivity]. apply Nat.ltb_lt in N.
      destruct (lines_universal text); [simpl in N; lia|discriminate].
    + rewrite for_each_write, for_rows_write_row. reflexivity.
Qed.

Lemma title_plain (s : section) :
  s <> Duplicates ->
  (title s =? "Duplicates") = false /\ (title s =? PII) = false.
Proof. destruct s; try (split; reflexivity). congruence. Qed.

Lemma csv_header_universal (use_hash : bool) (s : section) :
  map universal (csv_header use_hash s) = csv_header use_hash s.
Proof. destruct use_hash, s; reflexivity. Qed.

(** A section other than the duplicates whose query returns rows holds
    one table: a first row with the names of the columns, then one row for
    every row of the query, in the order of the query, with one cell for
    every value.  Nothing is raised, whatever the values are. *)
Theorem section_table
    (pick : list Row -> Row) (use_hash : bool) (s : section) (t : Table) :
  s <> Duplicates ->
  query pick use_hash s t <> [] ->
  section_html pick use_hash s t
  = ([Report.anchor (title s); h3 (title s); table_open; tr_open]
       ++ map (fun c => th c) (csv_header use_hash s)
       ++ [tr_close]
       ++ concat (map (fun row => tr (map universal row)) (query pick use_hash s t))
       ++ [table_close; return_to_top],
     None)%list.
Proof.
  intros Hs Hq. destruct (title_plain s Hs) as [T1 T2].
  unfold section_html, write_html, csv_file. rewrite T1, T2.
  pose proof (numline_of_report (csv_header use_hash s) _ Hq) as N.
  apply Nat.ltb_lt in N. rewrite N.
  rewrite report_file_read_back_eq. cbn [fst snd].
  rewrite csv_header_universal.
  rewrite for_each_write, for_rows_write_row, map_map.
  unfold andthen, write, skip. cbn [fst snd]. f_equal.
  repeat (rewrite <- ?app_assoc; progress cbn [app]). reflexivity.
Qed.

Lemma section_table_witness :
  snd (section_html Sample.first_row true Formats Sample.jpeg_rows) = None.
Proof.
  rewrite (section_table Sample.first_row true Formats Sample.jpeg_rows);
    [reflexivity|discriminate|discriminate].
Defined.

(** *** The duplicates section *)

Lemma collect_hashes_wide (l : list Row) :
  (forall row, In row l -> 4 < List.length row) ->
  collect_hashes l = Ok (map hash l).
Proof.
  induction l as [|row l IH]; intros H; [reflexivity|].
  assert (W : 4 < List.length row) by (apply H; left; reflexivity).
  simpl collect_hashes. rewrite IH by (intros x Hx; apply H; right; exact Hx).
  destruct row as [|a [|b [|c [|d [|e row]]]]]; simpl in W; try lia.
  reflexivity.
Qed.

Lemma item4_wide (row : Row) : 4 < List.length row -> item4 row = Ok (hash row).
Proof.
  intros W. destruct row as [|a [|b [|c [|d [|e row]]]]]; simpl in W; try lia.
  reflexivity.
Qed.

Lemma concat_map_filter {A B : Type} (P : A -> bool) (g : A -> list B) (l : list A) :
  concat (map (fun x => if P x then g x else []) l) = concat (map g (filter P l)).
Proof.
  induction l as [|x l IH]; simpl; [reflexivity|].
  destruct (P x); simpl; rewrite IH; reflexivity.
Qed.

(** The table of one hash value, for a file whose first row has the word
    Checksum in the hash column and another hash value than that word. *)
Lemma duplicates_table_ok (header : Row) (rows : list Row) (h : string) :
  hash header = "Checksum" -> 4 < List.length header ->
  (forall row, In row rows -> 4 < List.length row) ->
  h <> "Checksum" ->
  duplicates_table (header :: rows, None) h
  = ([(nl ++ "<p>Files matching checksum <strong>" ++ h ++ "</strong>:</p>")%string;
      table_open; tr_open]
       ++ duplicates_header_cells
       ++ [tr_close]
       ++ concat (map (fun row => tr row) (filter (fun row => hash row =? h) rows))
       ++ [table_close], None)%list.
Proof.
  intros Hh Hw Hrows Hne. unfold duplicates_table, for_rows. cbn [fst snd].
  rewrite andthen_skip_r.
  rewrite (for_each_write (fun x => x)), map_id.
  rewrite (for_each_ok _ (header :: rows)).
  - simpl map. rewrite (item4_wide header Hw), Hh.
    assert (E : ("Checksum" =? h) = false)
      by (apply String.eqb_neq; congruence).
    rewrite E. cbn [fst skip concat app].
    replace (concat (map _ rows))
      with (concat (map (fun row => if hash row =? h then tr row else []) rows)).
    + rewrite concat_map_filter.
      unfold andthen, write. cbn [fst snd]. f_equal;
        repeat (rewrite <- ?app_assoc; progress cbn [app]); reflexivity.
    + f_equal. apply map_ext_in. intros row Hr.
      rewrite (item4_wide row (Hrows row Hr)).
      destruct (hash row =? h); [rewrite write_row_ok|]; reflexivity.
  - intros row [<-|Hr].
    + rewrite (item4_wide _ Hw). destruct (hash header =? h); [rewrite write_row_ok|]; reflexivity.
    + rewrite (item4_wide row (Hrows row Hr)).
      destruct (hash row =? h); [rewrite write_row_ok|]; reflexivity.
Qed.

Lemma duplicates_sql_wide (t : Table) (row : Row) :
  well_formed true t -> In row (duplicates_sql t) -> List.length row = 12.
Proof.
  intros Hw Hr. unfold duplicates_sql in Hr.
  apply (Permutation_in _ (Permutation_sym (order_by_perm _ _))) in Hr.
  unfold duplicates in Hr. apply filter_In in Hr as [Hr _].
  unfold well_formed in Hw. rewrite Forall_forall in Hw. apply (Hw row Hr).
Qed.

Lemma duplicates_section_html (pick : list Row -> Row) (t : Table) :
  well_formed true t ->
  duplicates_sql t <> [] ->
  let rows := map (map universal) (duplicates_sql t) in
  let hashes := filter (fun h => negb (h =? "Checksum")) (distinct (map hash rows)) in
  section_html pick true Duplicates t
  = ([Report.anchor "Duplicates"; h3 "Duplicates";
      (nl ++ "<p><em>Duplicates are grouped by hash value.</em></p>")%string]
       ++ concat (map (fun h =>
            [(nl ++ "<p>Files matching checksum <strong>" ++ h ++ "</strong>:</p>")%string;
             table_open; tr_open]
              ++ duplicates_header_cells
              ++ [tr_close]
              ++ concat (map (fun row => tr row) (filter (fun row => hash row =? h) rows))
              ++ [table_close]) hashes)
       ++ [return_to_top], None)%list.
Proof.
  intros Hw Hq rows hashes.
  assert (Wide : forall row, In row rows -> 4 < List.length row).
  { intros row Hr. unfold rows in Hr. apply in_map_iff in Hr as (row0 & <- & Hr).
    rewrite length_map, (duplicates_sql_wide t row0 Hw Hr). lia. }
  unfold section_html, write_html, csv_file. cbn [title query csv_header].
  change ("Duplicates" =? "Duplicates") with true.
  change ("Duplicates" =? PII) with false. cbv iota.
  pose proof (numline_of_report (full_header true) _ Hq) as N.
  apply Nat.ltb_lt in N. rewrite N.
  rewrite report_file_read_back_eq. cbn [fst snd]. fold rows.
  change (map universal (full_header true)) with (full_header true).
  match goal with
  | |- context [collect_hashes ?l] => rewrite (collect_hashes_wide l)
  end.
  2:{ intros row [<-|Hr]; [simpl; lia|apply Wide, Hr]. }
  cbn [bind map]. change (hash (full_header true)) with "Checksum".
  change (distinct ("Checksum" :: map hash rows))
    with ("Checksum" :: filter (fun y => negb (y =? "Checksum")) (distinct (map hash rows))).
  cbn [remove_first]. change ("Checksum" =? "Checksum") with true. cbv iota.
  fold hashes.
  assert (T : forall h, In h hashes ->
    duplicates_table (full_header true :: rows, None) h
    = ([(nl ++ "<p>Files matching checksum <strong>" ++ h ++ "</strong>:</p>")%string;
        table_open; tr_open]
         ++ duplicates_header_cells
         ++ [tr_close]
         ++ concat (map (fun row => tr row) (filter (fun row => hash row =? h) rows))
         ++ [table_close], None)%list).
  { intros h Hh. unfold hashes in Hh.
    apply filter_In in Hh as [_ Hh]. apply string_neqb in Hh.
    apply duplicates_table_ok; [reflexivity|simpl; lia|exact Wide|exact Hh]. }
  rewrite (for_each_ok _ hashes) by (intros h Hh; exact (f_equal snd (T h Hh))).
  unfold andthen, write. cbn [fst snd]. f_equal.
  repeat (rewrite <- ?app_assoc; progress cbn [app]).
  do 3 f_equal. f_equal. f_equal.
  apply map_ext_in. intros h Hh. exact (f_equal fst (T h Hh)).
Qed.

(** For a table of twelve columns the duplicates section raises nothing.
    It holds one table for every hash value of the rows of the duplicates
    report other than the word Checksum, in the order in which the values
    first come in the report, and the table of a hash value holds the rows
    of the report that have it, in their order. *)
Theorem duplicates_section_tables (pick : list Row -> Row) (t : Table) :
  well_formed true t ->
  duplicates_sql t <> [] ->
  let rows := map (map universal) (duplicates_sql t) in
  let hashes := filter (fun h => negb (h =? "Checksum")) (distinct (map hash rows)) in
  section_html pick true Duplicates t
  = ([Report.anchor "Duplicates"; h3 "Duplicates";
      (nl ++ "<p><em>Duplicates are grouped by hash value.</em></p>")%string]
       ++ concat (map (fun h =>
            [(nl ++ "<p>Files matching checksum <strong>" ++ h ++ "</strong>:</p>")%string;
             table_open; tr_open]
              ++ duplicates_header_cells
              ++ [tr_close]
              ++ concat (map (fun row => tr row) (filter (fun row => hash row =? h) rows))
              ++ [table_close]) hashes)
       ++ [return_to_top], None)%list.
Proof. apply duplicates_section_html. Qed.

Lemma duplicates_section_tables_witness :
  snd (section_html Sample.first_row true Duplicates Sample.duplicate_example) = None.
Proof.
  assert (W : well_formed true Sample.duplicate_example)
    by (repeat constructor).
  assert (N : duplicates_sql Sample.duplicate_example <> []) by discriminate.
  pose proof (duplicates_section_tables Sample.first_row _ W N) as H.
  cbv zeta in H. rewrite H. reflexivity.
Defined.

(** *** The rule of the sections *)







End WritesFacts.

(** ** The importer and the reader *)

Section ImportReaderFacts.
Import Str Sql Csv Importer Lines.

(** Taking the NUL characters out of a line. *)
Lemma replace_nul_cons (c : ascii) (s : string) :
  replace (chr NUL) EmptyString (String c s)
  = if Ascii.eqb NUL c then replace (chr NUL) EmptyString s
    else String c (replace (chr NUL) EmptyString s).
Proof.
  unfold replace. simpl is_empty. cbv iota.
  change (replace_from (chr NUL) EmptyString 0 (String c s))
    with (if startswith (chr NUL) (String c s)
          then EmptyString ++ replace_from (chr NUL) EmptyString 0 s
          else String c (replace_from (chr NUL) EmptyString 0 s)).
  unfold chr. rewrite startswith_cons, startswith_nil, andb_true_r. reflexivity.
Qed.

Lemma replace_nul_app (a b : string) :
  replace (chr NUL) EmptyString (a ++ b)
  = replace (chr NUL) EmptyString a ++ replace (chr NUL) EmptyString b.
Proof.
  induction a as [|c a IH]; [reflexivity|].
  simpl append. rewrite !replace_nul_cons, IH.
  destruct (Ascii.eqb NUL c); reflexivity.
Qed.

Lemma replace_nul_no_newline (s : string) :
  no_newline s = true -> no_newline (replace (chr NUL) EmptyString s) = true.
Proof.
  unfold no_newline. induction s as [|c s IH]; intros H; [reflexivity|].
  simpl in H. rewrite negb_orb in H. apply andb_true_iff in H as [Hc H].
  rewrite replace_nul_cons. destruct (Ascii.eqb NUL c); [apply IH; exact H|].
  simpl. rewrite negb_orb, Hc. apply IH. exact H.
Qed.

Lemma replace_nul_line_ok (line : string) :
  line_ok line -> line_ok (replace (chr NUL) EmptyString line).
Proof.
  intros [body Hb|body Hb].
  - apply line_open, replace_nul_no_newline, Hb.
  - rewrite replace_nul_app. apply (line_closed _ (replace_nul_no_newline _ Hb)).
Qed.

Lemma siegfried_lines_ok (text : string) :
  Forall line_ok (map (replace (chr NUL) EmptyString) (lines_universal text)).
Proof.
  apply Forall_forall. intros line Hl. apply in_map_iff in Hl as (l0 & <- & Hl).
  apply replace_nul_line_ok.
  pose proof (lines_universal_ok text EmptyString false eq_refl) as H.
  rewrite Forall_forall in H. apply H. exact Hl.
Qed.

(** *** The reader with the limit and the reader without *)

Lemma process_char_raise (delim : ascii) (p : parser) (c : option ascii) (e : exn) :
  process_char delim p c = Raise e -> e = CsvError.
Proof.
  unfold process_char. destruct (st p), c as [c|]; try discriminate;
    repeat match goal with
           | |- context [if ?b then _ else _] => destruct b
           end;
    try discriminate.
  intros H. injection H as <-. reflexivity.
Qed.

Lemma process_char_limited_ok (delim : ascii) (p : parser) (c : option ascii)
    (p' : parser) :
  process_char_limited delim p c = Ok p' ->
  process_char delim p c = Ok p' /\ within_limit p' = true.
Proof.
  unfold process_char_limited.
  destruct (process_char delim p c) as [q|e]; simpl; [|discriminate].
  destruct (within_limit q) eqn:W; [|discriminate].
  intros H. injection H as <-. auto.
Qed.

Lemma process_char_limited_raise (delim : ascii) (p : parser) (c : option ascii)
    (e : exn) :
  process_char_limited delim p c = Raise e -> e = CsvError.
Proof.
  unfold process_char_limited.
  destruct (process_char delim p c) as [q|e0] eqn:E; simpl.
  - destruct (within_limit q); [discriminate|].
    intros H. injection H as <-. reflexivity.
  - intros H. injection H as <-. apply (process_char_raise _ _ _ _ E).
Qed.

Lemma feed_limited_ok (delim : ascii) (line : string) :
  forall p p', feed_limited delim p line = Ok p' -> feed delim p line = Ok p'.
Proof.
  induction line as [|c line IH]; intros p p' H; [exact H|].
  simpl in H. simpl.
  destruct (process_char_limited delim p (Some c)) as [p1|e] eqn:E; [|discriminate].
  apply process_char_limited_ok in E as [E _]. rewrite E. simpl in *.
  apply IH. exact H.
Qed.

Lemma feed_limited_raise (delim : ascii) (line : string) :
  forall p e, feed_limited delim p line = Raise e -> e = CsvError.
Proof.
  induction line as [|c line IH]; intros p e H; [discriminate|].
  simpl in H.
  destruct (process_char_limited delim p (Some c)) as [p1|e1] eqn:E; simpl in H.
  - apply (IH _ _ H).
  - injection H as <-. apply (process_char_limited_raise _ _ _ _ E).
Qed.

Lemma rows_from_limited_cons (delim : ascii) (p : parser) (line : string)
    (lines : list string) :
  rows_from_limited delim p (line :: lines)
  = match (p1 <- feed_limited delim p line ;; process_char_limited delim p1 None) with
    | Raise e => ([], Some e)
    | Ok p2 =>
        match st p2 with
        | START_RECORD =>
            let (rows, e) := rows_from_limited delim reset lines in
            (fields p2 :: rows, e)
        | _ => rows_from_limited delim p2 lines
        end
    end.
Proof. reflexivity. Qed.

Lemma rows_from_cons (delim : ascii) (p : parser) (line : string)
    (lines : list string) :
  rows_from delim p (line :: lines)
  = match (p1 <- feed delim p line ;; process_char delim p1 None) with
    | Raise e => ([], Some e)
    | Ok p2 =>
        match st p2 with
        | START_RECORD =>
            let (rows, e) := rows_from delim reset lines in (fields p2 :: rows, e)
        | _ => rows_from delim p2 lines
        end
    end.
Proof. reflexivity. Qed.

(** Where the reader with the limit raises nothing it is the reader
    without the limit. *)
Lemma rows_from_limited_agree (delim : ascii) (lines : list string) :
  forall p, snd (rows_from_limited delim p lines) = None ->
    rows_from_limited delim p lines = rows_from delim p lines.
Proof.
  induction lines as [|line lines IH]; intros p H; [reflexivity|].
  rewrite rows_from_limited_cons in H. rewrite rows_from_limited_cons, rows_from_cons.
  destruct (feed_limited delim p line) as [p1|e] eqn:F; simpl in *; [|discriminate].
  rewrite (feed_limited_ok _ _ _ _ F). simpl.
  destruct (process_char_limited delim p1 None) as [p2|e] eqn:E; [|discriminate].
  apply process_char_limited_ok in E as [E _]. rewrite E.
  destruct (st p2);
    try (apply IH; exact H).
  specialize (IH reset).
  destruct (rows_from_limited delim reset lines) as [rows e]. simpl in *.
  rewrite <- IH by exact H. reflexivity.
Qed.

(** It raises the error of the [csv] module and nothing else. *)
Lemma rows_from_limited_raise (delim : ascii) (lines : list string) :
  forall p e, snd (rows_from_limited delim p lines) = Some e -> e = CsvError.
Proof.
  induction lines as [|line lines IH]; intros p e H.
  - simpl in H. destruct (st p); try discriminate;
      destruct (is_empty (field p)); discriminate.
  - rewrite rows_from_limited_cons in H.
    destruct (feed_limited delim p line) as [p1|e1] eqn:F; simpl in H.
    + destruct (process_char_limited delim p1 None) as [p2|e2] eqn:E.
      * destruct (st p2); try (apply (IH _ _ H)).
        specialize (IH reset e).
        destruct (rows_from_limited delim reset lines) as [rows e']. simpl in *.
        apply IH. exact H.
      * simpl in H. injection H as <-. apply (process_char_limited_raise _ _ _ _ E).
    + injection H as <-. apply (feed_limited_raise _ _ _ _ F).
Qed.

Lemma reader_limited_agree (delim : ascii) (lines : list string) :
  snd (reader_limited delim lines) = None ->
  reader_limited delim lines = reader delim lines.
Proof. apply rows_from_limited_agree. Qed.

(** *** A text within the limit *)

Lemma length_append (a b : string) :
  String.length (a ++ b) = String.length a + String.length b.
Proof. induction a as [|c a IH]; simpl; [reflexivity|]. rewrite IH. reflexivity. Qed.

(** A character makes the field longer by one character at most, and the
    end of a line by none. *)
Lemma process_char_field (delim : ascii) (p : parser) (c : option ascii) (p' : parser) :
  process_char delim p c = Ok p' ->
  String.length (field p')
  <= String.length (field p) + match c with Some _ => 1 | None => 0 end.
Proof.
  unfold process_char, start_field, add_char, save_field, goto.
  destruct (st p), c as [c|];
    repeat match goal with
           | |- context [if ?b then _ else _] => destruct b
           end;
    intros H; try discriminate H; injection H as <-; simpl;
    rewrite ?length_append; simpl; lia.
Qed.

Lemma feed_limited_bound (delim : ascii) (line : string) :
  forall p p',
    feed delim p line = Ok p' ->
    (N.of_nat (String.length (field p) + String.length line) <= field_size_limit)%N ->
    feed_limited delim p line = Ok p'
    /\ String.length (field p') <= String.length (field p) + String.length line.
Proof.
  induction line as [|c line IH]; intros p p' H B.
  - simpl in *. injection H as <-. split; [reflexivity|lia].
  - simpl in H. simpl feed_limited. unfold process_char_limited.
    destruct (process_char delim p (Some c)) as [p1|e] eqn:E; [|discriminate].
    simpl in H. pose proof (process_char_field _ _ _ _ E) as L. simpl in L.
    simpl String.length in B.
    assert (W : within_limit p1 = true).
    { unfold within_limit. apply N.leb_le. lia. }
    simpl. rewrite W. simpl.
    destruct (IH p1 p' H) as [F L']; [lia|].
    split; [exact F|]. simpl. lia.
Qed.

Lemma rows_from_limited_bound (delim : ascii) (lines : list string) :
  forall p,
    snd (rows_from delim p lines) = None ->
    (N.of_nat (String.length (field p) + list_sum (map String.length lines))
     <= field_size_limit)%N ->
    rows_from_limited delim p lines = rows_from delim p lines.
Proof.
  induction lines as [|line lines IH]; intros p H B; [reflexivity|].
  rewrite rows_from_cons in H. rewrite rows_from_limited_cons, rows_from_cons.
  simpl map in B. simpl list_sum in B.
  destruct (feed delim p line) as [p1|e] eqn:F; simpl in *; [|discriminate].
  destruct (feed_limited_bound delim line p p1 F) as [FL L1]; [lia|].
  rewrite FL. simpl. unfold process_char_limited.
  destruct (process_char delim p1 None) as [p2|e] eqn:E; [|discriminate].
  pose proof (process_char_field _ _ _ _ E) as L2. simpl in L2.
  assert (W : within_limit p2 = true).
  { unfold within_limit. apply N.leb_le. lia. }
  simpl. rewrite W.
  destruct (st p2);
    try (apply IH; [exact H|lia]).
  specialize (IH reset).
  destruct (rows_from delim reset lines) as [rows e]. simpl in *.
  rewrite IH; [reflexivity|exact H|lia].
Qed.

Lemma lines_from_total (s : string) :
  forall cur pending,
    list_sum (map String.length (lines_from cur pending s))
    = String.length cur + String.length s.
Proof.
  induction s as [|c s IH]; intros cur pending.
  - simpl. destruct cur; simpl; lia.
  - simpl lines_from. destruct (Ascii.eqb c LF).
    + simpl. rewrite IH, length_append. simpl. lia.
    + destruct pending.
      * destruct (Ascii.eqb c CR); simpl; rewrite IH; simpl; lia.
      * destruct (Ascii.eqb c CR); rewrite IH, length_append; simpl; lia.
Qed.

Lemma universal_length (s : string) :
  forall f, String.length (universal_from f s) <= String.length s.
Proof.
  induction s as [|c s IH]; intros f; simpl; [lia|].
  destruct (Ascii.eqb c CR); [simpl; specialize (IH true); lia|].
  destruct (Ascii.eqb c LF); [destruct f|]; simpl; specialize (IH false); lia.
Qed.

Lemma replace_nul_length (s : string) :
  String.length (replace (chr NUL) EmptyString s) <= String.length s.
Proof.
  induction s as [|c s IH]; [simpl; lia|].
  rewrite replace_nul_cons. destruct (Ascii.eqb NUL c); simpl; lia.
Qed.

Lemma siegfried_lines_total (text : string) :
  list_sum (map String.length
              (map (replace (chr NUL) EmptyString) (lines_universal text)))
  <= String.length text.
Proof.
  unfold lines_universal, lines_raw, universal.
  pose proof (lines_from_total (universal_from false text) EmptyString false) as T.
  pose proof (universal_length text false) as U. simpl in T.
  assert (M : forall l,
    list_sum (map String.length (map (replace (chr NUL) EmptyString) l))
    <= list_sum (map String.length l)).
  { induction l as [|x l IHl]; simpl; [lia|].
    pose proof (replace_nul_length x). lia. }
  specialize (M (lines_from EmptyString false (universal_from false text))). lia.
Qed.

Lemma siegfried_reader_cases (text : string) :
  snd (siegfried_reader text) = None \/ snd (siegfried_reader text) = Some CsvError.
Proof.
  destruct (snd (siegfried_reader text)) as [e|] eqn:E; [|left; reflexivity].
  right. f_equal. apply (rows_from_limited_raise _ _ _ _ E).
Qed.

Lemma import_csv_raise (use_hash : bool) (db : option Table) (rows : list Row) (e : exn) :
  import_csv use_hash db rows = Raise e -> e = OperationalError.
Proof.
  destruct rows as [|header rows]; [discriminate|].
  rewrite import_csv_cases.
  destruct (_ || _); [discriminate|]. intros H. injection H as <-. reflexivity.
Qed.

(** The import of a file that is UTF-8 can end with two exceptions and no
    other: the error of the reader, which is raised for a field of more
    than 131072 characters only (the parser itself refuses no line of the
    file, and a file of no more characters than that has no such field),
    and the error of sqlite for a row that has not the width of the
    table.  When the reader raises nothing, the import is that of the rows
    the parser reads. *)
Theorem import_file_outcome (use_hash : bool) (db : option Table) (text : string) :
  let lines := map (replace (chr NUL) EmptyString) (lines_universal text) in
  snd (reader "," lines) = None
  /\ (snd (siegfried_reader text) = None \/ snd (siegfried_reader text) = Some CsvError)
  /\ (snd (siegfried_reader text) = None ->
      siegfried_reader text = reader "," lines
      /\ import_file use_hash db text = import_csv use_hash db (fst (reader "," lines)))
  /\ ((N.of_nat (String.length text) <= field_size_limit)%N ->
      snd (siegfried_reader text) = None)
  /\ (forall e, import_file use_hash db text = Raise e ->
        e = OperationalError \/ e = CsvError).
Proof.
  intros lines.
  assert (R : snd (reader "," lines) = None).
  { unfold reader. apply rows_from_ok; [discriminate|apply siegfried_lines_ok]. }
  split; [exact R|]. split; [apply siegfried_reader_cases|]. split; [|split].
  - intros H. assert (A : siegfried_reader text = reader "," lines)
      by (apply reader_limited_agree; exact H).
    split; [exact A|]. unfold import_file. cbv zeta. rewrite H, A.
    destruct (import_csv use_hash db (fst (reader "," lines))); reflexivity.
  - intros B. unfold siegfried_reader, reader_limited. fold lines.
    rewrite rows_from_limited_bound; [exact R|exact R|].
    pose proof (siegfried_lines_total text) as T. fold lines in T. simpl. lia.
  - intros e. unfold import_file. cbv zeta.
    destruct (import_csv use_hash db (fst (siegfried_reader text))) as [db'|e1] eqn:I;
      simpl.
    + destruct (siegfried_reader_cases text) as [S|S]; rewrite S; [discriminate|].
      intros H. injection H as <-. right. reflexivity.
    + intros H. injection H as <-. left. apply (import_csv_raise _ _ _ _ I).
Qed.

End ImportReaderFacts.

(** ** The report as a whole *)

Section WholeReportFacts.
Import Str Sql Csv Html Stats.
Context {fc : FloatConv}.
Variable pick : list Row -> Row.

Lemma in_for_each {A : Type} (body : A -> writes) (l : list A) (x : A) (w : string) :
  (forall y, In y l -> snd (body y) = None) ->
  In x l -> In w (fst (body x)) -> In w (fst (for_each l body)).
Proof.
  intros Hok Hx Hw. rewrite (for_each_ok body l Hok). simpl.
  apply in_concat. exists (fst (body x)). split; [|exact Hw].
  apply in_map_iff. exists x. auto.
Qed.

Lemma section_html_ok (use_hash : bool) (s : section) (t : Table) :
  (use_hash = true -> well_formed true t) ->
  In s (sections true use_hash) ->
  snd (section_html pick use_hash s t) = None.
Proof.
  intros Hw Hs.
  assert (D : s = Duplicates \/ s <> Duplicates)
    by (destruct s; (left; reflexivity) || (right; discriminate)).
  destruct D as [->|Hd].
  - destruct use_hash.
    + destruct (duplicates_sql t) as [|row rows] eqn:Q.
      * apply empty_section_placeholder. exact Q.
      * assert (N : duplicates_sql t <> []) by (rewrite Q; discriminate).
        pose proof (duplicates_section_html pick t (Hw eq_refl) N) as H.
        cbv zeta in H. rewrite H. reflexivity.
    + exfalso. simpl in Hs. intuition discriminate.
  - apply write_html_ok. destruct s; try discriminate. congruence.
Qed.

Lemma sections_incl (showwarnings use_hash : bool) (s : section) :
  In s (sections showwarnings use_hash) -> In s (sections true use_hash).
Proof. destruct showwarnings, use_hash; simpl; intuition. Qed.

Lemma generate_reports_ok (showwarnings use_hash : bool) (t : Table) :
  (use_hash = true -> well_formed true t) ->
  snd (generate_reports pick showwarnings use_hash t) = None.
Proof.
  intros Hw. unfold generate_reports. rewrite for_each_ok; [reflexivity|].
  intros s Hs. apply section_html_ok; [exact Hw|]. apply (sections_incl _ _ _ Hs).
Qed.

Lemma write_html_anchor (header text : string) (delim : ascii) :
  In (Report.anchor header) (fst (write_html header text delim)).
Proof. unfold write_html. apply in_andthen_l. left. reflexivity. Qed.

Lemma generate_reports_anchor (showwarnings use_hash : bool) (t : Table) (s : section) :
  (use_hash = true -> well_formed true t) ->
  In s (sections showwarnings use_hash) ->
  In (Report.anchor (title s)) (fst (generate_reports pick showwarnings use_hash t)).
Proof.
  intros Hw Hs. unfold generate_reports.
  apply (in_for_each _ _ s); [|exact Hs|apply write_html_anchor].
  intros y Hy. apply section_html_ok; [exact Hw|]. apply (sections_incl _ _ _ Hy).
Qed.

(** [generate_reports] raises nothing on a table whose rows have the
    width of the table: with hashing the twelve columns are asked for,
    without hashing nothing is asked.  Every section it writes begins with
    its anchor. *)
Theorem generate_reports_raises_nothing
    (showwarnings use_hash : bool) (t : Table) :
  (use_hash = true -> well_formed true t) ->
  snd (generate_reports pick showwarnings use_hash t) = None
  /\ forall s, In s (sections showwarnings use_hash) ->
       In (Report.anchor (title s)) (fst (generate_reports pick showwarnings use_hash t)).
Proof.
  intros Hw. split; [apply generate_reports_ok; exact Hw|].
  intros s Hs. apply generate_reports_anchor; assumption.
Qed.

(** *** From the import to the report *)

Variable r : Report.run.

Lemma contents_ok (use_hash : bool) : snd (Report.contents r use_hash) = None.
Proof.
  unfold Report.contents.
  destruct (Report.showwarnings r), use_hash, (Report.bulkextractor r); reflexivity.
Qed.

Lemma contents_links (use_hash : bool) :
  fst (Report.contents r use_hash)
  = map Report.toc_link
      (map title (sections (Report.showwarnings r) use_hash)
         ++ (if Report.bulkextractor r then [PII] else []))%list.
Proof.
  unfold Report.contents.
  destruct (Report.showwarnings r), use_hash, (Report.bulkextractor r); reflexivity.
Qed.

Lemma get_stats_html_ok (sf_command : string) (use_hash : bool) (t : Table)
    (yr dr : string * string) :
  snd (Report.get_stats_html r sf_command use_hash t yr dr) = None.
Proof.
  pose proof (contents_ok use_hash) as C.
  unfold Report.get_stats_html.
  remember (Report.contents r use_hash) as c eqn:Ec. clear Ec.
  destruct c as [c e]. simpl in C. subst e.
  destruct use_hash, (Report.virus_report r); reflexivity.
Qed.

Lemma get_stats_html_contents (sf_command : string) (use_hash : bool) (t : Table)
    (yr dr : string * string) (w : string) :
  In w (fst (Report.contents r use_hash)) ->
  In w (fst (Report.get_stats_html r sf_command use_hash t yr dr)).
Proof.
  unfold Report.get_stats_html.
  remember (Report.contents r use_hash) as c eqn:Ec. clear Ec.
  intros H.
  destruct use_hash, (Report.virus_report r);
    repeat (apply in_andthen_r; [reflexivity|]); exact H.
Qed.

Lemma import_file_well_formed (use_hash : bool) (text : string) (t : Table) :
  Importer.import_file use_hash None text = Ok (Some t) -> well_formed use_hash t.
Proof.
  unfold Importer.import_file. cbv zeta.
  destruct (fst (siegfried_reader text)) as [|header rows];
    [simpl; destruct (snd (siegfried_reader text)); discriminate|].
  destruct (import_csv use_hash None (header :: rows)) as [[t'|]|e] eqn:E;
    simpl; destruct (snd (siegfried_reader text)); try discriminate.
  intros H. injection H as <-. apply (import_csv_well_formed _ _ _ _ _ E).
Qed.

(** A run on a new store whose import and whose statistics raise nothing
    raises nothing later either, when the reader raises nothing on the
    file of bulk_extractor (no field of it is longer than the limit): the
    report is made.  The links that [get_stats] writes are those to the
    sections of the run, in the order of the sections, and every one of
    them has its anchor in what is written. *)
Theorem report_is_made
    (source_dir sf_file text pii : string) (t : Table) (yr dr : string * string) :
  let use_hash := Command.use_hash (Report.hash r) in
  let w := Report.temp_html pick r source_dir sf_file None text pii in
  let titles :=
    (map title (sections (Report.showwarnings r) use_hash)
       ++ (if Report.bulkextractor r then [PII] else []))%list in
  Importer.import_file use_hash None text = Ok (Some t) ->
  year_range t = Ok yr ->
  date_range t = Ok dr ->
  (Report.bulkextractor r = true ->
   snd (reader_limited "009" (lines_universal pii)) = None) ->
  snd w = None
  /\ (exists html, Report.main pick r source_dir sf_file None text pii = Ok html)
  /\ fst (Report.contents r use_hash) = map Report.toc_link titles
  /\ forall header, In header titles ->
       In (Report.toc_link header) (fst w) /\ In (Report.anchor header) (fst w).
Proof.
  intros use_hash w titles Hi Hy Hd Hp.
  assert (Hw : use_hash = true -> well_formed true t).
  { intros E. pose proof (import_file_well_formed _ _ _ Hi) as W.
    rewrite E in W. exact W. }
  set (sf := Command.run_siegfried (Report.hash r) (Report.scanarchives r)
               (Report.throttle r) use_hash source_dir sf_file).
  set (gs := Report.get_stats_html r sf use_hash t yr dr).
  set (gr := generate_reports pick (Report.showwarnings r) use_hash t).
  set (pi := if Report.bulkextractor r then write_html PII pii "009" else skip).
  assert (Ew : w = (gs ;;; gr ;;; Report.close_html) ;;; pi).
  { unfold w, Report.temp_html, Report.process_content. fold use_hash.
    cbv zeta. rewrite Hi. unfold Report.get_stats. rewrite Hy, Hd. reflexivity. }
  assert (S1 : snd gs = None) by apply get_stats_html_ok.
  assert (S2 : snd gr = None) by (apply generate_reports_ok; exact Hw).
  assert (S3 : snd pi = None).
  { unfold pi. destruct (Report.bulkextractor r); [|reflexivity].
    apply write_html_ok. discriminate. }
  assert (S4 : snd (gs ;;; gr ;;; Report.close_html) = None).
  { unfold andthen. rewrite S1. simpl. rewrite S2. reflexivity. }
  assert (S : snd w = None).
  { rewrite Ew. unfold andthen at 1. rewrite S4. exact S3. }
  split; [exact S|]. split; [|split].
  - unfold Report.main. fold w. cbv zeta. rewrite S. eexists. reflexivity.
  - apply contents_links.
  - intros header Hh. rewrite Ew. split.
    + apply in_andthen_l, in_andthen_l. apply get_stats_html_contents.
      rewrite contents_links. apply in_map. exact Hh.
    + unfold titles in Hh. apply in_app_or in Hh as [Hh|Hh].
      * apply in_map_iff in Hh as (s & <- & Hs).
        apply in_andthen_l, in_andthen_r; [exact S1|]. apply in_andthen_l.
        apply generate_reports_anchor; assumption.
      * apply in_andthen_r; [exact S4|]. unfold pi.
        destruct (Report.bulkextractor r); [|destruct Hh].
        destruct Hh as [<-|[]]. apply write_html_anchor.
Qed.

End WholeReportFacts.

Lemma generate_reports_raises_nothing_witness :
  snd (Html.generate_reports Sample.first_row true true Sample.duplicate_example) = None.
Proof.
  apply generate_reports_raises_nothing. intros _. repeat constructor.
Defined.

Lemma report_is_made_witness :
  snd (@Report.temp_html year_float Sample.first_row SampleRun.run
         "/data/acc1" "/out/acc1/siegfried.csv" None
         SampleRun.siegfried_csv SampleRun.pii) = None.
Proof.
  refine (proj1 (@report_is_made year_float Sample.first_row SampleRun.run
                   "/data/acc1" "/out/acc1/siegfried.csv"
                   SampleRun.siegfried_csv SampleRun.pii
                   Sample.duplicate_example
                   ("2017", "2017")
                   ("2017-03-01T10:00:00Z", "2017-03-01T10:00:00Z") _ _ _ _));
    try (intros _); vm_compute; reflexivity.
Defined.

(** ** The commands *)

Section CommandFacts.
Import Str Command.

Lemma startswith_length (p s : string) :
  startswith p s = true -> String.length p <= String.length s.
Proof.
  revert s. induction p as [|c p IH]; intros s H; simpl; [lia|].
  destruct s as [|d s]; [discriminate|].
  rewrite startswith_cons in H. apply andb_true_iff in H as [_ H].
  simpl. apply IH in H. lia.
Qed.

(** A character that the old text does not hold: the text before it and
    the text after it are replaced each for itself. *)
Lemma contains_sep (p a b : string) (c : ascii) :
  Csv.any_char (Ascii.eqb c) p = false ->
  contains p (a ++ String c b) = contains p a || contains p b.
Proof.
  intros Hc. induction a as [|x a IH].
  - simpl append. rewrite contains_cons.
    pose proof (strip_prefix_before c p EmptyString b Hc) as E.
    simpl append in E. rewrite E.
    change (contains p EmptyString) with (startswith p EmptyString || false).
    rewrite orb_false_r. reflexivity.
  - simpl append. rewrite !contains_cons, IH, orb_assoc.
    pose proof (strip_prefix_before c p (String x a) b Hc) as E.
    simpl append in E. rewrite E. reflexivity.
Qed.

Lemma replace_sep (old new : string) (c : ascii) (b : string) :
  Csv.any_char (Ascii.eqb c) old = false ->
  old <> EmptyString ->
  forall (a : string) (k : nat), k <= String.length a ->
    replace_from old new k (a ++ String c b)
    = replace_from old new k a ++ String c (replace_from old new 0 b).
Proof.
  intros Hc Ho. induction a as [|x a IH]; intros k Hk.
  - simpl in Hk. assert (k = 0) by lia. subst k. simpl append.
    rewrite replace_from_cons.
    pose proof (strip_prefix_before c old EmptyString b Hc) as E.
    simpl append in E. rewrite E.
    destruct old; [congruence|reflexivity].
  - simpl append. rewrite !replace_from_cons. destruct k as [|k].
    + pose proof (strip_prefix_before c old (String x a) b Hc) as E.
      simpl append in E. rewrite E.
      destruct (startswith old (String x a)) eqn:S.
      * apply startswith_length in S. simpl in S.
        rewrite IH by lia. rewrite append_assoc. reflexivity.
      * rewrite IH by lia. reflexivity.
    + apply IH. simpl in Hk. lia.
Qed.

(** [replace] on a command: the paths between their quotes stay as they
    are when they do not hold the old text. *)
Lemma replace_command (old new head source_dir sf_file : string) :
  Csv.any_char (Ascii.eqb DQ) old = false ->
  is_empty old = false ->
  contains old " > " = false ->
  contains old source_dir = false ->
  contains old sf_file = false ->
  replace old new (head ++ dq ++ source_dir ++ dq ++ " > " ++ dq ++ sf_file ++ dq)
  = replace old new head ++ dq ++ source_dir ++ dq ++ " > " ++ dq ++ sf_file ++ dq.
Proof.
  intros Hq He Hg Hs Hf. unfold replace. rewrite He.
  assert (Ho : old <> EmptyString) by (intros ->; discriminate).
  assert (M : forall a b,
    replace_from old new 0 (a ++ dq ++ b)
    = replace_from old new 0 a ++ dq ++ replace_from old new 0 b).
  { intros a b. apply (replace_sep old new DQ b Hq Ho a 0). lia. }
  assert (E : forall a,
    replace_from old new 0 (a ++ dq) = replace_from old new 0 a ++ dq).
  { intros a. apply (replace_sep old new DQ EmptyString Hq Ho a 0). lia. }
  rewrite !M, E.
  rewrite (replace_no_occurrence old new source_dir Hs).
  rewrite (replace_no_occurrence old new " > " Hg).
  rewrite (replace_no_occurrence old new sf_file Hf). reflexivity.
Qed.

(** The command of Siegfried, for paths that hold neither of the two
    texts the program replaces: [-z] comes after [sf] when archives are
    to be scanned, and the throttle before [-hash] when there is a hash;
    without a hash the option of the throttle changes nothing. *)
Theorem run_siegfried_command
    (hash : option string) (scanarchives throttle use_hash : bool)
    (source_dir sf_file : string) :
  contains "sf -csv" source_dir = false ->
  contains "sf -csv" sf_file = false ->
  contains "-csv -hash" source_dir = false ->
  contains "-csv -hash" sf_file = false ->
  run_siegfried hash scanarchives throttle use_hash source_dir sf_file
  = "sf " ++ (if scanarchives then "-z " else EmptyString) ++ "-csv "
      ++ (if use_hash
          then (if throttle then "-throttle 10ms " else EmptyString)
                 ++ "-hash " ++ hash_type hash ++ " "
          else EmptyString)
      ++ dq ++ source_dir ++ dq ++ " > " ++ dq ++ sf_file ++ dq.
Proof.
  intros Hs1 Hf1 Hs2 Hf2. unfold run_siegfried.
  set (tail := dq ++ source_dir ++ dq ++ " > " ++ dq ++ sf_file ++ dq).
  assert (R1 : forall head,
    replace "sf -csv" "sf -z -csv" (head ++ tail)
    = replace "sf -csv" "sf -z -csv" head ++ tail)
    by (intros head; apply replace_command; (reflexivity || assumption)).
  assert (R2 : forall head,
    replace "-csv -hash" "-csv -throttle 10ms -hash" (head ++ tail)
    = replace "-csv -hash" "-csv -throttle 10ms -hash" head ++ tail)
    by (intros head; apply replace_command; (reflexivity || assumption)).
  assert (H : exists ht, hash_type hash = ht
    /\ (ht = "md5" \/ ht = "sha1" \/ ht = "sha256" \/ ht = "sha512")).
  { unfold hash_type. destruct hash as [h|]; [|eauto 6].
    destruct (h =? "sha1"); [eauto 6|].
    destruct (h =? "sha256"); [eauto 6|].
    destruct (h =? "sha512"); eauto 6. }
  destruct H as (ht & -> & Hht).
  destruct use_hash.
  - rewrite <- (append_assoc ht " " tail).
    rewrite <- (append_assoc "sf -csv -hash " (ht ++ " ") tail).
    destruct Hht as [-> | [-> | [-> | ->]]];
      destruct scanarchives, throttle; cbv iota;
      rewrite ?R1; 
      repeat match goal with
             | |- context [replace ?o ?n ?x ++ tail] =>
                 let y := eval vm_compute in (replace o n x) in
                 change (replace o n x) with y
             end;
      rewrite ?R2;
      repeat match goal with
             | |- context [replace ?o ?n ?x ++ tail] =>
                 let y := eval vm_compute in (replace o n x) in
                 change (replace o n x) with y
             end;
      reflexivity.
  - destruct scanarchives, throttle; cbv iota;
      rewrite ?R1;
      repeat match goal with
             | |- context [replace ?o ?n ?x ++ tail] =>
                 let y := eval vm_compute in (replace o n x) in
                 change (replace o n x) with y
             end;
      rewrite ?R2;
      repeat match goal with
             | |- context [replace ?o ?n ?x ++ tail] =>
                 let y := eval vm_compute in (replace o n x) in
                 change (replace o n x) with y
             end;
      reflexivity.
Qed.

Lemma run_siegfried_command_witness :
  run_siegfried (Some "sha1") true true true "/data/acc 1" "/out/acc 1/siegfried.csv"
  = "sf -z -csv -throttle 10ms -hash sha1 " ++ dq ++ "/data/acc 1" ++ dq
      ++ " > " ++ dq ++ "/out/acc 1/siegfried.csv" ++ dq.
Proof.
  apply (run_siegfried_command (Some "sha1") true true true
           "/data/acc 1" "/out/acc 1/siegfried.csv"); reflexivity.
Defined.

(** A source whose path holds the text [sf -csv] is not the directory
    that is scanned with [-z]. *)
Example run_siegfried_path_rewritten :
  run_siegfried None true false false "/data/sf -csv" "/out/siegfried.csv"
  = "sf -z -csv " ++ dq ++ "/data/sf -z -csv" ++ dq
      ++ " > " ++ dq ++ "/out/siegfried.csv" ++ dq.
Proof. vm_compute. reflexivity. Qed.

(** The arguments of [tsk_recover]: the options that are given, each with
    its value, stand between the mode and the source, the sector offset
    first, then the image type, then the file system type; an option
    given as the empty string is left out, and the source and the
    directory of the carved files are the last two arguments. *)
Theorem carvefiles_arguments
    (allocated : bool) (tsk_fstype tsk_imgtype tsk_sector_offset : option string)
    (source tempdir : string) :
  let given flag value :=
    match value with
    | Some v => if is_empty v then [] else [flag; v]
    | None => []
    end in
  carvefiles allocated tsk_fstype tsk_imgtype tsk_sector_offset source tempdir
  = (["tsk_recover"; if allocated then "-a" else "-e"]
       ++ given "-o" tsk_sector_offset
       ++ given "-i" tsk_imgtype
       ++ given "-f" tsk_fstype
       ++ [source; tempdir])%list.
Proof.
  cbv zeta. unfold carvefiles, insert_option.
  destruct tsk_fstype as [[|? ?]|], tsk_imgtype as [[|? ?]|],
    tsk_sector_offset as [[|? ?]|]; reflexivity.
Qed.

End CommandFacts.

(** ** The section of bulk_extractor *)

Section PiiFacts.
Import Str Sql Csv Html.


(** Outside the duplicates section [write_html] raises nothing on a file
    on which the reader raises nothing, whatever the delimiter.  The
    reader raises for a field longer than the limit only, and for such a
    file the reader without the limit, which [write_html] is written
    with, is the reader of the program. *)
Theorem write_html_raises_nothing (header text : string) (delim : ascii) :
  header <> "Duplicates" ->
  snd (reader_limited delim (lines_universal text)) = None ->
  reader delim (lines_universal text) = reader_limited delim (lines_universal text)
  /\ snd (write_html header text delim) = None.
Proof.
  intros Hd Hr. split.
  - symmetry. apply reader_limited_agree. exact Hr.
  - apply write_html_ok. exact Hd.
Qed.

Lemma write_html_raises_nothing_witness :
  snd (write_html PII SampleRun.pii "009") = None.
Proof.
  apply (write_html_raises_nothing PII SampleRun.pii "009").
  - discriminate.
  - vm_compute. reflexivity.
Defined.

(** With more than five lines in the file of bulk_extractor, and no field
    longer than the limit of the reader, the section raises nothing and
    opens a table; the table is closed when the reader yields five rows or
    more, and only then.  The lines are counted, the rows are skipped: a
    quoted field that runs over the ends of lines makes them differ. *)
Theorem pii_table_closed (text : string) :
  let r := reader_limited "009" (lines_universal text) in
  let w := write_html PII text "009" in
  5 < List.length (lines_universal text) ->
  snd r = None ->
  snd w = None
  /\ In table_open (fst w)
  /\ (In (nl ++ "</table>") (fst w) <-> 5 <= List.length (fst r)).
Proof.
  intros r w Hn Hr.
  assert (S : snd w = None) by (apply write_html_ok; discriminate).
  split; [exact S|]. split; [apply write_html_pii; exact Hn|].
  unfold r. rewrite (reader_limited_agree _ _ Hr).
  unfold w, write_html.
  change (PII =? "Duplicates") with false. change (PII =? PII) with true. cbv iota.
  apply Nat.ltb_lt in Hn. rewrite Hn.
  destruct (reader_universal_ok "009" text) as [R _].
  destruct (reader "009" (lines_universal text)) as [rows e].
  simpl in R. subst e. cbn [fst snd].
  destruct rows as [|r1 [|r2 [|r3 [|r4 [|r5 rest]]]]];
    try (split; [intros [H|[H|[H|[H|[H|[H|[H|[H|[H|[]]]]]]]]]]; discriminate H
                |simpl; lia]).
  split; [intros _; simpl; lia|]. intros _. cbn [skipn].
  rewrite for_rows_write_row.
  unfold andthen, write, skip. cbn [fst snd app].
  do 9 right. apply in_or_app. left. apply in_or_app. right. left. reflexivity.
Qed.

Lemma pii_table_closed_witness :
  In (nl ++ "</table>") (fst (write_html PII SampleRun.pii "009"))
  <-> 5 <= List.length (fst (reader_limited "009" (lines_universal SampleRun.pii))).
Proof.
  apply (pii_table_closed SampleRun.pii); vm_compute; [lia|reflexivity].
Defined.

(** Six lines, the first with a quote that is not closed: one row, and a
    table that is opened and not closed. *)
Example pii_table_left_open :
  let text := dq ++ "a" ++ nl ++ "b" ++ nl ++ "c" ++ nl ++ "d" ++ nl
                 ++ "e" ++ nl ++ "f" ++ nl in
  let w := write_html PII text "009" in
  List.length (lines_universal text) = 6
  /\ reader_limited "009" (lines_universal text)
     = ([[String "a" (nl ++ "b" ++ nl ++ "c" ++ nl ++ "d" ++ nl ++ "e" ++ nl
                        ++ "f" ++ nl)]], None)
  /\ In table_open (fst w)
  /\ ~ In (nl ++ "</table>") (fst w).
Proof.
  cbv zeta. split; [reflexivity|]. split; [vm_compute; reflexivity|]. split.
  - vm_compute. tauto.
  - vm_compute. intuition discriminate.
Qed.

End PiiFacts.

(** ** The links in the report that is kept *)

Section FinalReportFacts.
Import Str Csv Pronom Lines.

(** The report that is kept, from the text of the temporary file. *)
Local Abbreviation final text := (cat (write_pronom_links (lines_universal text))).

(** A line feed ends a line: what follows it is split as a text of its
    own. *)
Lemma lines_universal_split (a b : string) :
  forall (cur : string) (f : bool),
    (f = true -> cur = EmptyString) ->
    lines_from cur false (universal_from f (a ++ String LF b))
    = (lines_from cur false (universal_from f (a ++ chr LF))
         ++ lines_from EmptyString false (universal_from false b))%list.
Proof.
  induction a as [|c a IH]; intros cur f Hf.
  - simpl append. simpl universal_from. destruct f.
    + rewrite (Hf eq_refl). reflexivity.
    + reflexivity.
  - simpl append. simpl universal_from.
    destruct (Ascii.eqb c CR) eqn:ECR.
    + simpl lines_from. rewrite IH by reflexivity. reflexivity.
    + destruct (Ascii.eqb c LF) eqn:ELF.
      * destruct f; [apply IH; discriminate|].
        simpl lines_from. rewrite IH by discriminate. reflexivity.
      * simpl lines_from. rewrite ELF, ECR. apply IH. discriminate.
Qed.

Lemma cat_app (l1 l2 : list string) : cat (l1 ++ l2) = cat l1 ++ cat l2.
Proof.
  induction l1 as [|x l1 IH]; simpl; [reflexivity|].
  rewrite IH, append_assoc. reflexivity.
Qed.

Lemma final_split (a b : string) :
  final (a ++ nl ++ b) = final (a ++ nl) ++ final b.
Proof.
  unfold lines_universal, lines_raw, universal, write_pronom_links, nl.
  change (a ++ chr LF ++ b) with (a ++ String LF b).
  rewrite lines_universal_split by discriminate.
  rewrite map_app, cat_app. reflexivity.
Qed.

Lemma lines_one_line (body : string) :
  forall cur, no_newline body = true ->
    lines_from cur false (universal_from false (body ++ chr LF))
    = [cur ++ body ++ chr LF].
Proof.
  induction body as [|c body IH]; intros cur H.
  - reflexivity.
  - unfold no_newline in H. simpl in H. rewrite negb_orb in H.
    apply andb_true_iff in H as [Hc H]. apply negb_true_iff in Hc.
    unfold is_newline in Hc. apply orb_false_iff in Hc as [Hlf Hcr].
    simpl append. simpl universal_from. rewrite Hcr, Hlf.
    simpl lines_from. rewrite Hlf, Hcr. rewrite (IH _ H).
    rewrite append_assoc. reflexivity.
Qed.

Lemma final_line (body : string) :
  no_newline body = true -> final (body ++ nl) = rewrite_line (body ++ nl).
Proof.
  intros H. unfold lines_universal, lines_raw, universal, write_pronom_links, nl.
  rewrite (lines_one_line body EmptyString H). simpl. apply append_nil_r.
Qed.

Lemma digits_no_newline (d : string) :
  Numeral.all_digits d = true -> any_char is_newline d = false.
Proof.
  induction d as [|c d IH]; simpl; [reflexivity|].
  intros H. apply andb_true_iff in H as [Hc Hd]. rewrite (IH Hd), orb_false_r.
  unfold is_newline.
  destruct (Ascii.eqb_spec c LF) as [->|_]; [discriminate Hc|].
  destruct (Ascii.eqb_spec c CR) as [->|_]; [discriminate Hc|]. reflexivity.
Qed.

(** A cell of a table that holds an identifier and nothing else has the
    identifier as a link in the report that is kept, wherever the cell
    stands in the report: the rest of the report is rewritten for
    itself. *)
Theorem report_identifier_cell (before after lit digits : string) :
  lit = "fmt/" \/ lit = "x-fmt/" ->
  digits <> EmptyString ->
  Numeral.all_digits digits = true ->
  final (before ++ nl ++ "<td>" ++ lit ++ digits ++ "</td>" ++ nl ++ after)
  = final (before ++ nl)
      ++ "<td>" ++ pronom_link (lit ++ digits) ++ "</td>" ++ nl
      ++ final after.
Proof.
  intros Hl Hd Ha.
  set (cell := "<td>" ++ lit ++ digits ++ "</td>").
  assert (E : "<td>" ++ lit ++ digits ++ "</td>" ++ nl ++ after = cell ++ nl ++ after).
  { unfold cell. rewrite !append_assoc. reflexivity. }
  rewrite E, final_split, final_split. f_equal.
  rewrite final_line.
  - unfold cell.
    replace (("<td>" ++ lit ++ digits ++ "</td>") ++ nl)
      with ("<td>" ++ lit ++ digits ++ "</td>" ++ nl)
      by (rewrite !append_assoc; reflexivity).
    destruct (rewrite_line_identifier lit digits "<td>" ("</td>" ++ nl)) as [_ R];
      try assumption; try reflexivity.
    + intros c r H. injection H as <- _. reflexivity.
    + intros _ z H. destruct z as [|a [|b [|c z]]]; simpl in H; try discriminate H.
      injection H as _ _ _ H. destruct z as [|d [|e z]]; discriminate H.
    + rewrite R, !append_assoc. reflexivity.
  - unfold no_newline, cell. apply negb_true_iff.
    rewrite !any_char_app, (digits_no_newline digits Ha).
    destruct Hl as [-> | ->]; reflexivity.
Qed.

Lemma report_identifier_cell_witness :
  final ("<tr>" ++ nl ++ "<td>" ++ "x-fmt/" ++ "111" ++ "</td>" ++ nl ++ "</tr>")
  = final ("<tr>" ++ nl)
      ++ "<td>" ++ pronom_link ("x-fmt/" ++ "111") ++ "</td>" ++ nl
      ++ final "</tr>".
Proof.
  apply (report_identifier_cell "<tr>" "</tr>" "x-fmt/" "111").
  - right. reflexivity.
  - discriminate.
  - reflexivity.
Defined.

End FinalReportFacts.
